(** * Orchestration engine: complexity classification, task decomposition,
      worker selection, consensus, maker-checker review, circuit breaking and
      conversation start-up.

    Shallow embedding of [meta_orchestrator.py] and
    [multi_agent_conversation.py].

    Conventions of the embedding.
    - Python [str] values are modelled by [string], a character being a
      code point below 256 (Latin-1); text with other code points is outside
      the embedding.  The text operations ([str.lower], the [in] substring
      test, [str.split], the word-boundary regular expressions) are Python's
      on these code points.
    - Python [float] values are IEEE 754 binary64 numbers ([Float.float])
      where rounding decides an outcome: the selector's scores and the
      performance records.  Elsewhere (complexity score, confidences,
      consensus, quality metrics) they are exact rationals ([Q]).
    - A Python exception is a value of [Exception]; a method that may raise
      returns a [PyResult].  Cancellation of a coroutine from outside is not
      modelled. *)

From Stdlib Require Import String Ascii List ZArith QArith Qminmax Lia Bool.
From Stdlib Require Import DecimalString Sorting.Sorted Lqa Qround.
From Stdlib Require Import Floats.SpecFloat.
From stdpp Require Import gmap strings.
Import ListNotations.

Local Open Scope string_scope.

(** ** Text primitives *)

Module Text.

(** [lo <= n <= hi]. *)
Definition between (lo hi n : nat) : bool := (lo <=? n)%nat && (n <=? hi)%nat.

(** [c.lower()] on one character: the letters [A-Z], and the capital
    letters of Latin-1 (code points 192 to 222, the multiplication sign 215
    apart), are moved 32 code points up. *)
Definition lower_char (c : ascii) : ascii :=
  let n := nat_of_ascii c in
  if between 65 90 n || (between 192 222 n && negb (n =? 215)%nat)
  then ascii_of_nat (n + 32) else c.

(** [s.lower()]. *)
Fixpoint lower (s : string) : string :=
  match s with
  | EmptyString => EmptyString
  | String c rest => String (lower_char c) (lower rest)
  end.

(** The regular-expression class [\w] of a [str] pattern: the underscore
    and the alphanumeric characters, which below 256 are the ASCII digits
    and letters, the ordinal indicators 170 and 186, the micro sign 181,
    the superscript digits 178, 179, 185, the fractions 188 to 190, and the
    Latin-1 letters 192 to 255 without the signs 215 and 247. *)
Definition is_word_char (c : ascii) : bool :=
  let n := nat_of_ascii c in
  between 48 57 n || between 65 90 n || between 97 122 n || (n =? 95)%nat
  || (n =? 170)%nat || between 178 179 n || (n =? 181)%nat
  || between 185 186 n || between 188 190 n
  || between 192 214 n || between 216 246 n || between 248 255 n.

Definition is_word (c : option ascii) : bool :=
  match c with
  | Some a => is_word_char a
  | None => false
  end.

(** [\b] between the character [prev] and the character [next]; the ends of
    the text count as non-word characters. *)
Definition word_boundary (prev next : option ascii) : bool :=
  xorb (is_word prev) (is_word next).

Definition head (s : string) : option ascii :=
  match s with
  | EmptyString => None
  | String c _ => Some c
  end.

(** [strip_prefix p s] is the rest of [s] after [p], together with the last
    character read, when [s] starts with [p]. *)
Fixpoint strip_prefix (p s : string) (last : option ascii)
  : option (option ascii * string) :=
  match p with
  | EmptyString => Some (last, s)
  | String a p' =>
      match s with
      | EmptyString => None
      | String b s' =>
          if Ascii.eqb a b then strip_prefix p' s' (Some b) else None
      end
  end.

Definition startswith (p s : string) : bool :=
  match strip_prefix p s None with
  | Some _ => true
  | None => false
  end.

(** [needle in hay]. *)
Fixpoint contains (needle hay : string) : bool :=
  startswith needle hay
  || match hay with
     | EmptyString => false
     | String _ rest => contains needle rest
     end.

(** One attempt of [\b(w1|...|wn)\b] at the current position: the
    alternatives are tried in order, and the length of the first one that
    matches between two word boundaries is returned. *)
Fixpoint match_alternatives (words : list string) (prev : option ascii)
  (s : string) : option nat :=
  match words with
  | [] => None
  | w :: ws =>
      match strip_prefix w s prev with
      | Some (last, rest) =>
          if word_boundary prev (head s) && word_boundary last (head rest)
          then Some (String.length w)
          else match_alternatives ws prev s
      | None => match_alternatives ws prev s
      end
  end.

(** [len(re.findall(r'\b(w1|...|wn)\b', s))]: the scan moves left to right,
    and after a match it resumes at the end of the match ([skip] counts the
    characters of the current match still to pass). *)
Fixpoint count_from (words : list string) (prev : option ascii) (skip : nat)
  (s : string) : nat :=
  match s with
  | EmptyString => 0
  | String c rest =>
      match skip with
      | S k => count_from words (Some c) k rest
      | O =>
          match match_alternatives words prev s with
          | Some n => S (count_from words (Some c) (n - 1) rest)
          | None => count_from words (Some c) 0 rest
          end
      end
  end.

Definition findall_count (words : list string) (s : string) : nat :=
  count_from words None 0 s.

(** [s.split(sep)] for a one-character separator. *)
Fixpoint split_on (sep : ascii) (s : string) : list string :=
  match s with
  | EmptyString => [EmptyString]
  | String c rest =>
      if Ascii.eqb c sep then EmptyString :: split_on sep rest
      else match split_on sep rest with
           | [] => [String c EmptyString]
           | part :: parts => String c part :: parts
           end
  end.

(** [str(n)] for a non-negative integer. *)
Definition str_of_nat (n : nat) : string :=
  NilEmpty.string_of_uint (Nat.to_uint n).

End Text.

(** ** Exceptions *)

Inductive Exception : Type :=
  | KeyError (key : string)
  | ZeroDivisionError
  | IndexError
  | AttributeError (msg : string)
  | ValueError (msg : string)
  | RuntimeError (msg : string).

(** [str(e)]. *)
Definition str_of_exception (e : Exception) : string :=
  match e with
  | KeyError key => "'" ++ key ++ "'"
  | ZeroDivisionError => "division by zero"
  | IndexError => "list index out of range"
  | AttributeError msg => msg
  | ValueError msg => msg
  | RuntimeError msg => msg
  end.

Inductive PyResult (A : Type) : Type :=
  | Ok (a : A)
  | Raise (e : Exception).
Arguments Ok {A} a.
Arguments Raise {A} e.

Definition bind {A B : Type} (m : PyResult A) (k : A -> PyResult B)
  : PyResult B :=
  match m with
  | Ok a => k a
  | Raise e => Raise e
  end.

Notation "'do' x <- m ;; k" := (bind m (fun x => k))
  (at level 10, x name, m at level 99, k at level 200).

(** ** Numbers *)

(** [a < b] on exact rationals. *)
Definition Qlt_bool (a b : Q) : bool := negb (Qle_bool b a).

(** Python's [float]: IEEE 754 binary64, every operation rounded to
    nearest, ties to even. *)
Module Float.

Definition float : Type := spec_float.

Definition prec : Z := 53.
Definition emax : Z := 1024.

Definition add : float -> float -> float := SFadd prec emax.
Definition mul : float -> float -> float := SFmul prec emax.
Definition div : float -> float -> float := SFdiv prec emax.

(** [a < b], [a <= b] and [a == b]; all three are false when an operand is
    NaN. *)
Definition ltb : float -> float -> bool := SFltb.
Definition leb : float -> float -> bool := SFleb.
Definition eqb : float -> float -> bool := SFeqb.

(** An [int] as an operand of [/]: the integer itself, so that the
    quotient of two [int]s is the exact quotient rounded once, as Python's
    true division is. *)
Definition of_nat (n : nat) : float :=
  match n with
  | O => S754_zero false
  | S _ => S754_finite false (Pos.of_nat n) 0
  end.

(** A decimal literal, given as a fraction: [lit 4 10] is [0.4], the
    binary64 number nearest to 4/10. *)
Definition lit (num den : positive) : float :=
  div (S754_finite false num 0) (S754_finite false den 0).

Definition zero : float := S754_zero false.
Definition one : float := lit 1 1.

(** [min(a, b)]: the first argument, unless the second is smaller. *)
Definition min (a b : float) : float := if ltb b a then b else a.

Declare Scope float_scope.
Delimit Scope float_scope with float.
Bind Scope float_scope with float.
Infix "+" := add : float_scope.
Infix "*" := mul : float_scope.
Infix "/" := div : float_scope.

End Float.

(** ** ComplexityClassifier *)

Inductive OrchestrationPattern : Type :=
  | SEQUENTIAL | CONCURRENT | GROUP_CHAT | MAKER_CHECKER | HANDOFF
  | HIERARCHICAL.

Module Complexity.

Definition multi_domain_words : list string :=
  ["react"; "python"; "database"; "docker"; "test"].
Definition technical_terms_words : list string :=
  ["api"; "database"; "frontend"; "backend"; "deploy"].
Definition action_verbs_words : list string :=
  ["build"; "create"; "implement"; "design"; "develop"].
Definition scope_indicators_words : list string :=
  ["system"; "platform"; "application"; "solution"].

Record Indicators : Type := {
  multi_domain : nat;
  technical_terms : nat;
  action_verbs : nat;
  scope_indicators : nat
}.

Definition complexity_indicators (request : string) : Indicators :=
  let text := Text.lower request in
  {| multi_domain := Text.findall_count multi_domain_words text;
     technical_terms := Text.findall_count technical_terms_words text;
     action_verbs := Text.findall_count action_verbs_words text;
     scope_indicators := Text.findall_count scope_indicators_words text |}.

(** [sum(complexity_indicators.values())]. *)
Definition indicator_sum (i : Indicators) : nat :=
  multi_domain i + technical_terms i + action_verbs i + scope_indicators i.

(** [sum(...) / 4.0]. *)
Definition score_of (i : Indicators) : Q :=
  inject_Z (Z.of_nat (indicator_sum i)) / 4.

Definition complexity_score (request : string) : Q :=
  score_of (complexity_indicators request).

Definition analyze_complexity (request : string) : Q * OrchestrationPattern :=
  let complexity_score := complexity_score request in
  if Qle_bool 3 complexity_score then (complexity_score, HIERARCHICAL)
  else if Qle_bool 2 complexity_score then (complexity_score, CONCURRENT)
  else if Qle_bool 1 complexity_score then (complexity_score, SEQUENTIAL)
  else (complexity_score, HANDOFF).

End Complexity.

(** ** WorkerRegistry *)

Inductive ExpertDomain : Type :=
  | FRONTEND | BACKEND | DATABASE | DEVOPS | TESTING | SECURITY | MOBILE
  | AI_ML | PRODUCT | ARCHITECTURE | CUSTOM.

(** One entry of [expert_library].  Only custom experts carry a ["name"]
    key; the entries of the built-in library have none, so
    [expert_data.get("name")] is [None] for them. *)
Record ExpertData : Type := {
  name : option string;
  domain : ExpertDomain;
  keywords : list string;
  capabilities : list string;
  performance_baseline : Q
}.

(** A Python [dict] read in insertion order: an association list whose keys
    are pairwise distinct. *)
Definition Library : Type := list (string * ExpertData).

Definition mk_expert (d : ExpertDomain) (kw caps : list string) (baseline : Q)
  : ExpertData :=
  {| name := None; domain := d; keywords := kw; capabilities := caps;
     performance_baseline := baseline |}.

(** The built-in library. *)
Definition _load_expert_library : Library :=
  [ ("react-expert",
     mk_expert FRONTEND
       ["react"; "hooks"; "components"; "jsx"; "useState"; "useEffect"]
       ["component_development"; "state_management"; "hooks_optimization"]
       (45 # 10));
    ("vue-expert",
     mk_expert FRONTEND
       ["vue"; "v-model"; "vuex"; "vue router"]
       ["vue_components"; "vuex_store"; "vue_composition"]
       (44 # 10));
    ("angular-expert",
     mk_expert FRONTEND
       ["angular"; "modules"; "services"; "decorators"]
       ["angular_modules"; "dependency_injection"; "services"]
       (43 # 10));
    ("backend-architect",
     mk_expert ARCHITECTURE
       ["architecture"; "system design"; "microservices"; "scalability"]
       ["system_architecture"; "api_design"; "scalability_planning"]
       (48 # 10));
    ("python-expert",
     mk_expert BACKEND
       ["python"; "django"; "flask"; "fastapi"]
       ["python_development"; "django_apps"; "api_development"]
       (46 # 10));
    ("postgres-expert",
     mk_expert DATABASE
       ["postgresql"; "psql"; "postgres"; "sql"]
       ["database_design"; "query_optimization"; "performance_tuning"]
       (45 # 10));
    ("docker-expert",
     mk_expert DEVOPS
       ["docker"; "containers"; "dockerfile"]
       ["containerization"; "docker_optimization"; "multi_stage_builds"]
       (44 # 10)) ].

(** [x in xs] for a list of strings. *)
Definition mem (x : string) (xs : list string) : bool :=
  existsb (String.eqb x) xs.

(** ** TaskDecomposer *)

Module Decomposer.

(** A subtask dictionary.  The ["id"] key is absent until the final
    numbering loop has run: [st_id] is [None] before that, and reading
    [s["id"]] then raises [KeyError]. *)
Record Subtask : Type := {
  st_level : nat;
  st_type : string;
  st_expert : string;
  st_description : string;
  st_dependencies : list string;
  st_estimated_time : nat;
  st_id : option string
}.

Record TaskDecomposition : Type := {
  original_request : string;
  complexity_score : Q;
  estimated_duration : nat;
  required_experts : list string;
  subtasks : list Subtask;
  orchestration_pattern : OrchestrationPattern
}.

(** [s["id"]]. *)
Definition get_id (s : Subtask) : PyResult string :=
  match st_id s with
  | Some i => Ok i
  | None => Raise (KeyError "id")
  end.

(** [[f(x) for x in xs]] where [f] may raise. *)
Fixpoint mapM {A B : Type} (f : A -> PyResult B) (xs : list A)
  : PyResult (list B) :=
  match xs with
  | [] => Ok []
  | x :: rest =>
      do y <- f x ;;
      do ys <- mapM f rest ;;
      Ok (y :: ys)
  end.

(** [for x in xs: state = body(state, x)] where the body may raise. *)
Fixpoint for_each {A S : Type} (body : S -> A -> PyResult S) (xs : list A)
  (state : S) : PyResult S :=
  match xs with
  | [] => Ok state
  | x :: rest =>
      do state' <- body state x ;;
      for_each body rest state'
  end.

Definition set_id (i : string) (s : Subtask) : Subtask :=
  {| st_level := st_level s; st_type := st_type s; st_expert := st_expert s;
     st_description := st_description s;
     st_dependencies := st_dependencies s;
     st_estimated_time := st_estimated_time s; st_id := Some i |}.

(** [for i, subtask in enumerate(subtasks): subtask["id"] = f"{prefix}{i+1}"],
    started at index [i]. *)
Fixpoint assign_ids (prefix : string) (i : nat) (l : list Subtask)
  : list Subtask :=
  match l with
  | [] => []
  | s :: rest =>
      set_id (prefix ++ Text.str_of_nat (i + 1)) s
        :: assign_ids prefix (S i) rest
  end.

(** [[s["id"] for s in subtasks if s["level"] == lvl]]. *)
Definition ids_at_level (lvl : nat) (l : list Subtask)
  : PyResult (list string) :=
  mapM get_id (List.filter (fun s => Nat.eqb (st_level s) lvl) l).

Definition _create_hierarchical_subtasks (request : string)
  (experts : list string) : PyResult (list Subtask) :=
  (* Level 1: architecture and planning *)
  let subtasks :=
    if existsb (fun expert => mem expert experts)
         ["backend-architect"; "architect"; "pm"]
    then [ {| st_level := 1; st_type := "planning";
              st_expert := "backend-architect";
              st_description := "System architecture and technical planning";
              st_dependencies := []; st_estimated_time := 20;
              st_id := None |} ]
    else [] in
  (* Level 2: core development *)
  do subtasks <-
    for_each
      (fun subtasks expert =>
         if mem expert ["react-expert"; "python-expert"; "nodejs-expert"]
         then
           do deps <- ids_at_level 1 subtasks ;;
           Ok (subtasks ++
                 [ {| st_level := 2; st_type := "development";
                      st_expert := expert;
                      st_description := "Core development using " ++ expert;
                      st_dependencies := deps; st_estimated_time := 30;
                      st_id := None |} ])%list
         else Ok subtasks)
      experts subtasks ;;
  (* Level 3: integration and testing *)
  do subtasks <-
    (if existsb (fun expert => mem expert experts)
          ["jest-expert"; "cypress-expert"]
     then
       do deps <- ids_at_level 2 subtasks ;;
       Ok (subtasks ++
             [ {| st_level := 3; st_type := "testing";
                  st_expert := "jest-expert";
                  st_description :=
                    "Integration testing and quality assurance";
                  st_dependencies := deps; st_estimated_time := 25;
                  st_id := None |} ])%list
     else Ok subtasks) ;;
  Ok (assign_ids "subtask_" 0 subtasks).

Definition parallel_subtask (expert : string) : Subtask :=
  {| st_level := 1; st_type := "parallel"; st_expert := expert;
     st_description := "Parallel analysis using " ++ expert;
     st_dependencies := []; st_estimated_time := 15; st_id := None |}.

Definition _create_concurrent_subtasks (request : string)
  (experts : list string) : PyResult (list Subtask) :=
  let subtasks := map parallel_subtask experts in
  (* the aggregation dictionary is built, and [subtasks[:-1]] read, before
     it is appended *)
  do deps <- mapM get_id (removelast subtasks) ;;
  let subtasks :=
    (subtasks ++
       [ {| st_level := 2; st_type := "aggregation";
            st_expert := "backend-architect";
            st_description :=
              "Aggregate results from concurrent expert analysis";
            st_dependencies := deps; st_estimated_time := 10;
            st_id := None |} ])%list in
  Ok (assign_ids "concurrent_" 0 subtasks).

(** The ordering loop of [_create_sequential_subtasks]. *)
Definition expert_order (experts : list string) : list string :=
  let expert_order :=
    if mem "backend-architect" experts then ["backend-architect"] else [] in
  fold_left
    (fun expert_order expert =>
       if negb (String.eqb expert "backend-architect")
          && negb (mem expert expert_order)
       then (expert_order ++ [expert])%list
       else expert_order)
    experts expert_order.

(** [for i, expert in enumerate(order): subtasks.append({...})], started at
    index [i]; [range(1, i+1)] is [seq 1 i]. *)
Fixpoint sequential_subtasks_from (i : nat) (order : list string)
  : list Subtask :=
  match order with
  | [] => []
  | expert :: rest =>
      {| st_level := 1; st_type := "sequential"; st_expert := expert;
         st_description := "Sequential processing by " ++ expert;
         st_dependencies :=
           map (fun j => "sequential_" ++ Text.str_of_nat j) (seq 1 i);
         st_estimated_time := 20; st_id := None |}
        :: sequential_subtasks_from (S i) rest
  end.

Definition _create_sequential_subtasks (request : string)
  (experts : list string) : list Subtask :=
  assign_ids "sequential_" 0
    (sequential_subtasks_from 0 (expert_order experts)).

(** The keyword scan of [decompose_task]. *)
Definition keyword_match (request : string) (expert_data : ExpertData)
  : bool :=
  existsb (fun keyword => Text.contains keyword (Text.lower request))
    (keywords expert_data).

Definition decompose_task (library : Library) (request : string)
  (pattern : OrchestrationPattern) : PyResult TaskDecomposition :=
  let complexity_score := fst (Complexity.analyze_complexity request) in
  let required_experts :=
    map fst (List.filter (fun e => keyword_match request (snd e)) library) in
  do subtasks <-
    match pattern with
    | HIERARCHICAL => _create_hierarchical_subtasks request required_experts
    | CONCURRENT => _create_concurrent_subtasks request required_experts
    | SEQUENTIAL => Ok (_create_sequential_subtasks request required_experts)
    | _ => Ok []
    end ;;
  Ok {| original_request := request;
        complexity_score := complexity_score;
        estimated_duration := List.length subtasks * 15;
        required_experts := required_experts;
        subtasks := subtasks;
        orchestration_pattern := pattern |}.

End Decomposer.

(** ** WorkerSelector *)

Module Selector.

Import Float.
Local Open Scope float_scope.

Record ExpertPerformance : Type := {
  response_quality : float;
  task_completion_rate : float;
  user_satisfaction : float;
  collaboration_score : float;
  switching_efficiency : float;
  total_tasks : nat
}.

(** The [expertise_cache] dictionary of a session, as read by the selector:
    each of the two keys may be absent. *)
Record SessionContext : Type := {
  preferred_experts : option (list string);
  recent_experts : option (list string)
}.

Definition empty_context : SessionContext :=
  {| preferred_experts := None; recent_experts := None |}.

Record ExpertMemory : Type := {
  expertise_cache : SessionContext;
  interaction_count : nat
}.

(** The part of the orchestrator's state that [select_experts] reads. *)
Record MetaOrchestrator : Type := {
  active_sessions : gmap string ExpertMemory;
  expert_performance : gmap string ExpertPerformance;
  expert_library : Library
}.

(** [matches / total] on two [int]s: true division, which raises on a zero
    divisor. *)
Definition true_div (matches total : nat) : PyResult float :=
  if Nat.eqb total 0 then Raise ZeroDivisionError
  else Ok (of_nat matches / of_nat total).

(** [sum(1 for x in xs if p(x))]. *)
Definition count_if {A : Type} (p : A -> bool) (xs : list A) : nat :=
  List.length (List.filter p xs).

(** [expert_data.get("name") in xs]. *)
Definition name_in (n : option string) (xs : list string) : bool :=
  match n with
  | Some x => mem x xs
  | None => false
  end.

(** [xs[-3:]]. *)
Definition last_three {A : Type} (xs : list A) : list A :=
  skipn (List.length xs - 3) xs.

Definition keyword_matches (request_lower : string) (d : ExpertData) : nat :=
  count_if (fun keyword => Text.contains keyword request_lower) (keywords d).

Definition capability_matches (request_lower : string) (d : ExpertData)
  : nat :=
  count_if
    (fun capability =>
       existsb (fun cap => Text.contains cap request_lower)
         (Text.split_on "_" capability))
    (capabilities d).

Definition _calculate_expert_score (request : string)
  (expert_data : ExpertData) (session_context : SessionContext)
  : PyResult float :=
  let request_lower := Text.lower request in
  let score := zero in
  (* keyword matching (40% weight) *)
  do keyword_score <-
    true_div (keyword_matches request_lower expert_data)
      (List.length (keywords expert_data)) ;;
  let score := score + keyword_score * lit 4 10 in
  (* capability relevance (30% weight) *)
  do capability_score <-
    true_div (capability_matches request_lower expert_data)
      (List.length (capabilities expert_data)) ;;
  let score := score + capability_score * lit 3 10 in
  (* context preference (20% weight) *)
  let score :=
    match preferred_experts session_context with
    | Some preferred =>
        let context_score :=
          if name_in (name expert_data) preferred then one else zero in
        score + context_score * lit 2 10
    | None => score
    end in
  (* recent usage pattern (10% weight) *)
  let score :=
    match recent_experts session_context with
    | Some recent =>
        let recent_score :=
          if name_in (name expert_data) (last_three recent) then one
          else zero in
        score + recent_score * lit 1 10
    | None => score
    end in
  Ok (min score one).

(** The value stored in [performance_modifiers] for a worker that has a
    performance record. *)
Definition performance_modifier (perf : ExpertPerformance) : float :=
  (response_quality perf * lit 3 10 + task_completion_rate perf * lit 3 10
   + collaboration_score perf * lit 2 10
   + switching_efficiency perf * lit 2 10) / of_nat 100.

(** [sorted(items, key=lambda x: x[1], reverse=True)].  Python's sort is
    stable, also with [reverse=True]: items with equal keys keep their
    relative order.  A stable sort is determined by that, and written here
    as an insertion sort.  [insert_desc x l] puts [x], which came before
    every item of [l] in the input, in front of the first item whose score
    is not greater. *)
Fixpoint insert_desc (x : string * float) (l : list (string * float))
  : list (string * float) :=
  match l with
  | [] => [x]
  | y :: rest =>
      if ltb (snd x) (snd y) then y :: insert_desc x rest
      else x :: l
  end.

Definition sorted_desc (items : list (string * float))
  : list (string * float) :=
  fold_right insert_desc [] items.

Definition session_context_of (self : MetaOrchestrator)
  (session_id : option string) : SessionContext :=
  match session_id with
  | Some sid =>
      if String.eqb sid "" then empty_context
      else match active_sessions self !! sid with
           | Some session => expertise_cache session
           | None => empty_context
           end
  | None => empty_context
  end.

(** The [expert_scores] dictionary once the performance modifiers have been
    applied, in the insertion order of the library. *)
Definition adjusted_scores (self : MetaOrchestrator) (request : string)
  (session_id : option string) : PyResult (list (string * float)) :=
  let session_context := session_context_of self session_id in
  do expert_scores <-
    Decomposer.mapM
      (fun entry =>
         do score <-
           _calculate_expert_score request (snd entry) session_context ;;
         Ok (fst entry, score))
      (expert_library self) ;;
  Ok (map
        (fun item =>
           match expert_performance self !! fst item with
           | Some perf => (fst item, snd item * performance_modifier perf)
           | None => item
           end)
        expert_scores).

Definition threshold : float := lit 3 10.

Definition select_experts (self : MetaOrchestrator) (request : string)
  (session_id : option string) : PyResult (list string) :=
  do expert_scores <- adjusted_scores self request session_id ;;
  let sorted_experts := sorted_desc expert_scores in
  let selected_experts :=
    map fst (List.filter (fun item => ltb threshold (snd item))
               sorted_experts) in
  Ok (firstn 5 selected_experts).

End Selector.

(** ** ConsensusEvaluator and the maker-checker strategy *)

Module Conversation.

Local Open Scope Q_scope.

Inductive ConversationPattern : Type :=
  | SEQUENTIAL_CHAIN | CONCURRENT_PROCESSING | GROUP_CHAT_DEBATE
  | MAKER_CHECKER_LOOP | HANDOFF_ROUTING | HIERARCHICAL_COORDINATION.

(** [str(pattern)] of the enumeration member. *)
Definition str_of_pattern (p : ConversationPattern) : string :=
  match p with
  | SEQUENTIAL_CHAIN => "ConversationPattern.SEQUENTIAL_CHAIN"
  | CONCURRENT_PROCESSING => "ConversationPattern.CONCURRENT_PROCESSING"
  | GROUP_CHAT_DEBATE => "ConversationPattern.GROUP_CHAT_DEBATE"
  | MAKER_CHECKER_LOOP => "ConversationPattern.MAKER_CHECKER_LOOP"
  | HANDOFF_ROUTING => "ConversationPattern.HANDOFF_ROUTING"
  | HIERARCHICAL_COORDINATION =>
      "ConversationPattern.HIERARCHICAL_COORDINATION"
  end.

(** A response dictionary; [confidence] is read with
    [r.get("confidence", 0.8)], so the key may be absent. *)
Record Response : Type := {
  expert : string;
  content : string;
  confidence : option Q
}.

Definition confidence_of (r : Response) : Q :=
  match confidence r with
  | Some c => c
  | None => 0.8
  end.

(** [sum(xs)] on floats. *)
Definition Qsum (xs : list Q) : Q := fold_right Qplus 0 xs.

Definition Qlen {A : Type} (xs : list A) : Q :=
  inject_Z (Z.of_nat (List.length xs)).

Definition _calculate_consensus_level (responses : list Response) : Q :=
  if (List.length responses <? 2)%nat then 1
  else
    let confidences := map confidence_of responses in
    let avg_confidence := Qsum confidences / Qlen confidences in
    let agreement_factor := Qmin (Qlen responses / 5) 1 in
    avg_confidence * agreement_factor.

Definition positive_keywords : list string :=
  ["approved"; "good"; "excellent"; "perfect"; "complete"; "ready"].
Definition negative_keywords : list string :=
  ["needs"; "improve"; "fix"; "change"; "incomplete"; "missing"].

(** [sum(1 for keyword in keywords if keyword in review_content.lower())]. *)
Definition keyword_hits (keywords : list string) (review_content : string)
  : nat :=
  List.length
    (List.filter (fun keyword => Text.contains keyword (Text.lower review_content))
       keywords).

Definition _extract_approval_score (review_content : string) : Q :=
  let positive_count := keyword_hits positive_keywords review_content in
  let negative_count := keyword_hits negative_keywords review_content in
  let total_keywords := (positive_count + negative_count)%nat in
  if Nat.eqb total_keywords 0 then 0.8
  else
    let approval_score :=
      inject_Z (Z.of_nat positive_count)
      / inject_Z (Z.of_nat total_keywords) in
    Qmax 0 (Qmin 1 approval_score).

Record Feedback : Type := {
  iteration : nat;
  maker_response : Response;
  checker_response : Response;
  approval_score : Q
}.

(** The context dictionaries handed to the maker and to the checker. *)
Record Context : Type := {
  topic : string;
  ctx_iteration : nat;
  previous_feedback : list Feedback;
  solution_to_review : option string
}.

(** The response templates; the context is not read. *)
Definition _generate_expert_specific_response (expert_name request : string)
  (context : Context) : string :=
  if String.eqb expert_name "react-expert" then
    "As a React expert, I'll implement a modern React solution using hooks, functional components, and best practices. For your request: "
      ++ request
  else if String.eqb expert_name "backend-architect" then
    "As a backend architect, I'll design a scalable and maintainable system architecture. For your request: "
      ++ request
  else if String.eqb expert_name "python-expert" then
    "As a Python expert, I'll leverage Python's ecosystem and best practices. For your request: "
      ++ request
  else if String.eqb expert_name "database-expert" then
    "As a database expert, I'll optimize the data layer for performance and scalability. For your request: "
      ++ request
  else if String.eqb expert_name "docker-expert" then
    "As a Docker expert, I'll create optimized containerization strategies. For your request: "
      ++ request
  else if String.eqb expert_name "testing-expert" then
    "As a testing expert, I'll ensure comprehensive test coverage. For your request: "
      ++ request
  else "As a " ++ expert_name ++ ", I'll provide expert guidance for: "
         ++ request.

(** [_generate_expert_response] without earlier responses.  The value of
    [random.uniform(0.7, 0.95)] is the argument [drawn]. *)
Definition _generate_expert_response (drawn : Q)
  (expert_name request : string) (context : Context) : Response :=
  {| expert := expert_name;
     content := _generate_expert_specific_response expert_name request context;
     confidence := Some drawn |}.

(** [xs[-2:]]. *)
Definition last_two {A : Type} (xs : list A) : list A :=
  skipn (List.length xs - 2) xs.

(** [expert_contributions], a dictionary of mixed values that nothing below
    reads, is left out. *)
Record ConversationResult : Type := {
  thread_id : string;
  final_response : string;
  participating_experts : list string;
  consensus_level : Q;
  conversation_duration : Q;
  message_count : nat;
  success : bool;
  quality_metrics : list (string * Q)
}.

(** Messages and threads, with the fields the strategies fill in; ids of
    messages, timestamps and metadata are left out. *)
Record ConversationMessage : Type := {
  msg_expert_name : string;
  msg_content : string;
  msg_confidence : Q
}.

Record ConversationThread : Type := {
  id : string;
  thread_topic : string;
  pattern : ConversationPattern;
  participants : list string;
  messages : list ConversationMessage;
  status : string
}.

Definition max_iterations : nat := 3.

Section MakerChecker.

(** The successive values returned by [random.uniform]. *)
Variable draws : nat -> Q.

(** One pass through the body of the [while] loop. *)
Definition review_iteration (thread_topic maker checker : string)
  (iteration_count : nat) (feedback_history : list Feedback) : Feedback :=
  let maker_context :=
    {| topic := thread_topic; ctx_iteration := iteration_count;
       previous_feedback := last_two feedback_history;
       solution_to_review := None |} in
  let maker_response :=
    _generate_expert_response (draws (2 * (iteration_count - 1)))
      maker thread_topic maker_context in
  let checker_context :=
    {| topic := thread_topic; ctx_iteration := iteration_count;
       previous_feedback := [];
       solution_to_review := Some (content maker_response) |} in
  let checker_response :=
    _generate_expert_response (draws (2 * (iteration_count - 1) + 1))
      checker ("Please review this solution: " ++ content maker_response)
      checker_context in
  {| iteration := iteration_count;
     maker_response := maker_response;
     checker_response := checker_response;
     approval_score := _extract_approval_score (content checker_response) |}.

(** [while iteration_count < max_iterations: ...], with
    [remaining = max_iterations - iteration_count]. *)
Fixpoint review_loop (thread_topic maker checker : string) (remaining : nat)
  (iteration_count : nat) (feedback_history : list Feedback)
  : nat * list Feedback :=
  match remaining with
  | O => (iteration_count, feedback_history)
  | S remaining' =>
      let iteration_count := S iteration_count in
      let feedback :=
        review_iteration thread_topic maker checker iteration_count
          feedback_history in
      let feedback_history := (feedback_history ++ [feedback])%list in
      if Qle_bool 0.8 (approval_score feedback)
      then (iteration_count, feedback_history)
      else review_loop thread_topic maker checker remaining'
             iteration_count feedback_history
  end.

(** [xs[-1]]. *)
Definition last_item {A : Type} (xs : list A) : PyResult A :=
  match rev xs with
  | x :: _ => Ok x
  | [] => Raise IndexError
  end.

Definition _calculate_improvement_rate (feedback_history : list Feedback)
  : PyResult Q :=
  if (List.length feedback_history <? 2)%nat then Ok 0
  else
    do first <- match feedback_history with
                | f :: _ => Ok f
                | [] => Raise IndexError
                end ;;
    do last <- last_item feedback_history ;;
    Ok (Qmax 0 (approval_score last - approval_score first)).

(** The role assignment: the first participant makes, the second checks;
    a single participant, or the default worker, does both. *)
Definition assign_roles (participants : list string) : string * string :=
  match participants with
  | [] => ("backend-architect", "backend-architect")
  | [only] => (only, only)
  | first :: second :: _ => (first, second)
  end.

(** [duration] is the elapsed wall-clock time read at the end. *)
Definition _maker_checker_loop_conversation (duration : Q)
  (thread : ConversationThread) : PyResult ConversationResult :=
  let '(maker, checker) := assign_roles (participants thread) in
  let '(iteration_count, feedback_history) :=
    review_loop (thread_topic thread) maker checker (max_iterations - 0) 0 []
  in
  do last <- last_item feedback_history ;;
  let final_response :=
    if Qle_bool 0.8 (approval_score last)
    then content (maker_response last)
           ++ "

[Approved by " ++ checker ++ " after "
           ++ Text.str_of_nat iteration_count ++ " iterations]"
    else content (maker_response last)
           ++ "

[Completed after " ++ Text.str_of_nat max_iterations
           ++ " iterations with best effort]" in
  do improvement <- _calculate_improvement_rate feedback_history ;;
  Ok {| thread_id := id thread;
        final_response := final_response;
        participating_experts := [maker; checker];
        consensus_level := approval_score last;
        conversation_duration := duration;
        message_count := iteration_count * 2;
        success := true;
        quality_metrics :=
          [ ("iterations_required", inject_Z (Z.of_nat iteration_count));
            ("final_approval_score", approval_score last);
            ("improvement_rate", improvement) ] |}.

End MakerChecker.

(** *** The engine and [start_conversation] *)

(** Worker bookkeeping shared by the strategies. *)
Record Workers : Type := {
  expert_availability : gmap string bool;
  expert_load : gmap string Z
}.

(** The engine's state.  A thread object is reachable through
    [active_threads] under its own id and through the local variable of the
    call that created it; both name the same object, so the map entry is the
    object. *)
Record Engine : Type := {
  active_threads : gmap string ConversationThread;
  conversation_history : list ConversationResult;
  workers : Workers
}.

(** A computation on the engine that may raise; what it changed before
    raising stays changed. *)
Definition Eng (A : Type) : Type := Engine -> PyResult A * Engine.

Definition eret {A : Type} (a : A) : Eng A := fun e => (Ok a, e).

Definition eraise {A : Type} (x : Exception) : Eng A :=
  fun e => (Raise x, e).

Definition ebind {A B : Type} (m : Eng A) (k : A -> Eng B) : Eng B :=
  fun e =>
    match m e with
    | (Ok a, e') => k a e'
    | (Raise x, e') => (Raise x, e')
    end.

(** [try: body except Exception as x: handler(x)]; every exception the
    body raises is an [Exception]. *)
Definition try_except {A : Type} (body : Eng A) (handler : Exception -> Eng A)
  : Eng A :=
  fun e =>
    match body e with
    | (Ok a, e') => (Ok a, e')
    | (Raise x, e') => handler x e'
    end.

Notation "'run' x <- m ;; k" := (ebind m (fun x => k))
  (at level 10, x name, m at level 99, k at level 200).

Definition set_status (s : string) (t : ConversationThread)
  : ConversationThread :=
  {| id := id t; thread_topic := thread_topic t; pattern := pattern t;
     participants := participants t; messages := messages t; status := s |}.

(** [self.active_threads[key] = thread]. *)
Definition store_thread (key : string) (t : ConversationThread) : Eng unit :=
  fun e =>
    (Ok tt,
     {| active_threads := <[key := t]> (active_threads e);
        conversation_history := conversation_history e;
        workers := workers e |}).

(** [self.active_threads[key].status = s]: the lookup raises on a missing
    key. *)
Definition set_active_status (key s : string) : Eng unit :=
  fun e =>
    match active_threads e !! key with
    | Some t => store_thread key (set_status s t) e
    | None => (Raise (KeyError key), e)
    end.

(** [thread.status = s] through the local variable: the object is the one
    stored under [key]. *)
Definition set_thread_status (key s : string) : Eng unit :=
  fun e =>
    (Ok tt,
     {| active_threads := alter (set_status s) key (active_threads e);
        conversation_history := conversation_history e;
        workers := workers e |}).

(** [self.conversation_history.append(result)]. *)
Definition append_history (r : ConversationResult) : Eng unit :=
  fun e =>
    (Ok tt,
     {| active_threads := active_threads e;
        conversation_history := (conversation_history e ++ [r])%list;
        workers := workers e |}).

Definition set_messages (ms : list ConversationMessage)
  (t : ConversationThread) : ConversationThread :=
  {| id := id t; thread_topic := thread_topic t; pattern := pattern t;
     participants := participants t; messages := ms; status := status t |}.

(** A strategy receives the thread object and the engine.  Of the thread it
    changes the message list only; of the engine it changes the worker
    bookkeeping only, and it reads and writes neither [active_threads] nor
    [conversation_history].  It returns a result or raises, and in both
    cases leaves the message list and the bookkeeping as given here. *)
Definition Strategy : Type :=
  ConversationThread -> Workers ->
  PyResult ConversationResult * (list ConversationMessage * Workers).

(** Running a strategy on the thread stored under [key]. *)
Definition run_strategy (strategy : Strategy) (key : string)
  (thread : ConversationThread) : Eng ConversationResult :=
  fun e =>
    let '(outcome, (messages', workers')) := strategy thread (workers e) in
    (outcome,
     {| active_threads :=
          <[key := set_messages messages' thread]> (active_threads e);
        conversation_history := conversation_history e;
        workers := workers' |}).

Section StartConversation.

Variables _sequential_chain_conversation
          _concurrent_processing_conversation
          _group_chat_debate_conversation
          _maker_checker_conversation : Strategy.

(** The body of the [try] block. *)
Definition conversation_body (thread : ConversationThread)
  : Eng ConversationResult :=
  run result <-
    match pattern thread with
    | SEQUENTIAL_CHAIN =>
        run_strategy _sequential_chain_conversation (id thread) thread
    | CONCURRENT_PROCESSING =>
        run_strategy _concurrent_processing_conversation (id thread) thread
    | GROUP_CHAT_DEBATE =>
        run_strategy _group_chat_debate_conversation (id thread) thread
    | MAKER_CHECKER_LOOP =>
        run_strategy _maker_checker_conversation (id thread) thread
    | other =>
        eraise
          (ValueError
             ("Unsupported conversation pattern: " ++ str_of_pattern other))
    end ;;
  run _ <- append_history result ;;
  run _ <- set_active_status (id thread) "completed" ;;
  eret result.

Definition error_result (thread : ConversationThread)
  (selected_experts : list string) (e : Exception) : ConversationResult :=
  {| thread_id := id thread;
     final_response := "Conversation failed: " ++ str_of_exception e;
     participating_experts := selected_experts;
     consensus_level := 0.0;
     conversation_duration := 0.0;
     message_count := 0;
     success := false;
     quality_metrics := [] |}.

(** [fresh_id] is the value of [uuid.uuid4()] drawn for the new thread.
    The optional [context] argument only fills the thread's metadata and is
    left out with it. *)
Definition start_conversation (fresh_id request : string)
  (pattern : ConversationPattern) (selected_experts : list string)
  : Eng ConversationResult :=
  let thread :=
    {| id := fresh_id; thread_topic := request; pattern := pattern;
       participants := selected_experts; messages := [];
       status := "active" |} in
  run _ <- store_thread (id thread) thread ;;
  try_except
    (conversation_body thread)
    (fun e =>
       run _ <- set_thread_status (id thread) "failed" ;;
       eret (error_result thread selected_experts e)).

End StartConversation.

(** The maker-checker strategy seen from the engine: it neither appends to
    the thread's messages nor touches the worker bookkeeping. *)
Definition maker_checker_strategy (draws : nat -> Q) (duration : Q)
  : Strategy :=
  fun thread workers =>
    (_maker_checker_loop_conversation draws duration thread,
     (messages thread, workers)).

(** The engine after [__init__]. *)
Definition new_engine : Engine :=
  {| active_threads := ∅;
     conversation_history := [];
     workers := {| expert_availability := ∅; expert_load := ∅ |} |}.

End Conversation.

(** ** ResilienceManager *)

Module Resilience.

Local Open Scope Z_scope.

(** The three values taken by [breaker["state"]]: ["closed"], ["open"] and
    ["half_open"]. *)
Inductive BreakerState : Type := closed | open | half_open.

(** A [datetime] is counted in microseconds. *)
Record Breaker : Type := {
  failures : nat;
  last_failure : option Z;
  state : BreakerState
}.

Definition fresh_breaker : Breaker :=
  {| failures := 0; last_failure := None; state := closed |}.

(** [(later - earlier).seconds]: the seconds field of the normalised
    [timedelta], between 0 and 86399; whole days and microseconds are held
    in other fields. *)
Definition timedelta_seconds (later earlier : Z) : Z :=
  ((later - earlier) / 1000000) mod 86400.

(** The breaker the two methods work on: the stored one, or the one they
    first store for an unknown worker. *)
Definition breaker_of (circuit_breakers : gmap string Breaker)
  (expert_name : string) : Breaker :=
  match circuit_breakers !! expert_name with
  | Some b => b
  | None => fresh_breaker
  end.

(** [now] is the value of [datetime.now()] during the call. *)
Definition check_circuit_breaker (now : Z) (expert_name : string)
  (circuit_breakers : gmap string Breaker) : gmap string Breaker * bool :=
  let breaker := breaker_of circuit_breakers expert_name in
  match state breaker with
  | open =>
      match last_failure breaker with
      | Some t =>
          if 60 <? timedelta_seconds now t
          then (<[expert_name :=
                    {| failures := failures breaker;
                       last_failure := last_failure breaker;
                       state := half_open |}]> circuit_breakers, true)
          else (<[expert_name := breaker]> circuit_breakers, false)
      | None => (<[expert_name := breaker]> circuit_breakers, false)
      end
  | _ => (<[expert_name := breaker]> circuit_breakers, true)
  end.

Definition record_failure (now : Z) (expert_name : string)
  (circuit_breakers : gmap string Breaker) : gmap string Breaker :=
  let breaker := breaker_of circuit_breakers expert_name in
  let failures' := S (failures breaker) in
  <[expert_name :=
      {| failures := failures';
         last_failure := Some now;
         state := if (3 <=? failures')%nat then open else state breaker |}]>
    circuit_breakers.

(** What happens to the manager: calls of the two methods, each with the
    clock reading it sees. *)
Inductive Event : Type :=
  | Check (expert_name : string) (now : Z)
  | Failure (expert_name : string) (now : Z).

Definition step (circuit_breakers : gmap string Breaker) (ev : Event)
  : gmap string Breaker :=
  match ev with
  | Check expert_name now =>
      fst (check_circuit_breaker now expert_name circuit_breakers)
  | Failure expert_name now =>
      record_failure now expert_name circuit_breakers
  end.

(** The manager after a history of calls, starting from [__init__]. *)
Definition after (history : list Event) : gmap string Breaker :=
  fold_left step history ∅.

(** The number of failures recorded for a worker in a history. *)
Definition recorded_failures (expert_name : string) (history : list Event)
  : nat :=
  List.length
    (List.filter
       (fun ev =>
          match ev with
          | Failure n _ => String.eqb n expert_name
          | Check _ _ => false
          end)
       history).

End Resilience.

(** ** Rate limiter *)

Module RateLimit.

Local Open Scope Z_scope.

(** [rate_limits] maps a client to the timestamps of its accepted requests;
    the [window_start] entry, which is written once and never read, is left
    out.  [now] stands for the readings of [datetime.now()] during one
    call. *)
Definition requests_of (rate_limits : gmap string (list Z))
  (client_id : string) : list Z :=
  match rate_limits !! client_id with
  | Some requests => requests
  | None => []
  end.

Definition check_rate_limit (now : Z) (client_id : string)
  (rate_limits : gmap string (list Z)) : gmap string (list Z) * bool :=
  (* clean old requests (older than 1 minute) *)
  let requests :=
    List.filter
      (fun req_time => Resilience.timedelta_seconds now req_time <? 60)
      (requests_of rate_limits client_id) in
  (* check if under limit (100 requests per minute) *)
  if (100 <=? List.length requests)%nat
  then (<[client_id := requests]> rate_limits, false)
  else (<[client_id := (requests ++ [now])%list]> rate_limits, true).

(** The manager after a series of checks, each a client and a clock
    reading. *)
Definition after_checks (calls : list (string * Z))
  : gmap string (list Z) :=
  fold_left
    (fun rate_limits call =>
       fst (check_rate_limit (snd call) (fst call) rate_limits))
    calls ∅.

(** The answers to successive checks of one client. *)
Fixpoint answers (client_id : string) (times : list Z)
  (rate_limits : gmap string (list Z)) : list bool :=
  match times with
  | [] => []
  | now :: rest =>
      let '(rate_limits', ok) := check_rate_limit now client_id rate_limits in
      ok :: answers client_id rest rate_limits'
  end.

End RateLimit.

(** ** Orchestrator *)

Module Orchestration.

Import Selector.
Local Open Scope Q_scope.

(** The orchestrator's state: the part the selector reads, the task queue,
    the custom workers, and for each session the ["last_expert"] entry of
    its expertise cache. *)
Record Orchestrator : Type := {
  core : MetaOrchestrator;
  task_queue : list Decomposer.TaskDecomposition;
  custom_experts : Library;
  last_expert : gmap string string
}.

Definition with_core (c : MetaOrchestrator) (self : Orchestrator)
  : Orchestrator :=
  {| core := c; task_queue := task_queue self;
     custom_experts := custom_experts self; last_expert := last_expert self |}.

Definition with_sessions (sessions : gmap string ExpertMemory)
  (self : Orchestrator) : Orchestrator :=
  with_core
    {| active_sessions := sessions;
       expert_performance := expert_performance (core self);
       expert_library := expert_library (core self) |} self.

Definition with_performance (perf : gmap string ExpertPerformance)
  (self : Orchestrator) : Orchestrator :=
  with_core
    {| active_sessions := active_sessions (core self);
       expert_performance := perf;
       expert_library := expert_library (core self) |} self.

Definition with_library (library : Library) (self : Orchestrator)
  : Orchestrator :=
  with_core
    {| active_sessions := active_sessions (core self);
       expert_performance := expert_performance (core self);
       expert_library := library |} self.

(** *** Performance records *)

(** The record created for a worker's first task. *)
Definition initial_record : ExpertPerformance :=
  {| response_quality := Float.lit 45 10;
     task_completion_rate := Float.lit 95 1;
     user_satisfaction := Float.lit 44 10;
     collaboration_score := Float.lit 46 10;
     switching_efficiency := Float.lit 90 1;
     total_tasks := 1 |}.

(** The update of an existing record. *)
Definition improve (perf : ExpertPerformance) : ExpertPerformance :=
  {| response_quality :=
       Float.min (Float.lit 5 1)
         (Float.add (response_quality perf) (Float.lit 1 100));
     task_completion_rate := task_completion_rate perf;
     user_satisfaction := user_satisfaction perf;
     collaboration_score := collaboration_score perf;
     switching_efficiency :=
       Float.min (Float.lit 100 1)
         (Float.add (switching_efficiency perf) (Float.lit 5 10));
     total_tasks := S (total_tasks perf) |}.

Definition _update_performance_metrics (experts : list string)
  (performance : gmap string ExpertPerformance)
  : gmap string ExpertPerformance :=
  fold_left
    (fun performance expert =>
       match performance !! expert with
       | None => <[expert := initial_record]> performance
       | Some perf => <[expert := improve perf]> performance
       end)
    experts performance.

(** *** Custom workers *)

Record ExpertConfig : Type := {
  cfg_name : string;
  cfg_skills : list string;
  cfg_tools : list string;
  cfg_personality : string
}.

(** [d[key] = v] on a dictionary kept in insertion order: a known key keeps
    its place, a new one goes to the end. *)
Fixpoint dict_set {V : Type} (key : string) (v : V) (d : list (string * V))
  : list (string * V) :=
  match d with
  | [] => [(key, v)]
  | (k, x) :: rest =>
      if String.eqb k key then (k, v) :: rest
      else (k, x) :: dict_set key v rest
  end.

(** [hex] is [uuid.uuid4().hex[:8]]. *)
Definition create_custom_expert (hex : string) (expert_config : ExpertConfig)
  (self : Orchestrator) : string * Orchestrator :=
  let expert_id := "custom_" ++ hex in
  let custom_expert :=
    {| name := Some (cfg_name expert_config);
       domain := CUSTOM;
       keywords := cfg_skills expert_config;
       capabilities := cfg_tools expert_config;
       performance_baseline := 4.0 |} in
  let self :=
    {| core := core self; task_queue := task_queue self;
       custom_experts := dict_set expert_id custom_expert (custom_experts self);
       last_expert := last_expert self |} in
  (expert_id,
   with_library
     (dict_set expert_id custom_expert (expert_library (core self))) self).

(** *** Answering a request *)

Definition _generate_standard_response (request expert : string) : string :=
  let lowered := Text.lower expert in
  if Text.contains "react" lowered then
    "As a React expert, I'll help you build a robust React solution. Based on your request, I recommend using modern React patterns with hooks and functional components for optimal performance and maintainability."
  else if Text.contains "backend" lowered || Text.contains "architect" lowered
  then
    "As a backend architecture expert, I'll design a scalable and maintainable system. I'll focus on microservices architecture, API design principles, and ensure your system can handle growth efficiently."
  else if Text.contains "database" lowered then
    "As a database expert, I'll optimize your data layer for performance and scalability. I'll focus on proper schema design, indexing strategies, and query optimization."
  else
    "As a " ++ expert
      ++ ", I'll provide expert guidance tailored to your specific needs. I'll ensure the solution follows best practices and industry standards.".

(** [pattern.value]. *)
Definition pattern_value (p : OrchestrationPattern) : string :=
  match p with
  | SEQUENTIAL => "sequential"
  | CONCURRENT => "concurrent"
  | GROUP_CHAT => "group_chat"
  | MAKER_CHECKER => "maker_checker"
  | HANDOFF => "handoff"
  | HIERARCHICAL => "hierarchical"
  end.

(** The dictionary returned by [orchestrate_response]. *)
Record Answer : Type := {
  response : string;
  selected_experts : list string;
  answer_complexity_score : Q;
  answer_pattern : string;
  answer_session_id : string;
  task_decomposition : option Decomposer.TaskDecomposition
}.

Definition new_session : ExpertMemory :=
  {| expertise_cache := empty_context; interaction_count := 0 |}.

(** [session.interaction_count += 1]. *)
Definition count_interaction (s : ExpertMemory) : ExpertMemory :=
  {| expertise_cache := expertise_cache s;
     interaction_count := S (interaction_count s) |}.

(** [xs[-5:]]. *)
Definition last_five {A : Type} (xs : list A) : list A :=
  skipn (List.length xs - 5) xs.

(** The update of ["recent_experts"] at the end of a request. *)
Definition note_recent (selected : list string) (s : ExpertMemory)
  : ExpertMemory :=
  let recent :=
    match recent_experts (expertise_cache s) with
    | Some recent => recent
    | None => []
    end in
  {| expertise_cache :=
       {| preferred_experts := preferred_experts (expertise_cache s);
          recent_experts := Some (last_five (recent ++ firstn 2 selected)) |};
     interaction_count := interaction_count s |}.

(** [selected_experts[0] if selected_experts else "frontend-design"]. *)
Definition primary_expert (selected : list string) : string :=
  match selected with
  | expert :: _ => expert
  | [] => "frontend-design"
  end.

(** The block "decompose task if complex", which the method runs twice. *)
Definition plan_or_select (request sid : string) (score : Q)
  (pattern : OrchestrationPattern) (self : Orchestrator)
  : PyResult (option Decomposer.TaskDecomposition * list string)
    * Orchestrator :=
  if Qlt_bool 1.0 score then
    match Decomposer.decompose_task (expert_library (core self)) request
            pattern with
    | Ok td =>
        (Ok (Some td, Decomposer.required_experts td),
         {| core := core self;
            task_queue := (task_queue self ++ [td])%list;
            custom_experts := custom_experts self;
            last_expert := last_expert self |})
    | Raise e => (Raise e, self)
    end
  else
    match select_experts (core self) request (Some sid) with
    | Ok selected => (Ok (None, selected), self)
    | Raise e => (Raise e, self)
    end.

Section OrchestrateResponse.

(** The text of the verbose report, built from the state and the values
    computed for the request; no state depends on it. *)
Variable _generate_verbose_response :
  Orchestrator -> string -> list string -> Q -> OrchestrationPattern ->
  string -> option Decomposer.TaskDecomposition -> string.

(** [fresh_id] is the value of [uuid.uuid4()] used when no session id is
    given. *)
Definition orchestrate_response (fresh_id request : string) (verbose : bool)
  (session_id : option string) (self : Orchestrator)
  : PyResult Answer * Orchestrator :=
  (* create or update session *)
  let sid :=
    match session_id with
    | Some s => if String.eqb s "" then fresh_id else s
    | None => fresh_id
    end in
  let sessions := active_sessions (core self) in
  let sessions :=
    match sessions !! sid with
    | Some _ => sessions
    | None => <[sid := new_session]> sessions
    end in
  let self := with_sessions (alter count_interaction sid sessions) self in
  (* analyze request complexity *)
  let '(score, pattern) := Complexity.analyze_complexity request in
  (* decompose task if complex *)
  match plan_or_select request sid score pattern self with
  | (Raise e, self) => (Raise e, self)
  | (Ok _, self) =>
      (* decompose task if complex, a second time *)
      match plan_or_select request sid score pattern self with
      | (Raise e, self) => (Raise e, self)
      | (Ok (task_decomposition, selected), self) =>
          (* generate response *)
          let response :=
            if verbose
            then _generate_verbose_response self request selected score
                   pattern sid task_decomposition
            else _generate_standard_response request
                   (primary_expert selected) in
          (* update performance metrics *)
          let self :=
            with_performance
              (_update_performance_metrics selected
                 (expert_performance (core self))) self in
          (* update session context *)
          let self :=
            {| core := core self; task_queue := task_queue self;
               custom_experts := custom_experts self;
               last_expert :=
                 <[sid := primary_expert selected]> (last_expert self) |} in
          let self :=
            with_sessions
              (alter (note_recent selected) sid (active_sessions (core self)))
              self in
          (Ok {| response := response;
                 selected_experts := selected;
                 answer_complexity_score := score;
                 answer_pattern := pattern_value pattern;
                 answer_session_id := sid;
                 task_decomposition :=
                   if Qlt_bool 1.0 score then task_decomposition else None |},
           self)
      end
  end.

End OrchestrateResponse.

(** The orchestrator after [__init__]. *)
Definition new_orchestrator : Orchestrator :=
  {| core :=
       {| active_sessions := ∅; expert_performance := ∅;
          expert_library := _load_expert_library |};
     task_queue := [];
     custom_experts := [];
     last_expert := ∅ |}.

End Orchestration.

(** ** The sequential chain and the group debate *)

Module Strategies.

Import Conversation.
Local Open Scope Q_scope.

(** The response templates never read the context dictionary they are
    given; [unread_context] stands for it. *)
Definition unread_context (thread_topic : string) : Context :=
  {| topic := thread_topic; ctx_iteration := 0; previous_feedback := [];
     solution_to_review := None |}.

(** [self.expert_availability] is a [defaultdict(lambda: True)]: reading a
    missing key stores [True] under it. *)
Definition is_free (w : Workers) (expert_name : string) : bool :=
  match expert_availability w !! expert_name with
  | Some b => b
  | None => true
  end.

Definition touch_availability (expert_name : string) (w : Workers)
  : Workers :=
  match expert_availability w !! expert_name with
  | Some _ => w
  | None =>
      {| expert_availability := <[expert_name := true]> (expert_availability w);
         expert_load := expert_load w |}
  end.

(** [self.expert_load] is a [defaultdict(int)]. *)
Definition load_of (w : Workers) (expert_name : string) : Z :=
  match expert_load w !! expert_name with
  | Some n => n
  | None => 0%Z
  end.

(** [self.expert_availability[e] = b; self.expert_load[e] += d]. *)
Definition mark (expert_name : string) (b : bool) (d : Z) (w : Workers)
  : Workers :=
  {| expert_availability := <[expert_name := b]> (expert_availability w);
     expert_load :=
       <[expert_name := (load_of w expert_name + d)%Z]> (expert_load w) |}.

Definition message_of (r : Response) : ConversationMessage :=
  {| msg_expert_name := expert r; msg_content := content r;
     msg_confidence := confidence_of r |}.

(** [sep.join(parts)]. *)
Fixpoint join (sep : string) (parts : list string) : string :=
  match parts with
  | [] => ""
  | [part] => part
  | part :: rest => part ++ sep ++ join sep rest
  end.

Definition newline : string := String (ascii_of_nat 10) "".

(** [len(set(xs))]. *)
Definition count_distinct (xs : list string) : nat :=
  List.length (nodup string_dec xs).

Definition _calculate_quality_metrics (responses : list Response)
  : list (string * Q) :=
  match responses with
  | [] => []
  | _ =>
      let confidences := map confidence_of responses in
      let response_lengths :=
        map (fun r => inject_Z (Z.of_nat (String.length (content r))))
          responses in
      [ ("average_confidence", Qsum confidences / Qlen confidences);
        ("response_diversity",
         inject_Z (Z.of_nat (count_distinct (map expert responses))));
        ("completeness_score", Qmin (Qsum response_lengths / 1000.0) 1.0);
        ("expert_satisfaction", 4.2) ]
  end.

Definition labelled (r : Response) : string :=
  "**" ++ expert r ++ "**: " ++ content r.

Definition integration_footer : string :=
  newline ++ "---" ++ newline
    ++ "**Integrated Solution**: This comprehensive solution combines the expertise of multiple specialists to address your request thoroughly.".

Definition _synthesize_sequential_responses (responses : list Response)
  : string :=
  match responses with
  | [] => "No expert responses available."
  | _ =>
      let synthesis_parts :=
        app (map labelled responses) [integration_footer] in
      join (newline ++ newline) synthesis_parts
  end.

Section WithDraws.

(** The successive values returned by [random.uniform]. *)
Variable draws : nat -> Q.

(** *** Sequential chain *)

(** [_modify_response_based_on_context] for a worker at index [i] of the
    chain that has earlier responses before it. *)
Definition chain_content (thread_topic expert_name : string) (i : nat)
  (expert_responses : list Response) : string :=
  let base_response :=
    _generate_expert_specific_response expert_name thread_topic
      (unread_context thread_topic) in
  match rev expert_responses with
  | [] => base_response
  | previous :: _ =>
      "Building upon the work from " ++ expert previous ++ ", "
        ++ "In my role at position " ++ Text.str_of_nat (i + 1) ++ ", "
        ++ base_response
  end.

(** The state carried through the chain: the responses so far, the
    thread's messages, the bookkeeping. *)
Record Chain : Type := {
  chain_responses : list Response;
  chain_messages : list ConversationMessage;
  chain_workers : Workers
}.

(** One pass of the loop, for the participant at index [i]. *)
Definition chain_step (thread_topic : string) (i : nat)
  (expert_name : string) (st : Chain) : Chain :=
  let w := touch_availability expert_name (chain_workers st) in
  if negb (is_free w expert_name) then
    {| chain_responses := chain_responses st;
       chain_messages := chain_messages st; chain_workers := w |}
  else
    (* mark expert as busy *)
    let w := mark expert_name false 1 w in
    let response :=
      {| expert := expert_name;
         content :=
           chain_content thread_topic expert_name i (chain_responses st);
         confidence := Some (draws (List.length (chain_responses st))) |} in
    (* finally: mark expert as available *)
    let w := mark expert_name true (-1) w in
    {| chain_responses := (chain_responses st ++ [response])%list;
       chain_messages := (chain_messages st ++ [message_of response])%list;
       chain_workers := w |}.

(** [for i, expert_name in enumerate(thread.participants)], started at
    index [i]. *)
Fixpoint chain_loop (thread_topic : string) (i : nat)
  (participants : list string) (st : Chain) : Chain :=
  match participants with
  | [] => st
  | expert_name :: rest =>
      chain_loop thread_topic (S i) rest
        (chain_step thread_topic i expert_name st)
  end.

Definition _sequential_chain_conversation (duration : Q) : Strategy :=
  fun thread workers =>
    let st :=
      chain_loop (thread_topic thread) 0 (participants thread)
        {| chain_responses := []; chain_messages := messages thread;
           chain_workers := workers |} in
    let expert_responses := chain_responses st in
    (Ok {| thread_id := id thread;
           final_response := _synthesize_sequential_responses expert_responses;
           participating_experts := participants thread;
           consensus_level := _calculate_consensus_level expert_responses;
           conversation_duration := duration;
           message_count := List.length (chain_messages st);
           success := true;
           quality_metrics := _calculate_quality_metrics expert_responses |},
     (chain_messages st, chain_workers st)).

(** *** Group debate *)

(** The state carried through the debate: the number of draws made, the
    bookkeeping, the discussion. *)
Record Debate : Type := {
  drawn : nat;
  debate_workers : Workers;
  discussion : list ConversationMessage
}.

(** "Each participant contributes": the inner loop of one round; it
    returns the responses of the round. *)
Fixpoint contributions (thread_topic : string) (contributors : list string)
  (st : Debate) (round_messages : list Response) : Debate * list Response :=
  match contributors with
  | [] => (st, round_messages)
  | participant :: rest =>
      let w := touch_availability participant (debate_workers st) in
      if negb (is_free w participant) then
        contributions thread_topic rest
          {| drawn := drawn st; debate_workers := w;
             discussion := discussion st |} round_messages
      else
        let response :=
          _generate_expert_response (draws (drawn st)) participant
            thread_topic (unread_context thread_topic) in
        contributions thread_topic rest
          {| drawn := S (drawn st); debate_workers := w;
             discussion := (discussion st ++ [message_of response])%list |}
          (round_messages ++ [response])%list
  end.

Definition consensus_threshold : Q := 0.7.

(** [for round_num in range(max_rounds)], with [remaining] rounds left; the
    boolean is [consensus_reached]. *)
Fixpoint debate_rounds (thread_topic : string) (contributors : list string)
  (remaining : nat) (st : Debate) : Debate * bool :=
  match remaining with
  | O => (st, false)
  | S remaining' =>
      let '(st, round_messages) :=
        contributions thread_topic contributors st [] in
      if (2 <=? List.length round_messages)%nat
         && Qle_bool consensus_threshold
              (_calculate_consensus_level round_messages)
      then (st, true)
      else debate_rounds thread_topic contributors remaining' st
  end.

(** [_calculate_consensus_level] handed message objects instead of
    response dictionaries: with two or more of them it calls [r.get] on a
    [ConversationMessage], which has no such attribute. *)
Definition consensus_of_messages (ms : list ConversationMessage)
  : PyResult Q :=
  if (List.length ms <? 2)%nat then Ok 1.0
  else
    Raise (AttributeError "'ConversationMessage' object has no attribute 'get'").

Definition _group_chat_debate_conversation (duration : Q) : Strategy :=
  fun thread workers =>
    let facilitator :=
      match participants thread with
      | first :: _ => first
      | [] => "backend-architect"
      end in
    let contributors :=
      if (1 <? List.length (participants thread))%nat
      then tl (participants thread) else [] in
    let initial_message :=
      {| msg_expert_name := facilitator;
         msg_content :=
           "Let's discuss: " ++ thread_topic thread
             ++ ". Please share your perspectives on this request.";
         msg_confidence := 1.0 |} in
    let '(st, consensus_reached) :=
      debate_rounds (thread_topic thread) contributors 3
        {| drawn := 0; debate_workers := workers;
           discussion := [initial_message] |} in
    (* facilitator summarizes *)
    let summary_response :=
      _generate_expert_response (draws (drawn st)) facilitator
        ("Please summarize the discussion and provide final recommendation for: "
           ++ thread_topic thread)
        (unread_context (thread_topic thread)) in
    let outcome :=
      do consensus <-
        consensus_of_messages
          (List.filter
             (fun m => negb (String.eqb (msg_expert_name m) facilitator))
             (discussion st)) ;;
      Ok {| thread_id := id thread;
            final_response := content summary_response;
            participating_experts := participants thread;
            consensus_level := consensus;
            conversation_duration := duration;
            message_count := List.length (discussion st);
            success := true;
            quality_metrics :=
              _calculate_quality_metrics
                (map (fun m =>
                        {| expert := msg_expert_name m;
                           content := msg_content m;
                           confidence := Some (msg_confidence m) |})
                   (discussion st)) |} in
    (outcome, (messages thread, debate_workers st)).

End WithDraws.

End Strategies.

(** * Properties *)

(** ** Rational arithmetic used throughout *)

Module QFacts.

Local Open Scope Q_scope.

Lemma Qle_bool_false (a b : Q) : Qle_bool a b = false -> b < a.
Proof.
  intros H. apply Qnot_le_lt. intros Hle.
  apply Qle_bool_iff in Hle. congruence.
Qed.

Lemma inject_nat_nonneg (n : nat) : 0 <= inject_Z (Z.of_nat n).
Proof.
  change 0 with (inject_Z 0). rewrite <- Zle_Qle. lia.
Qed.

Lemma inject_nat_le (m n : nat) :
  (m <= n)%nat -> inject_Z (Z.of_nat m) <= inject_Z (Z.of_nat n).
Proof. intros H. rewrite <- Zle_Qle. lia. Qed.

Lemma inject_nat_pos (n : nat) : (0 < n)%nat -> 0 < inject_Z (Z.of_nat n).
Proof.
  intros H. change 0 with (inject_Z 0). rewrite <- Zlt_Qlt. lia.
Qed.

(** A ratio [m / n] of counts with [m <= n] lies between 0 and 1. *)
Lemma ratio_bounds (m n : nat) :
  (m <= n)%nat -> (0 < n)%nat ->
  0 <= inject_Z (Z.of_nat m) / inject_Z (Z.of_nat n) <= 1.
Proof.
  intros Hmn Hn.
  pose proof (inject_nat_pos n Hn) as Hpos.
  pose proof (inject_nat_nonneg m) as Hm.
  pose proof (inject_nat_le m n Hmn) as Hle.
  split.
  - apply Qle_shift_div_l; [exact Hpos | lra].
  - apply Qle_shift_div_r; [exact Hpos | lra].
Qed.

End QFacts.

(** ** Floating-point arithmetic used by the selector *)

Module FloatFacts.

Import Float.
Local Open Scope Z_scope.

Definition is_nan (x : float) : bool :=
  match x with
  | S754_nan => true
  | _ => false
  end.

(** [+0.0], a positive number or [+inf]. *)
Definition plus (x : float) : bool :=
  match x with
  | S754_zero false | S754_finite false _ _ | S754_infinity false => true
  | _ => false
  end.

(** A positive number. *)
Definition positive_number (x : float) : bool :=
  match x with
  | S754_finite false _ _ => true
  | _ => false
  end.

(** A zero or a number: neither an infinity nor NaN. *)
Definition number (x : float) : bool :=
  match x with
  | S754_zero _ | S754_finite _ _ _ => true
  | _ => false
  end.

Definition flt (a b : float) : Prop := ltb a b = true.
Definition fle (a b : float) : Prop := leb a b = true.
Definition feq (a b : float) : Prop := eqb a b = true.

Lemma number_not_nan (x : float) : number x = true -> is_nan x = false.
Proof. now destruct x. Qed.

Lemma plus_not_nan (x : float) : plus x = true -> is_nan x = false.
Proof. now destruct x. Qed.

(** *** Signs of results *)

Lemma shr_1_nonneg (mrs : shr_record) :
  0 <= shr_m mrs -> 0 <= shr_m (shr_1 mrs).
Proof.
  destruct mrs as [m r s]. simpl.
  destruct m as [ | [p | p | ] | [p | p | ]]; simpl; lia.
Qed.

Lemma iter_pos_invariant {A : Type} (f : A -> A) (P : A -> Prop) :
  (forall a, P a -> P (f a)) ->
  forall (p : positive) (a : A), P a -> P (SpecFloat.iter_pos f p a).
Proof.
  intros Hf. induction p as [p IH | p IH | ]; intros a Ha; simpl; auto.
Qed.

Lemma shr_fexp_nonneg (m e : Z) (l : location) :
  0 <= m -> 0 <= shr_m (fst (shr_fexp prec emax m e l)).
Proof.
  intros Hm. unfold shr_fexp, shr.
  assert (H0 : 0 <= shr_m (shr_record_of_loc m l)).
  { destruct l as [ | [ | | ]]; exact Hm. }
  destruct (fexp prec emax (Zdigits2 m + e) - e) as [ | p | p]; simpl;
    try exact H0.
  now apply (iter_pos_invariant shr_1 (fun mrs => 0 <= shr_m mrs) shr_1_nonneg).
Qed.

Lemma round_nearest_even_nonneg (m : Z) (l : location) :
  0 <= m -> 0 <= round_nearest_even m l.
Proof.
  intros Hm. destruct l as [ | [ | | ]]; simpl; try lia.
  destruct (Z.even m); lia.
Qed.

(** Rounding a non-negative magnitude gives a zero, a number or an
    infinity of the given sign, never NaN. *)
Lemma binary_round_aux_sign (sx : bool) (mx ex : Z) (lx : location) :
  0 <= mx ->
  let r := binary_round_aux prec emax sx mx ex lx in
  r = S754_zero sx \/ (exists m e, r = S754_finite sx m e)
  \/ r = S754_infinity sx.
Proof.
  intros Hm. cbv zeta. unfold binary_round_aux.
  pose proof (shr_fexp_nonneg mx ex lx Hm) as H1.
  destruct (shr_fexp prec emax mx ex lx) as [mrs' e']. simpl in H1.
  pose proof (round_nearest_even_nonneg (shr_m mrs') (loc_of_shr_record mrs')
                H1) as H2.
  pose proof (shr_fexp_nonneg _ e' loc_Exact H2) as H3.
  destruct (shr_fexp prec emax _ e' loc_Exact) as [mrs'' e'']. simpl in H3.
  destruct (shr_m mrs'') as [ | m | m]; [now left | | lia].
  destruct (e'' <=? emax - prec); [right; left; eauto | now right; right].
Qed.

Lemma binary_round_aux_plus (mx ex : Z) (lx : location) :
  0 <= mx -> plus (binary_round_aux prec emax false mx ex lx) = true.
Proof.
  intros Hm.
  destruct (binary_round_aux_sign false mx ex lx Hm)
    as [-> | [(m & e & ->) | ->]]; reflexivity.
Qed.

Lemma binary_round_aux_not_nan (sx : bool) (mx ex : Z) (lx : location) :
  0 <= mx -> is_nan (binary_round_aux prec emax sx mx ex lx) = false.
Proof.
  intros Hm.
  destruct (binary_round_aux_sign sx mx ex lx Hm)
    as [-> | [(m & e & ->) | ->]]; reflexivity.
Qed.

(** The quotient of a count by a positive count. *)
Lemma div_of_nat_plus (m n : nat) :
  (0 < n)%nat -> plus (div (of_nat m) (of_nat n)) = true.
Proof.
  intros Hn. destruct n as [ | n]; [lia | ].
  destruct m as [ | m]; [reflexivity | ].
  unfold div, of_nat, SFdiv.
  set (a := Pos.of_nat (S m)). set (b := Pos.of_nat (S n)).
  unfold SFdiv_core_binary.
  set (m' := match _ - _ - _ with Z0 => _ | Zpos _ => _ | Zneg _ => _ end).
  assert (Hm' : 0 <= m').
  { subst m'. destruct (_ - _ - _); try lia. apply Z.shiftl_nonneg. lia. }
  pose proof (Z.div_pos m' (Zpos b) Hm' ltac:(lia)) as Hq.
  unfold Z.div in Hq.
  destruct (Z.div_eucl m' (Zpos b)) as [q r]. simpl in Hq.
  now apply binary_round_aux_plus.
Qed.

Lemma mul_plus (a b : float) :
  plus a = true -> positive_number b = true -> plus (mul a b) = true.
Proof.
  destruct a as [[ | ] | [ | ] | | [ | ] ma ea]; try discriminate; intros _;
  destruct b as [[ | ] | [ | ] | | [ | ] mb eb]; try discriminate; intros _;
    try reflexivity.
  unfold mul, SFmul. now apply binary_round_aux_plus.
Qed.

Lemma add_plus (a b : float) :
  plus a = true -> plus b = true -> plus (add a b) = true.
Proof.
  destruct a as [[ | ] | [ | ] | | [ | ] ma ea]; try discriminate; intros _;
  destruct b as [[ | ] | [ | ] | | [ | ] mb eb]; try discriminate; intros _;
    try reflexivity.
  unfold add, SFadd, binary_normalize. simpl cond_Zopp.
  set (x := fst (shl_align ma ea (Z.min ea eb))).
  set (y := fst (shl_align mb eb (Z.min ea eb))).
  change (Zpos x + Zpos y) with (Zpos (x + y)).
  unfold binary_round.
  destruct (shl_align (x + y) _ _) as [mz ez].
  now apply binary_round_aux_plus.
Qed.

(** Adding [+0.0] changes nothing. *)
Lemma add_zero_r (a : float) : plus a = true -> add a zero = a.
Proof.
  destruct a as [[ | ] | [ | ] | | [ | ] ma ea]; try discriminate; reflexivity.
Qed.

(** The product of two numbers is not NaN. *)
Lemma mul_not_nan (a b : float) :
  number a = true -> number b = true -> is_nan (mul a b) = false.
Proof.
  destruct a as [sa | sa | | sa ma ea]; try discriminate; intros _;
  destruct b as [sb | sb | | sb mb eb]; try discriminate; intros _;
    try reflexivity.
  unfold mul, SFmul. now apply binary_round_aux_not_nan.
Qed.

(** *** The order of the comparisons *)

(** A key whose lexicographic order is the order of the comparisons on
    everything but NaN. *)
Definition key (x : float) : Z * Z * Z :=
  match x with
  | S754_infinity true => (-2, 0, 0)
  | S754_finite true m e => (-1, - e, Zneg m)
  | S754_zero _ | S754_nan => (0, 0, 0)
  | S754_finite false m e => (1, e, Zpos m)
  | S754_infinity false => (2, 0, 0)
  end.

Definition lex_lt (a b : Z * Z * Z) : Prop :=
  fst (fst a) < fst (fst b)
  \/ (fst (fst a) = fst (fst b)
      /\ (snd (fst a) < snd (fst b)
          \/ (snd (fst a) = snd (fst b) /\ snd a < snd b))).

Local Ltac order_cases :=
  unfold ltb, leb, eqb, SFltb, SFleb, SFeqb, SFcompare, lex_lt; simpl;
  repeat match goal with
         | |- context [Z.compare ?a ?b] => destruct (Z.compare_spec a b)
         | |- context [Pos.compare_cont Eq ?a ?b] =>
             change (Pos.compare_cont Eq a b) with (Pos.compare a b);
             destruct (Pos.compare_spec a b)
         end;
  simpl; split; intros; subst;
  try reflexivity; try discriminate; try congruence; try lia.

Lemma ltb_key (x y : float) :
  is_nan x = false -> is_nan y = false ->
  ltb x y = true <-> lex_lt (key x) (key y).
Proof.
  destruct x as [[ | ] | [ | ] | | [ | ] mx ex]; try discriminate; intros _;
  destruct y as [[ | ] | [ | ] | | [ | ] my ey]; try discriminate; intros _;
    order_cases.
Qed.

Lemma leb_key (x y : float) :
  is_nan x = false -> is_nan y = false ->
  leb x y = true <-> ~ lex_lt (key y) (key x).
Proof.
  destruct x as [[ | ] | [ | ] | | [ | ] mx ex]; try discriminate; intros _;
  destruct y as [[ | ] | [ | ] | | [ | ] my ey]; try discriminate; intros _;
    order_cases.
Qed.

Lemma eqb_key (x y : float) :
  is_nan x = false -> is_nan y = false ->
  eqb x y = true <-> key x = key y.
Proof.
  destruct x as [[ | ] | [ | ] | | [ | ] mx ex]; try discriminate; intros _;
  destruct y as [[ | ] | [ | ] | | [ | ] my ey]; try discriminate; intros _;
    order_cases;
    match goal with
    | H : (_, _, _) = (_, _, _) |- _ => injection H; intros; exfalso; lia
    end.
Qed.

Lemma ltb_false_fle (x y : float) :
  is_nan x = false -> is_nan y = false -> ltb x y = false -> fle y x.
Proof.
  intros Hx Hy H. apply leb_key; [assumption .. | ].
  intros Hlt. apply (ltb_key x y Hx Hy) in Hlt. congruence.
Qed.

Lemma flt_fle (x y : float) :
  is_nan x = false -> is_nan y = false -> flt x y -> fle x y.
Proof.
  intros Hx Hy H. apply (ltb_key x y Hx Hy) in H.
  apply leb_key; [assumption .. | ]. unfold lex_lt in *. lia.
Qed.

Lemma feq_fle (x y : float) :
  is_nan x = false -> is_nan y = false -> feq x y -> fle x y.
Proof.
  intros Hx Hy H. apply (eqb_key x y Hx Hy) in H.
  apply leb_key; [assumption .. | ]. rewrite H. unfold lex_lt. lia.
Qed.

Lemma feq_sym (x y : float) :
  is_nan x = false -> is_nan y = false -> feq x y -> feq y x.
Proof.
  intros Hx Hy H. apply (eqb_key x y Hx Hy) in H.
  now apply eqb_key.
Qed.

Lemma fle_refl (x : float) : is_nan x = false -> fle x x.
Proof.
  intros Hx. apply leb_key; [assumption .. | ]. unfold lex_lt. lia.
Qed.

Lemma fle_trans (x y z : float) :
  is_nan x = false -> is_nan y = false -> is_nan z = false ->
  fle x y -> fle y z -> fle x z.
Proof.
  intros Hx Hy Hz H1 H2.
  apply (leb_key x y Hx Hy) in H1. apply (leb_key y z Hy Hz) in H2.
  apply leb_key; [assumption .. | ]. unfold lex_lt in *. lia.
Qed.

Lemma fle_antisym (x y : float) :
  is_nan x = false -> is_nan y = false -> fle x y -> fle y x -> feq x y.
Proof.
  intros Hx Hy H1 H2.
  apply (leb_key x y Hx Hy) in H1. apply (leb_key y x Hy Hx) in H2.
  apply eqb_key; [assumption .. | ]. unfold lex_lt in *.
  destruct (key x) as [[a b] c], (key y) as [[a' b'] c']. simpl in *.
  f_equal; [f_equal | ]; lia.
Qed.

(** [min(a, 1.0)] of a non-negative [a] lies between 0 and 1. *)
Lemma min_one (a : float) :
  plus a = true ->
  fle zero (min a one) /\ fle (min a one) one
  /\ plus (min a one) = true /\ number (min a one) = true.
Proof.
  intros Ha. unfold min. destruct (ltb one a) eqn:E.
  - repeat split; reflexivity.
  - pose proof (ltb_false_fle one a eq_refl (plus_not_nan a Ha) E) as Hle.
    destruct a as [[ | ] | [ | ] | | [ | ] ma ea]; try discriminate;
      repeat split; try exact Hle; reflexivity.
Qed.

(** The literals are the binary64 numbers Python reads. *)
Example literals :
  lit 4 10 = S754_finite false 7205759403792794 (-54)
  /\ lit 3 10 = S754_finite false 5404319552844595 (-54)
  /\ lit 2 10 = S754_finite false 7205759403792794 (-55)
  /\ lit 1 10 = S754_finite false 7205759403792794 (-56)
  /\ lit 1 100 = S754_finite false 5764607523034235 (-59)
  /\ one = S754_finite false 4503599627370496 (-52).
Proof. repeat split; vm_compute; reflexivity. Qed.

(** [0.75 * 0.4] is [0.30000000000000004], above [0.3]; and
    [0.4 + 0.3 + 0.2 + 0.1] is [0.9999999999999999], below [1.0]. *)
Example rounding :
  mul (div (of_nat 3) (of_nat 4)) (lit 4 10)
  = S754_finite false 5404319552844596 (-54)
  /\ ltb (lit 3 10) (mul (div (of_nat 3) (of_nat 4)) (lit 4 10)) = true
  /\ add (add (add (lit 4 10) (lit 3 10)) (lit 2 10)) (lit 1 10)
     = S754_finite false 9007199254740991 (-53).
Proof. repeat split; vm_compute; reflexivity. Qed.

End FloatFacts.

(** ** Lists *)

Module ListFacts.

Lemma nth_error_lt {A : Type} (l : list A) (k : nat) (x : A) :
  nth_error l k = Some x -> (k < List.length l)%nat.
Proof. intros H. apply nth_error_Some. congruence. Qed.

Lemma firstn_app_length {A : Type} (l l' : list A) :
  firstn (List.length l) (l ++ l') = l.
Proof.
  rewrite firstn_app, Nat.sub_diag, firstn_all. simpl. apply app_nil_r.
Qed.

Lemma firstn_In {A : Type} (n : nat) (l : list A) (x : A) :
  In x (firstn n l) -> In x l.
Proof.
  intros H. rewrite <- (firstn_skipn n l). apply in_or_app. now left.
Qed.

Lemma firstn_seq_le (k start len : nat) :
  (k <= len)%nat -> firstn k (seq start len) = seq start k.
Proof.
  revert start len. induction k as [ | k IH]; intros start len H.
  - reflexivity.
  - destruct len as [ | len]; [lia | ]. simpl. f_equal. apply IH. lia.
Qed.

End ListFacts.

(** ** ComplexityClassifier *)

Module ComplexityProofs.

Import Complexity QFacts.
Local Open Scope Q_scope.

Lemma score_of_nonneg (i : Indicators) : 0 <= score_of i.
Proof.
  unfold score_of.
  pose proof (inject_nat_nonneg (indicator_sum i)) as H.
  apply Qle_shift_div_l; lra.
Qed.

Lemma score_of_monotone_in_sum (i j : Indicators) :
  (indicator_sum i <= indicator_sum j)%nat -> score_of i <= score_of j.
Proof.
  intros H. unfold score_of.
  pose proof (inject_nat_le _ _ H) as Hle.
  unfold Qdiv. apply Qmult_le_compat_r; [exact Hle | ].
  apply Qinv_le_0_compat. lra.
Qed.

(** C1.  For every request, [analyze_complexity] returns the score, which
    is the sum of the four regular-expression counts over the lowered text
    divided by 4, together with the pattern fixed by the thresholds:
    hierarchical from 3.0 on, concurrent in [2.0, 3.0), sequential in
    [1.0, 2.0), handoff below 1.0.  The method reads nothing but its
    argument and writes nothing: it is embedded as a function of the
    request alone. *)
Theorem analyze_complexity_thresholds (request : string) :
  let text := Text.lower request in
  let score := fst (analyze_complexity request) in
  let pattern := snd (analyze_complexity request) in
  score =
    inject_Z
      (Z.of_nat
         (Text.findall_count multi_domain_words text
          + Text.findall_count technical_terms_words text
          + Text.findall_count action_verbs_words text
          + Text.findall_count scope_indicators_words text)) / 4
  /\ (3 <= score -> pattern = HIERARCHICAL)
  /\ (2 <= score /\ score < 3 -> pattern = CONCURRENT)
  /\ (1 <= score /\ score < 2 -> pattern = SEQUENTIAL)
  /\ (score < 1 -> pattern = HANDOFF).
Proof.
  cbv zeta. unfold analyze_complexity.
  set (s := complexity_score request).
  split.
  - destruct (Qle_bool 3 s), (Qle_bool 2 s), (Qle_bool 1 s); reflexivity.
  - destruct (Qle_bool 3 s) eqn:H3.
    { apply Qle_bool_iff in H3. simpl.
      repeat split; intros; try reflexivity; exfalso; lra. }
    apply Qle_bool_false in H3.
    destruct (Qle_bool 2 s) eqn:H2.
    { apply Qle_bool_iff in H2. simpl.
      repeat split; intros; try reflexivity; exfalso; lra. }
    apply Qle_bool_false in H2.
    destruct (Qle_bool 1 s) eqn:H1.
    { apply Qle_bool_iff in H1. simpl.
      repeat split; intros; try reflexivity; exfalso; lra. }
    apply Qle_bool_false in H1. simpl.
    repeat split; intros; try reflexivity; exfalso; lra.
Qed.

(** The word boundaries at work: ["tests"] and ["test_"] are not matches of
    [test], ["-test-"] is one. *)
Example findall_count_boundaries :
  Text.findall_count multi_domain_words "test tests test_ -test- react,python"
  = 4%nat.
Proof. reflexivity. Qed.

Example analyze_complexity_dashboard :
  analyze_complexity
    "Build a React dashboard with a Python backend, a Postgres database, and deploy via Docker"
  = (8 # 4, CONCURRENT).
Proof. reflexivity. Qed.

Example analyze_complexity_no_match :
  analyze_complexity "hello there" = (0 # 4, HANDOFF).
Proof. reflexivity. Qed.

(** A request that names fourteen listed words. *)
Definition fourteen_matches : string :=
  "react python database docker test api frontend backend deploy build create implement design".

(** C4, as stated, fails: nothing caps the score at 3.  On
    [fourteen_matches] the counters are 5, 5, 4 and 0 and the score is
    14/4 = 3.5. *)
Lemma complexity_score_above_three :
  complexity_score fourteen_matches == 35 # 10
  /\ ~ (0 <= complexity_score fourteen_matches
        /\ complexity_score fourteen_matches <= 3).
Proof.
  assert (E : complexity_score fourteen_matches = 14 # 4)
    by (vm_compute; reflexivity).
  rewrite E. split.
  - reflexivity.
  - intros [_ H]. revert H. apply Qlt_not_le. reflexivity.
Qed.

(** The word ["api"] written [n] times. *)
Fixpoint many_apis (n : nat) : string :=
  match n with
  | O => ""
  | S k =>
      String "a" (String "p" (String "i" (String " " (many_apis k))))
  end.

Lemma lower_many_apis (n : nat) : Text.lower (many_apis n) = many_apis n.
Proof.
  induction n as [ | n IH]; [reflexivity | ].
  cbn [many_apis Text.lower]. rewrite IH. reflexivity.
Qed.

(** At the start of the text or after a blank, each ["api "] is one match
    of the technical terms and no match of the other lists. *)
Lemma technical_terms_in_many_apis (n : nat) (prev : option ascii) :
  prev = None \/ prev = Some " "%char ->
  Text.count_from technical_terms_words prev 0 (many_apis n) = n.
Proof.
  revert prev. induction n as [ | n IH]; intros prev Hprev; [reflexivity | ].
  destruct Hprev as [-> | ->]; simpl; f_equal; apply IH; now right.
Qed.

Lemma other_words_in_many_apis (words : list string) (n : nat)
  (prev : option ascii) :
  words = multi_domain_words \/ words = action_verbs_words
  \/ words = scope_indicators_words ->
  prev = None \/ prev = Some " "%char ->
  Text.count_from words prev 0 (many_apis n) = 0%nat.
Proof.
  intros Hwords. revert prev.
  induction n as [ | n IH]; intros prev Hprev; [reflexivity | ].
  destruct Hwords as [-> | [-> | ->]], Hprev as [-> | ->]; simpl;
    apply IH; now right.
Qed.

Lemma complexity_indicators_many_apis (n : nat) :
  complexity_indicators (many_apis n)
  = {| multi_domain := 0; technical_terms := n; action_verbs := 0;
       scope_indicators := 0 |}.
Proof.
  unfold complexity_indicators, Text.findall_count.
  rewrite lower_many_apis.
  rewrite technical_terms_in_many_apis by now left.
  rewrite !other_words_in_many_apis by (auto 6).
  reflexivity.
Qed.

(** ["api"] written [4 * n] times scores [n]. *)
Lemma complexity_score_many_apis (n : nat) :
  complexity_score (many_apis (4 * n)) == inject_Z (Z.of_nat n).
Proof.
  unfold complexity_score, score_of.
  rewrite complexity_indicators_many_apis.
  unfold indicator_sum.
  cbn [multi_domain technical_terms action_verbs scope_indicators].
  replace (Z.of_nat (0 + 4 * n + 0 + 0)) with (Z.of_nat n * 4)%Z by lia.
  rewrite inject_Z_mult. field.
Qed.

Lemma complexity_score_unbounded (bound : Q) :
  exists request : string, bound < complexity_score request.
Proof.
  set (z := (Z.max 0 (Qfloor bound) + 1)%Z).
  exists (many_apis (4 * Z.to_nat z)).
  rewrite complexity_score_many_apis.
  apply Qlt_le_trans with (inject_Z (Qfloor bound + 1)).
  - apply Qlt_floor.
  - rewrite <- Zle_Qle. subst z. lia.
Qed.

(** C4, amended.  For every request the score that [analyze_complexity]
    returns is at least 0 and is the sum of the four counts divided by 4;
    it has no upper bound: every bound is exceeded by the score of some
    request; and the score does not decrease when the counts grow:
    whenever each of the four counts of [i] is at most the corresponding
    count of [j], the score of [i] is at most the score of [j]. *)
Theorem complexity_score_nonneg_monotone :
  (forall request : string,
     fst (analyze_complexity request) = complexity_score request
     /\ 0 <= complexity_score request
     /\ complexity_score request
        = inject_Z (Z.of_nat (indicator_sum (complexity_indicators request)))
          / 4)
  /\ (forall bound : Q,
        exists request : string, bound < fst (analyze_complexity request))
  /\ (forall i j : Indicators,
        (multi_domain i <= multi_domain j)%nat ->
        (technical_terms i <= technical_terms j)%nat ->
        (action_verbs i <= action_verbs j)%nat ->
        (scope_indicators i <= scope_indicators j)%nat ->
        score_of i <= score_of j).
Proof.
  assert (Hfst : forall request,
             fst (analyze_complexity request) = complexity_score request).
  { intros request. unfold analyze_complexity.
    set (s := complexity_score request).
    destruct (Qle_bool 3 s), (Qle_bool 2 s), (Qle_bool 1 s); reflexivity. }
  split; [ | split].
  - intros request. split; [apply Hfst | ].
    split; [apply score_of_nonneg | reflexivity].
  - intros bound. destruct (complexity_score_unbounded bound) as [request H].
    exists request. now rewrite Hfst.
  - intros i j H1 H2 H3 H4.
    apply score_of_monotone_in_sum. unfold indicator_sum. lia.
Qed.

Lemma complexity_score_nonneg_monotone_witness :
  0 <= complexity_score "build a react app"
  /\ (exists request : string, 1000 < fst (analyze_complexity request))
  /\ score_of (complexity_indicators "build a react app")
     <= score_of (complexity_indicators "build a react app in python").
Proof.
  destruct complexity_score_nonneg_monotone as (H0 & Hu & Hm).
  split; [apply H0 | ]. split; [apply Hu | ].
  apply Hm; vm_compute; lia.
Defined.

End ComplexityProofs.

(** ** TaskDecomposer *)

Module DecomposerProofs.

Import Decomposer ListFacts.

Definition architect : string := "backend-architect".

(** The id given to the subtask at position [k] of a sequential plan. *)
Definition sequential_id (k : nat) : string :=
  "sequential_" ++ Text.str_of_nat (k + 1).

Lemma mem_In (x : string) (xs : list string) : mem x xs = true <-> In x xs.
Proof.
  unfold mem. rewrite existsb_exists. split.
  - intros (y & Hy & E). apply String.eqb_eq in E. subst. exact Hy.
  - intros H. exists x. split; [exact H | apply String.eqb_refl].
Qed.

(** [first_occurrences_from seen l] keeps of [l], in order, the names that
    are neither in [seen] nor earlier in [l]. *)
Fixpoint first_occurrences_from (seen l : list string) : list string :=
  match l with
  | [] => []
  | x :: rest =>
      if mem x seen then first_occurrences_from seen rest
      else x :: first_occurrences_from (seen ++ [x]) rest
  end.

(** The names of [l], each once, in the order in which they first occur. *)
Definition first_occurrences (l : list string) : list string :=
  first_occurrences_from [] l.

Definition not_architect (expert : string) : bool :=
  negb (String.eqb expert architect).

Lemma mem_app (x : string) (xs ys : list string) :
  mem x (xs ++ ys) = mem x xs || mem x ys.
Proof. unfold mem. apply existsb_app. Qed.

Lemma first_occurrences_from_ext (l seen1 seen2 : list string) :
  (forall x, In x l -> mem x seen1 = mem x seen2) ->
  first_occurrences_from seen1 l = first_occurrences_from seen2 l.
Proof.
  revert seen1 seen2. induction l as [ | x l IH]; intros seen1 seen2 Hext.
  - reflexivity.
  - simpl. rewrite <- (Hext x (or_introl eq_refl)).
    destruct (mem x seen1).
    + apply IH. intros y Hy. apply Hext. now right.
    + f_equal. apply IH. intros y Hy.
      rewrite !mem_app. f_equal. apply Hext. now right.
Qed.

(** The ordering loop: the names already placed stay in front; the other
    names, the architect apart, follow at their first occurrence. *)
Lemma ordering_loop (experts acc : list string) :
  fold_left
    (fun expert_order expert =>
       if negb (String.eqb expert architect) && negb (mem expert expert_order)
       then (expert_order ++ [expert])%list
       else expert_order)
    experts acc
  = (acc ++ first_occurrences_from acc (List.filter not_architect experts))
      %list.
Proof.
  revert acc. induction experts as [ | x l IH]; intros acc; simpl.
  - now rewrite app_nil_r.
  - unfold not_architect at 1.
    destruct (String.eqb x architect); simpl; [apply IH | ].
    destruct (mem x acc); simpl; [apply IH | ].
    rewrite IH, <- app_assoc. reflexivity.
Qed.

Lemma expert_order_spec (experts : list string) :
  expert_order experts
  = ((if mem architect experts then [architect] else [])
     ++ first_occurrences (List.filter not_architect experts))%list.
Proof.
  unfold expert_order. fold architect. rewrite ordering_loop. f_equal.
  apply first_occurrences_from_ext. intros x Hx.
  apply List.filter_In in Hx. destruct Hx as [_ Hx].
  destruct (mem architect experts); [ | reflexivity].
  unfold not_architect in Hx. simpl.
  destruct (String.eqb x architect); [discriminate | reflexivity].
Qed.

(** On names that are pairwise distinct nothing is dropped. *)
Lemma first_occurrences_distinct (l seen : list string) :
  List.NoDup l -> (forall x, In x l -> mem x seen = false) ->
  first_occurrences_from seen l = l.
Proof.
  intros Hnd. revert seen.
  induction Hnd as [ | x l Hx Hnd IH]; intros seen Hseen; simpl.
  - reflexivity.
  - rewrite (Hseen x (or_introl eq_refl)). f_equal. apply IH.
    intros y Hy. rewrite mem_app, (Hseen y (or_intror Hy)). simpl.
    rewrite orb_false_r. apply String.eqb_neq. intros ->. contradiction.
Qed.

Lemma assign_ids_length (prefix : string) (i : nat) (l : list Subtask) :
  List.length (assign_ids prefix i l) = List.length l.
Proof. revert i. induction l; intros i; simpl; [ | rewrite IHl]; reflexivity. Qed.

Lemma assign_ids_nth (prefix : string) (l : list Subtask) (i k : nat) :
  nth_error (assign_ids prefix i l) k
  = option_map (set_id (prefix ++ Text.str_of_nat (i + k + 1)))
      (nth_error l k).
Proof.
  revert i k. induction l as [ | s l IH]; intros i k.
  - destruct k; reflexivity.
  - destruct k; simpl.
    + now rewrite Nat.add_0_r.
    + rewrite IH. now replace (S i + k)%nat with (i + S k)%nat by lia.
Qed.

Lemma assign_ids_experts (prefix : string) (l : list Subtask) (i : nat) :
  map st_expert (assign_ids prefix i l) = map st_expert l.
Proof. revert i. induction l; intros i; simpl; [ | rewrite IHl]; reflexivity. Qed.

Lemma assign_ids_ids (prefix : string) (l : list Subtask) (i : nat) :
  map st_id (assign_ids prefix i l)
  = map (fun j => Some (prefix ++ Text.str_of_nat j))
      (seq (i + 1) (List.length l)).
Proof.
  revert i. induction l as [ | s l IH]; intros i; simpl; [reflexivity | ].
  f_equal. rewrite IH. now replace (S i + 1)%nat with (S (i + 1)) by lia.
Qed.

Lemma sequential_subtasks_experts (order : list string) (i : nat) :
  map st_expert (sequential_subtasks_from i order) = order.
Proof.
  revert i. induction order; intros i; simpl; [ | rewrite IHorder];
    reflexivity.
Qed.

Lemma sequential_subtasks_length (order : list string) (i : nat) :
  List.length (sequential_subtasks_from i order) = List.length order.
Proof.
  revert i. induction order; intros i; simpl; [ | rewrite IHorder];
    reflexivity.
Qed.

Lemma sequential_subtasks_nth (order : list string) (i k : nat)
  (s : Subtask) :
  nth_error (sequential_subtasks_from i order) k = Some s ->
  st_dependencies s
  = map (fun j => "sequential_" ++ Text.str_of_nat j) (seq 1 (i + k)).
Proof.
  revert i k. induction order as [ | e order IH]; intros i k H.
  - destruct k; discriminate.
  - destruct k; simpl in H.
    + injection H as <-. simpl. now rewrite Nat.add_0_r.
    + apply IH in H. now replace (i + S k)%nat with (S i + k)%nat by lia.
Qed.

(** C8, as stated, fails on three workers: the third subtask depends on
    the first and on the second, not on its immediate predecessor only. *)
Lemma sequential_third_subtask_dependencies :
  exists s,
    nth_error
      (_create_sequential_subtasks "ship it"
         ["react-expert"; "python-expert"; "docker-expert"]) 2 = Some s
    /\ st_dependencies s = ["sequential_1"; "sequential_2"]
    /\ st_dependencies s <> ["sequential_2"].
Proof.
  eexists. split; [vm_compute; reflexivity | ].
  split; [reflexivity | discriminate].
Qed.

(** The subtask at position [k] of a sequential plan: its id, and its
    dependencies, which are the ids of the subtasks at positions below
    [k]. *)
Lemma sequential_subtask_at (request : string) (experts : list string)
  (k : nat) (s : Subtask) :
  let subtasks := _create_sequential_subtasks request experts in
  nth_error subtasks k = Some s ->
  st_id s = Some (sequential_id k)
  /\ map Some (st_dependencies s) = map st_id (firstn k subtasks).
Proof.
  cbv zeta. unfold _create_sequential_subtasks. intros H.
  assert (Hk : (k < List.length (expert_order experts))%nat).
  { rewrite <- (sequential_subtasks_length _ 0),
      <- (assign_ids_length "sequential_" 0).
    exact (nth_error_lt _ _ _ H). }
  rewrite assign_ids_nth in H.
  destruct (nth_error (sequential_subtasks_from 0 (expert_order experts)) k)
    as [s0 | ] eqn:E; [ | discriminate].
  injection H as <-. split; [reflexivity | ].
  apply sequential_subtasks_nth in E. simpl in *. rewrite E.
  rewrite <- firstn_map, assign_ids_ids, sequential_subtasks_length.
  rewrite firstn_map, firstn_seq_le by lia.
  now rewrite map_map.
Qed.

(** C8, amended.  For every list of selected workers, the sequential
    decomposition places ["backend-architect"] first when it was selected
    and the other workers after it in selection order (a name selected
    twice is placed once, where it first occurs); the subtask at position
    [k] gets the id [sequential_(k+1)] and its dependency list holds the ids
    of all the [k] subtasks before it, in order (none for the first). *)
Theorem sequential_subtasks_order_and_dependencies (request : string)
  (experts : list string) :
  let subtasks := _create_sequential_subtasks request experts in
  map st_expert subtasks
  = ((if mem architect experts then [architect] else [])
     ++ first_occurrences (List.filter not_architect experts))%list
  /\ forall (k : nat) (s : Subtask),
       nth_error subtasks k = Some s ->
       st_id s = Some (sequential_id k)
       /\ map Some (st_dependencies s) = map st_id (firstn k subtasks).
Proof.
  cbv zeta. split.
  - unfold _create_sequential_subtasks.
    rewrite assign_ids_experts, sequential_subtasks_experts.
    apply expert_order_spec.
  - intros k s. apply sequential_subtask_at.
Qed.

Example sequential_architect_first :
  map st_expert
    (_create_sequential_subtasks "ship it"
       ["react-expert"; "backend-architect"; "docker-expert"])
  = ["backend-architect"; "react-expert"; "docker-expert"].
Proof. reflexivity. Qed.

(** X1.  The concurrent plan raises [KeyError] exactly when two or more
    workers are selected.  With no worker or one worker a plan is
    returned: the worker's parallel subtask, if any, followed by the
    aggregation subtask of ["backend-architect"], numbered
    [concurrent_1], [concurrent_2] in that order, none of them with a
    dependency. *)
Lemma concurrent_subtasks_raise (request : string) (experts : list string) :
  ((2 <= List.length experts)%nat ->
   _create_concurrent_subtasks request experts = Raise (KeyError "id"))
  /\ ((List.length experts < 2)%nat ->
      exists plan : list Subtask,
        _create_concurrent_subtasks request experts = Ok plan
        /\ map st_expert plan = (experts ++ ["backend-architect"])%list
        /\ map st_type plan
           = (map (fun _ => "parallel") experts ++ ["aggregation"])%list
        /\ map st_id plan
           = map (fun k => Some ("concurrent_" ++ Text.str_of_nat (S k)))
               (seq 0 (S (List.length experts)))
        /\ Forall (fun s => st_dependencies s = []) plan).
Proof.
  unfold _create_concurrent_subtasks.
  destruct experts as [ | a [ | b rest]]; simpl.
  - split; [lia | ]. intros _. eexists. split; [reflexivity | ].
    repeat split. repeat constructor.
  - split; [lia | ]. intros _. eexists. split; [reflexivity | ].
    repeat split. repeat constructor.
  - split; [reflexivity | lia].
Qed.

(** *** Dependencies of the plans that are built *)

(** Every dependency of a subtask is the id of a subtask placed before
    it. *)
Definition no_forward_references (subtasks : list Subtask) : Prop :=
  forall (k : nat) (s : Subtask) (d : string),
    nth_error subtasks k = Some s ->
    In d (st_dependencies s) ->
    exists (j : nat) (s' : Subtask),
      (j < k)%nat /\ nth_error subtasks j = Some s' /\ st_id s' = Some d.

(** A subtask as it is before the numbering loop, with no dependency. *)
Definition unnumbered_free (s : Subtask) : Prop :=
  st_id s = None /\ st_dependencies s = [].

Lemma no_dependencies_no_forward_references (subtasks : list Subtask) :
  Forall (fun s => st_dependencies s = []) subtasks ->
  no_forward_references subtasks.
Proof.
  intros Hall k s d Hk Hd. rewrite List.Forall_forall in Hall.
  apply nth_error_In in Hk. rewrite (Hall s Hk) in Hd. destruct Hd.
Qed.

Lemma assign_ids_dependencies (prefix : string) (l : list Subtask) (i : nat) :
  Forall unnumbered_free l ->
  Forall (fun s => st_dependencies s = []) (assign_ids prefix i l).
Proof.
  intros H. revert i. induction H as [ | s l [_ Hs] _ IH]; intros i; simpl.
  - constructor.
  - constructor; [exact Hs | apply IH].
Qed.

(** Reading the ids of subtasks that have none succeeds only when there is
    nothing to read. *)
Lemma ids_of_unnumbered (l : list Subtask) (deps : list string) :
  Forall unnumbered_free l -> mapM get_id l = Ok deps -> deps = [].
Proof.
  intros Hall. destruct Hall as [ | s l [Hs _] _]; simpl.
  - now intros [= <-].
  - unfold get_id. rewrite Hs. discriminate.
Qed.

Lemma ids_at_level_unnumbered (lvl : nat) (l : list Subtask)
  (deps : list string) :
  Forall unnumbered_free l -> ids_at_level lvl l = Ok deps -> deps = [].
Proof.
  intros Hall. unfold ids_at_level. apply ids_of_unnumbered.
  rewrite List.Forall_forall in *. intros s Hs.
  apply List.filter_In in Hs. now apply Hall.
Qed.

Lemma for_each_invariant {A S : Type} (P : S -> Prop)
  (body : S -> A -> PyResult S) (xs : list A) :
  (forall state x state', P state -> body state x = Ok state' -> P state') ->
  forall state state',
    P state -> for_each body xs state = Ok state' -> P state'.
Proof.
  intros Hbody. induction xs as [ | x xs IH]; intros state state' HP; simpl.
  - now intros [= <-].
  - destruct (body state x) as [state1 | e] eqn:E; simpl; [ | discriminate].
    apply IH. now apply (Hbody state x).
Qed.

Lemma Forall_snoc {A : Type} (P : A -> Prop) (l : list A) (x : A) :
  Forall P l -> P x -> Forall P (l ++ [x]).
Proof.
  intros Hl Hx. apply List.Forall_app. split; [exact Hl | ].
  constructor; [exact Hx | constructor].
Qed.

Lemma hierarchical_subtasks_built (request : string) (experts : list string)
  (subtasks : list Subtask) :
  _create_hierarchical_subtasks request experts = Ok subtasks ->
  Forall (fun s => st_dependencies s = []) subtasks.
Proof.
  unfold _create_hierarchical_subtasks.
  set (planned := if existsb _ _ then _ else _).
  assert (Hplanned : Forall unnumbered_free planned).
  { subst planned. destruct (existsb _ _); repeat constructor. }
  destruct (for_each _ experts planned) as [developed | e] eqn:Hloop;
    cbn [bind]; [ | discriminate].
  assert (Hdeveloped : Forall unnumbered_free developed).
  { revert Hloop. apply for_each_invariant; [ | exact Hplanned].
    intros state x state' Hstate.
    destruct (mem x _); [ | now intros [= <-]].
    destruct (ids_at_level 1 state) as [deps | e] eqn:Hdeps; cbn [bind];
      [ | discriminate].
    intros [= <-]. apply Forall_snoc; [exact Hstate | ].
    split; [reflexivity | ]. simpl.
    now apply (ids_at_level_unnumbered 1 state). }
  destruct (existsb _ ["jest-expert"; "cypress-expert"]).
  - destruct (ids_at_level 2 developed) as [deps | e] eqn:Hdeps; cbn [bind];
      [ | discriminate].
    intros [= <-]. apply assign_ids_dependencies.
    apply Forall_snoc; [exact Hdeveloped | ].
    split; [reflexivity | ]. simpl.
    now apply (ids_at_level_unnumbered 2 developed).
  - cbn [bind]. intros [= <-]. now apply assign_ids_dependencies.
Qed.

Lemma concurrent_subtasks_built (request : string) (experts : list string)
  (subtasks : list Subtask) :
  _create_concurrent_subtasks request experts = Ok subtasks ->
  Forall (fun s => st_dependencies s = []) subtasks.
Proof.
  unfold _create_concurrent_subtasks.
  destruct experts as [ | a [ | b rest]]; simpl.
  - intros [= <-]. repeat constructor.
  - intros [= <-]. repeat constructor.
  - discriminate.
Qed.

Lemma sequential_no_forward_references (request : string)
  (experts : list string) :
  no_forward_references (_create_sequential_subtasks request experts).
Proof.
  intros k s d Hk Hd.
  destruct (sequential_subtask_at request experts k s Hk) as [_ Hdeps].
  assert (Hin : In (Some d)
                  (map st_id
                     (firstn k (_create_sequential_subtasks request experts)))).
  { rewrite <- Hdeps. now apply in_map. }
  apply in_map_iff in Hin. destruct Hin as (s' & Hid & Hs').
  apply In_nth_error in Hs'. destruct Hs' as [j Hj].
  exists j, s'.
  assert (Hjk : (j < k)%nat).
  { apply nth_error_lt in Hj. rewrite length_firstn in Hj. lia. }
  split; [exact Hjk | ]. split; [ | exact Hid].
  now rewrite nth_error_firstn in Hj; destruct (Nat.ltb_spec j k); [ | lia].
Qed.

(** X2.  Whenever [decompose_task] returns a decomposition, for whatever
    library, request and pattern, every dependency of a subtask is the id
    of a subtask placed before it. *)
Lemma decompose_task_built (library : Library) (request : string)
  (pattern : OrchestrationPattern) (t : TaskDecomposition) :
  decompose_task library request pattern = Ok t ->
  no_forward_references (subtasks t).
Proof.
  unfold decompose_task.
  set (required := map fst _).
  destruct pattern; cbn [bind].
  - intros [= <-]. apply sequential_no_forward_references.
  - destruct (_create_concurrent_subtasks request required) eqn:E;
      cbn [bind]; [ | discriminate].
    intros [= <-]. simpl.
    apply no_dependencies_no_forward_references.
    now apply (concurrent_subtasks_built request required).
  - intros [= <-]. intros [ | k] s d H; discriminate.
  - intros [= <-]. intros [ | k] s d H; discriminate.
  - intros [= <-]. intros [ | k] s d H; discriminate.
  - destruct (_create_hierarchical_subtasks request required) eqn:E;
      cbn [bind]; [ | discriminate].
    intros [= <-]. simpl.
    apply no_dependencies_no_forward_references.
    now apply (hierarchical_subtasks_built request required).
Qed.

(** C2: the decomposer raises on ordinary requests.  The dependency lists
    of the concurrent and of the hierarchical plan read [s["id"]] of earlier
    subtasks before the numbering loop has given any subtask an id.  With
    two matching workers the concurrent plan raises [KeyError]; with a
    planning worker and a development worker the hierarchical plan does. *)
Theorem decompose_task_raises_key_error :
  decompose_task _load_expert_library "react python" CONCURRENT
  = Raise (KeyError "id")
  /\ decompose_task _load_expert_library "architecture react" HIERARCHICAL
     = Raise (KeyError "id").
Proof. split; vm_compute; reflexivity. Qed.

End DecomposerProofs.

(** ** ConsensusEvaluator *)

Module ConsensusProofs.

Import Conversation QFacts.
Local Open Scope Q_scope.

Lemma Qlen_cons {A : Type} (x : A) (xs : list A) :
  Qlen (x :: xs) == Qlen xs + 1.
Proof.
  unfold Qlen. simpl List.length.
  rewrite Nat2Z.inj_succ, <- Z.add_1_r, inject_Z_plus. reflexivity.
Qed.

Lemma Qlen_map {A B : Type} (f : A -> B) (xs : list A) :
  Qlen (map f xs) = Qlen xs.
Proof. unfold Qlen. now rewrite length_map. Qed.

(** The sum of values between 0 and 1 lies between 0 and their number. *)
Lemma Qsum_bounds (xs : list Q) :
  Forall (fun x => 0 <= x <= 1) xs -> 0 <= Qsum xs <= Qlen xs.
Proof.
  induction 1 as [ | x xs [Hx0 Hx1] _ [IH0 IH1]].
  - unfold Qsum, Qlen. simpl. split; apply Qle_refl.
  - rewrite Qlen_cons. simpl. split; lra.
Qed.

Lemma agreement_factor_bounds (n : Q) : 0 <= n -> 0 <= Qmin (n / 5) 1 <= 1.
Proof.
  intros Hn. split.
  - apply Q.min_glb; [ | lra]. apply Qle_shift_div_l; lra.
  - apply Q.le_min_r.
Qed.

(** C5.  For every list of responses whose confidence values (0.8 where
    the key is absent) lie in [0,1]: with fewer than two responses the
    consensus level is exactly 1; otherwise it is the average confidence
    times [min(count/5, 1)]; in both cases it lies in [0,1]. *)
Theorem consensus_level_spec (responses : list Response) :
  Forall (fun r => 0 <= confidence_of r <= 1) responses ->
  ((List.length responses < 2)%nat ->
   _calculate_consensus_level responses = 1)
  /\ ((2 <= List.length responses)%nat ->
      _calculate_consensus_level responses
      = (Qsum (map confidence_of responses) / Qlen responses)
        * Qmin (Qlen responses / 5) 1)
  /\ 0 <= _calculate_consensus_level responses <= 1.
Proof.
  intros Hconf. unfold _calculate_consensus_level.
  destruct (Nat.ltb_spec (List.length responses) 2) as [Hlt | Hge].
  - split; [reflexivity | ]. split; [lia | ]. split; lra.
  - split; [lia | ]. rewrite Qlen_map. split; [reflexivity | ].
    assert (Hsum : 0 <= Qsum (map confidence_of responses) <= Qlen responses).
    { rewrite <- (Qlen_map confidence_of). apply Qsum_bounds.
      now apply Forall_map. }
    assert (Hlen : 0 < Qlen responses) by (apply inject_nat_pos; lia).
    assert (Havg :
      0 <= Qsum (map confidence_of responses) / Qlen responses <= 1).
    { split.
      - apply Qle_shift_div_l; [exact Hlen | lra].
      - apply Qle_shift_div_r; [exact Hlen | lra]. }
    pose proof (agreement_factor_bounds (Qlen responses) (Qlt_le_weak _ _ Hlen))
      as Hfac.
    set (a := Qsum (map confidence_of responses) / Qlen responses) in *.
    set (f := Qmin (Qlen responses / 5) 1) in *.
    split; nra.
Qed.

Definition two_confident_responses : list Response :=
  [ {| expert := "react-expert"; content := "first"; confidence := Some 0.9 |};
    {| expert := "python-expert"; content := "second";
       confidence := Some 0.9 |} ].

Lemma consensus_level_spec_witness :
  _calculate_consensus_level two_confident_responses == 0.36
  /\ 0 <= _calculate_consensus_level two_confident_responses <= 1.
Proof.
  assert (H : Forall (fun r => 0 <= confidence_of r <= 1)
                two_confident_responses).
  { unfold two_confident_responses.
    repeat (apply List.Forall_cons; [unfold confidence_of; simpl; lra | ]).
    apply List.Forall_nil. }
  destruct (consensus_level_spec two_confident_responses H) as (_ & _ & Hb).
  split; [vm_compute; reflexivity | exact Hb].
Defined.

End ConsensusProofs.

(** ** Maker-checker loop *)

Module MakerCheckerProofs.

Import Conversation QFacts ListFacts.
Local Open Scope Q_scope.

Lemma last_item_snoc {A : Type} (pre : list A) (x : A) :
  last_item (pre ++ [x]) = Ok x.
Proof. unfold last_item. now rewrite rev_app_distr. Qed.

(** The approval score is the share of positive keywords among the keywords
    found, 0.8 when none is found, and lies in [0,1]. *)
Lemma approval_score_spec (review_content : string) :
  let positive := keyword_hits positive_keywords review_content in
  let negative := keyword_hits negative_keywords review_content in
  ((positive + negative = 0)%nat ->
   _extract_approval_score review_content = 0.8)
  /\ ((0 < positive + negative)%nat ->
      _extract_approval_score review_content
      == inject_Z (Z.of_nat positive)
         / inject_Z (Z.of_nat (positive + negative)))
  /\ 0 <= _extract_approval_score review_content <= 1.
Proof.
  cbv zeta. unfold _extract_approval_score.
  set (p := keyword_hits positive_keywords review_content).
  set (n := keyword_hits negative_keywords review_content).
  destruct (Nat.eqb_spec (p + n) 0) as [E | E].
  - split; [reflexivity | ]. split; [lia | ]. split; lra.
  - split; [lia | ].
    assert (Hr : 0 <= inject_Z (Z.of_nat p) / inject_Z (Z.of_nat (p + n)) <= 1)
      by (apply ratio_bounds; lia).
    destruct Hr as [Hr0 Hr1].
    assert (Hmin :
      Qmin 1 (inject_Z (Z.of_nat p) / inject_Z (Z.of_nat (p + n)))
      == inject_Z (Z.of_nat p) / inject_Z (Z.of_nat (p + n)))
      by (apply Q.min_r; exact Hr1).
    assert (Hmax :
      Qmax 0 (Qmin 1 (inject_Z (Z.of_nat p) / inject_Z (Z.of_nat (p + n))))
      == inject_Z (Z.of_nat p) / inject_Z (Z.of_nat (p + n)))
      by (rewrite Q.max_r; [exact Hmin | rewrite Hmin; exact Hr0]).
    split; [intros _; exact Hmax | ].
    rewrite Hmax. split; assumption.
Qed.

Section Loop.

Variable draws : nat -> Q.
Variables thread_topic maker checker : string.

(** What the [while] loop leaves behind when it is entered with
    [iteration_count] passes recorded in [feedback_history]. *)
Lemma review_loop_spec (remaining : nat) :
  forall (iteration_count : nat) (feedback_history : list Feedback)
         (n : nat) (history : list Feedback),
    List.length feedback_history = iteration_count ->
    review_loop draws thread_topic maker checker remaining iteration_count
      feedback_history = (n, history) ->
    (iteration_count <= n <= iteration_count + remaining)%nat
    /\ List.length history = n
    /\ firstn iteration_count history = feedback_history
    /\ (forall (k : nat) (fb : Feedback),
          (iteration_count <= k)%nat ->
          nth_error history k = Some fb ->
          fb = review_iteration draws thread_topic maker checker (S k)
                 (firstn k history)
          /\ ((S k < n)%nat -> approval_score fb < 0.8))
    /\ ((0 < remaining)%nat ->
        exists (pre : list Feedback) (last : Feedback),
          history = (pre ++ [last])%list
          /\ (0.8 <= approval_score last
              \/ n = (iteration_count + remaining)%nat)).
Proof.
  induction remaining as [ | remaining IH];
    intros iteration_count feedback_history n history Hlen Hrun.
  - simpl in Hrun. injection Hrun as <- <-.
    split; [lia | ]. split; [exact Hlen | ].
    split; [rewrite <- Hlen; apply firstn_all | ].
    split; [ | lia].
    intros k fb Hk Hnth. exfalso.
    apply nth_error_lt in Hnth. lia.
  - cbn [review_loop] in Hrun.
    set (fb0 := review_iteration draws thread_topic maker checker
                  (S iteration_count) feedback_history) in *.
    assert (Hlen' :
      List.length (feedback_history ++ [fb0]) = S iteration_count)
      by (rewrite length_app; simpl; lia).
    destruct (Qle_bool 0.8 (approval_score fb0)) eqn:Happroved.
    + injection Hrun as <- <-.
      split; [lia | ]. split; [exact Hlen' | ].
      split; [rewrite <- Hlen; now rewrite firstn_app_length | ].
      split.
      * intros k fb Hk Hnth.
        assert (k = iteration_count).
        { apply nth_error_lt in Hnth. lia. }
        subst k. split; [ | lia].
        rewrite <- Hlen in Hnth |- *.
        rewrite nth_error_app2, Nat.sub_diag in Hnth by lia.
        injection Hnth as <-. rewrite firstn_app_length, Hlen. reflexivity.
      * intros _. exists feedback_history, fb0. split; [reflexivity | ].
        left. now apply Qle_bool_iff.
    + apply Qle_bool_false in Happroved.
      destruct (IH _ _ _ _ Hlen' Hrun) as (Hn & Hl & Hfirst & Hiter & Hlast).
      assert (Hprefix : firstn iteration_count history = feedback_history).
      { rewrite <- (firstn_app_length feedback_history [fb0]), Hlen.
        rewrite <- Hfirst, firstn_firstn. f_equal. lia. }
      assert (Hhere : nth_error history iteration_count = Some fb0).
      { rewrite <- (firstn_skipn (S iteration_count) history), Hfirst.
        rewrite nth_error_app1 by (rewrite Hlen'; lia).
        rewrite nth_error_app2 by lia.
        now rewrite Hlen, Nat.sub_diag. }
      split; [lia | ]. split; [exact Hl | ]. split; [exact Hprefix | ].
      split.
      * intros k fb Hk Hnth.
        destruct (Nat.eq_dec k iteration_count) as [-> | Hne].
        -- rewrite Hhere in Hnth. injection Hnth as <-.
           rewrite Hprefix. split; [reflexivity | intros _; exact Happroved].
        -- apply Hiter; [lia | exact Hnth].
      * intros _. destruct remaining as [ | remaining'].
        -- cbn [review_loop] in Hrun. injection Hrun as <- <-.
           exists feedback_history, fb0. split; [reflexivity | right; lia].
        -- destruct Hlast as (pre & last & Hpre & Hcase); [lia | ].
           exists pre, last. split; [exact Hpre | ].
           destruct Hcase as [H | H]; [left; exact H | right; lia].
Qed.

End Loop.

(** C6.  For every topic and participant list the maker-checker strategy
    returns a result after [n] passes of the loop with [1 <= n <= 3]; pass
    [k+1] is followed by another one only when its approval score is below
    0.8, so the loop stops at the first pass that reaches 0.8 or at the
    third; the [consensus_level] of the result is the approval score of the
    last pass.  The approval score of a pass is computed from the checker's
    review text: the number of positive keywords found divided by the
    number of positive and negative keywords found, 0.8 when none is found,
    always within [0,1]. *)
Theorem maker_checker_loop_spec (draws : nat -> Q) (duration : Q)
  (thread : ConversationThread) :
  let maker := fst (assign_roles (participants thread)) in
  let checker := snd (assign_roles (participants thread)) in
  exists (result : ConversationResult) (n : nat)
         (pre : list Feedback) (last : Feedback),
    _maker_checker_loop_conversation draws duration thread = Ok result
    /\ review_loop draws (thread_topic thread) maker checker max_iterations
         0 [] = (n, (pre ++ [last])%list)
    /\ (1 <= n <= 3)%nat
    /\ List.length (pre ++ [last])%list = n
    /\ message_count result = (n * 2)%nat
    /\ success result = true
    /\ consensus_level result = approval_score last
    /\ (0.8 <= approval_score last \/ n = 3%nat)
    /\ (forall (k : nat) (fb : Feedback),
          nth_error (pre ++ [last])%list k = Some fb ->
          iteration fb = S k
          /\ approval_score fb
             = _extract_approval_score (content (checker_response fb))
          /\ 0 <= approval_score fb <= 1
          /\ ((S k < n)%nat -> approval_score fb < 0.8))
    /\ (forall review_content : string,
          let positive := keyword_hits positive_keywords review_content in
          let negative := keyword_hits negative_keywords review_content in
          ((positive + negative = 0)%nat ->
           _extract_approval_score review_content = 0.8)
          /\ ((0 < positive + negative)%nat ->
              _extract_approval_score review_content
              == inject_Z (Z.of_nat positive)
                 / inject_Z (Z.of_nat (positive + negative)))
          /\ 0 <= _extract_approval_score review_content <= 1).
Proof.
  cbv zeta. unfold _maker_checker_loop_conversation.
  destruct (assign_roles (participants thread)) as [maker checker].
  cbn [fst snd].
  destruct (review_loop draws (thread_topic thread) maker checker
              (max_iterations - 0) 0 []) as [n history] eqn:Hrun.
  change (max_iterations - 0)%nat with max_iterations in Hrun.
  destruct (review_loop_spec draws (thread_topic thread) maker checker
              max_iterations 0 [] n history eq_refl Hrun)
    as (Hn & Hlen & _ & Hiter & Hlast).
  destruct Hlast as (pre & last & -> & Hcase); [unfold max_iterations; lia | ].
  assert (Hn1 : (1 <= n <= 3)%nat).
  { split; [ | exact (proj2 Hn)].
    rewrite <- Hlen, length_app. simpl. lia. }
  rewrite last_item_snoc. cbn [bind].
  assert (Himp : exists improvement,
            _calculate_improvement_rate (pre ++ [last])%list = Ok improvement).
  { unfold _calculate_improvement_rate.
    destruct (List.length (pre ++ [last]) <? 2)%nat; [eauto | ].
    rewrite last_item_snoc.
    destruct pre; simpl; eauto. }
  destruct Himp as [improvement ->]. cbn [bind].
  eexists _, n, pre, last.
  split; [reflexivity | ]. split; [exact Hrun | ].
  split; [exact Hn1 | ]. split; [exact Hlen | ].
  split; [reflexivity | ]. split; [reflexivity | ].
  split; [reflexivity | ].
  split; [destruct Hcase as [H | H]; [left; exact H | right; exact H] | ].
  split; [ | intros review_content; apply approval_score_spec].
  intros k fb Hnth.
  destruct (Hiter k fb (Nat.le_0_l k) Hnth) as [Hfb Hbelow].
  split; [rewrite Hfb; reflexivity | ].
  split; [rewrite Hfb; reflexivity | ].
  split; [ | exact Hbelow].
  rewrite Hfb. apply approval_score_spec.
Qed.

Example maker_checker_default_approval :
  exists result,
    _maker_checker_loop_conversation (fun _ => 0.8) 2
      {| id := "t1"; thread_topic := "Add a login page";
         pattern := MAKER_CHECKER_LOOP;
         participants := ["react-expert"; "python-expert"];
         messages := []; status := "active" |} = Ok result
    /\ message_count result = 2%nat
    /\ consensus_level result = 0.8.
Proof. eexists. split; [vm_compute; reflexivity | split; reflexivity]. Qed.

End MakerCheckerProofs.

(** ** Starting a conversation *)

Module StartConversationProofs.

Import Conversation.
Local Open Scope Q_scope.

Definition new_thread (fresh_id request : string)
  (pattern : ConversationPattern) (selected_experts : list string)
  : ConversationThread :=
  {| id := fresh_id; thread_topic := request; pattern := pattern;
     participants := selected_experts; messages := [];
     status := "active" |}.

Definition unsupported (p : ConversationPattern) : Prop :=
  p = HANDOFF_ROUTING \/ p = HIERARCHICAL_COORDINATION.

Definition thread_status (engine : Engine) (key : string) : option string :=
  status <$> active_threads engine !! key.

Section AnyStrategies.

Variables sequential concurrent debate review : Strategy.

Local Abbreviation body :=
  (conversation_body sequential concurrent debate review).
Local Abbreviation start :=
  (start_conversation sequential concurrent debate review).

(** While the [try] block runs, the thread stays registered under its id,
    whether the block returns or raises. *)
Lemma conversation_body_keeps_thread (thread : ConversationThread)
  (engine : Engine) :
  is_Some (active_threads engine !! id thread) ->
  is_Some (active_threads (snd (body thread engine)) !! id thread).
Proof.
  intros Hin. unfold conversation_body, ebind.
  assert (Hrun : forall strategy,
    is_Some
      (active_threads
         (snd
            (match run_strategy strategy (id thread) thread engine with
             | (Ok result, e') =>
                 match append_history result e' with
                 | (Ok _, e'') =>
                     match set_active_status (id thread) "completed" e'' with
                     | (Ok _, e3) => eret result e3
                     | (Raise x, e3) => (Raise x, e3)
                     end
                 | (Raise x, e'') => (Raise x, e'')
                 end
             | (Raise x, e') => (Raise x, e')
             end)) !! id thread)).
  { intros strategy. unfold run_strategy.
    destruct (strategy thread (workers engine)) as [[result | x] [t' w']];
      simpl.
    - unfold set_active_status. simpl. rewrite lookup_insert_eq. simpl.
      rewrite lookup_insert_eq. eauto.
    - rewrite lookup_insert_eq. eauto. }
  destruct (pattern thread); try apply Hrun; simpl; exact Hin.
Qed.

(** C10.  For every request, pattern and participant list, and whatever the
    strategies do, [start_conversation] returns a result and raises
    nothing.  If the [try] block raised [e], the result has
    [success = false], a consensus level of 0, a message count of 0 and the
    final response ["Conversation failed: " ++ str(e)], and the thread's
    status is ["failed"].  If the block returned, that result is returned
    and the thread's status is ["completed"]. *)
Theorem start_conversation_never_raises (fresh_id request : string)
  (requested : ConversationPattern) (selected_experts : list string)
  (engine : Engine) :
  let thread := new_thread fresh_id request requested selected_experts in
  let registered := snd (store_thread fresh_id thread engine) in
  exists (result : ConversationResult) (engine' : Engine),
    start fresh_id request requested selected_experts engine
    = (Ok result, engine')
    /\ (forall (e : Exception) (engine2 : Engine),
          body thread registered = (Raise e, engine2) ->
          success result = false
          /\ consensus_level result == 0
          /\ message_count result = 0%nat
          /\ final_response result
             = "Conversation failed: " ++ str_of_exception e
          /\ thread_id result = fresh_id
          /\ thread_status engine' fresh_id = Some "failed")
    /\ (forall (r : ConversationResult) (engine2 : Engine),
          body thread registered = (Ok r, engine2) ->
          result = r
          /\ engine' = engine2
          /\ thread_status engine' fresh_id = Some "completed").
Proof.
  cbv zeta. unfold start_conversation, ebind, try_except.
  fold (new_thread fresh_id request requested selected_experts).
  set (thread := new_thread fresh_id request requested selected_experts).
  change (id thread) with fresh_id.
  destruct (store_thread fresh_id thread engine) as [stored registered]
    eqn:Hstore.
  assert (Hreg : is_Some (active_threads registered !! id thread)).
  { unfold store_thread in Hstore. injection Hstore as _ <-. simpl.
    rewrite lookup_insert_eq. eauto. }
  assert (stored = Ok tt) as ->
    by (unfold store_thread in Hstore; now injection Hstore as <- _).
  cbn [snd].
  pose proof (conversation_body_keeps_thread thread registered Hreg) as Hkeep.
  destruct (body thread registered) as [[r | e] engine2] eqn:Hbody.
  - exists r, engine2. split; [reflexivity | ].
    split; [intros e' engine3 H; discriminate | ].
    intros r' engine3 H. injection H as <- <-.
    split; [reflexivity | ]. split; [reflexivity | ].
    (* the last step of the block has set the status *)
    unfold conversation_body, ebind in Hbody.
    destruct (match pattern thread with
              | SEQUENTIAL_CHAIN =>
                  run_strategy sequential (id thread) thread
              | CONCURRENT_PROCESSING =>
                  run_strategy concurrent (id thread) thread
              | GROUP_CHAT_DEBATE => run_strategy debate (id thread) thread
              | MAKER_CHECKER_LOOP => run_strategy review (id thread) thread
              | other =>
                  eraise
                    (ValueError
                       ("Unsupported conversation pattern: "
                        ++ str_of_pattern other))
              end registered) as [[r0 | e0] e1]; [ | discriminate].
    unfold append_history, set_active_status, store_thread, eret in Hbody.
    cbn [active_threads] in Hbody.
    destruct (active_threads e1 !! id thread) as [t | ]; [ | discriminate].
    injection Hbody as _ <-. unfold thread_status. cbn [active_threads].
    change (id thread) with fresh_id. now rewrite lookup_insert_eq.
  - eexists _, _. split; [reflexivity | ].
    split; [ | intros r' engine3 H; discriminate].
    intros e' engine3 H. injection H as <- <-.
    repeat (split; [reflexivity | ]).
    unfold thread_status. cbn [snd active_threads] in *.
    change (id thread) with fresh_id in *.
    rewrite lookup_alter_eq. destruct Hkeep as [t ->]. reflexivity.
Qed.

(** C9, amended.  When [start_conversation] is called with a pattern that
    is not one of the four supported strategies, no strategy runs and the
    caller receives no exception: the new thread is stored in
    [active_threads] under its id, its status is set to ["failed"], nothing
    is appended to [conversation_history], the worker bookkeeping is left
    as it was, and the result returned has [success = false], a message
    count of 0 and the final response ["Conversation failed: Unsupported
    conversation pattern: ..."]. *)
Theorem unsupported_pattern_fails_thread (fresh_id request : string)
  (requested : ConversationPattern) (selected_experts : list string)
  (engine : Engine) :
  unsupported requested ->
  let thread := new_thread fresh_id request requested selected_experts in
  start fresh_id request requested selected_experts engine
  = (Ok (error_result thread selected_experts
           (ValueError
              ("Unsupported conversation pattern: "
               ++ str_of_pattern requested))),
     {| active_threads :=
          <[fresh_id := set_status "failed" thread]> (active_threads engine);
        conversation_history := conversation_history engine;
        workers := workers engine |}).
Proof.
  intros [-> | ->]; cbv zeta;
    unfold start_conversation, ebind, try_except, conversation_body,
      store_thread, set_thread_status, eraise, eret, new_thread;
    simpl; now rewrite alter_insert_eq.
Qed.

End AnyStrategies.

(** A strategy that answers without calling any worker. *)
Definition canned_strategy : Strategy :=
  fun thread workers =>
    (Ok {| thread_id := id thread; final_response := "done";
           participating_experts := participants thread;
           consensus_level := 1; conversation_duration := 0;
           message_count := 0; success := true; quality_metrics := [] |},
     (messages thread, workers)).

Definition start_with_canned :=
  start_conversation canned_strategy canned_strategy canned_strategy
    (maker_checker_strategy (fun _ => 0.8) 1).

(** C9, as stated, fails: after a call with the handoff pattern on a new
    engine the caller holds an ordinary result, and the active-thread map
    holds the thread of that request in the terminal status ["failed"]. *)
Lemma unsupported_pattern_registers_thread :
  let outcome :=
    start_with_canned "thread-1" "route this" HANDOFF_ROUTING
      ["react-expert"] new_engine in
  (exists r, fst outcome = Ok r /\ success r = false)
  /\ active_threads new_engine !! "thread-1" = None
  /\ thread_status (snd outcome) "thread-1" = Some "failed".
Proof.
  cbv zeta. split; [ | split].
  - eexists. split; reflexivity.
  - reflexivity.
  - vm_compute. reflexivity.
Qed.

Lemma unsupported_pattern_fails_thread_witness :
  unsupported HIERARCHICAL_COORDINATION
  /\ thread_status
       (snd (start_with_canned "thread-2" "plan this"
               HIERARCHICAL_COORDINATION [] new_engine)) "thread-2"
     = Some "failed".
Proof.
  split; [right; reflexivity | ].
  unfold start_with_canned.
  rewrite (unsupported_pattern_fails_thread _ _ _ _ "thread-2" "plan this"
             HIERARCHICAL_COORDINATION [] new_engine (or_intror eq_refl)).
  unfold thread_status. cbn [snd active_threads].
  now rewrite lookup_insert_eq.
Defined.

End StartConversationProofs.

(** ** Circuit breaker *)

Module ResilienceProofs.

Import Resilience.
Local Open Scope Z_scope.

Lemma breaker_of_insert (cb : gmap string Breaker) (key : string)
  (b : Breaker) :
  breaker_of (<[key := b]> cb) key = b.
Proof. unfold breaker_of. now rewrite lookup_insert_eq. Qed.

Lemma breaker_of_insert_ne (cb : gmap string Breaker) (key other : string)
  (b : Breaker) :
  key <> other -> breaker_of (<[key := b]> cb) other = breaker_of cb other.
Proof. intros H. unfold breaker_of. now rewrite lookup_insert_ne. Qed.

(** A check either leaves the worker's breaker as it was or moves it from
    open to half-open; it never touches the counters. *)
Lemma check_breaker (now : Z) (expert_name : string)
  (cb : gmap string Breaker) :
  let before := breaker_of cb expert_name in
  let checked :=
    breaker_of (fst (check_circuit_breaker now expert_name cb)) expert_name in
  failures checked = failures before
  /\ last_failure checked = last_failure before
  /\ (state checked = state before
      \/ (state before = open /\ state checked = half_open
          /\ exists t, last_failure before = Some t
                       /\ 60 < timedelta_seconds now t)).
Proof.
  cbv zeta. unfold check_circuit_breaker.
  destruct (breaker_of cb expert_name) as [f lf st] eqn:E. simpl.
  destruct st; simpl; rewrite ?breaker_of_insert; simpl; auto.
  destruct lf as [t | ]; simpl; rewrite ?breaker_of_insert; simpl; auto.
  destruct (Z.ltb_spec 60 (timedelta_seconds now t)); simpl;
    rewrite breaker_of_insert; simpl; auto.
  split; [reflexivity | ]. split; [reflexivity | ].
  right. eauto.
Qed.

Lemma check_other (now : Z) (expert_name other : string)
  (cb : gmap string Breaker) :
  expert_name <> other ->
  breaker_of (fst (check_circuit_breaker now expert_name cb)) other
  = breaker_of cb other.
Proof.
  intros Hne. unfold check_circuit_breaker.
  destruct (state (breaker_of cb expert_name)); simpl;
    try (now apply breaker_of_insert_ne).
  destruct (last_failure (breaker_of cb expert_name)); simpl;
    try (now apply breaker_of_insert_ne).
  destruct (60 <? timedelta_seconds now z); simpl;
    now apply breaker_of_insert_ne.
Qed.

Lemma recorded_failures_snoc (expert_name : string) (history : list Event)
  (ev : Event) :
  recorded_failures expert_name (history ++ [ev])
  = (recorded_failures expert_name history
     + match ev with
       | Failure n _ => if String.eqb n expert_name then 1 else 0
       | Check _ _ => 0
       end)%nat.
Proof.
  unfold recorded_failures. rewrite List.filter_app, length_app. f_equal.
  destruct ev as [n t | n t]; simpl; [reflexivity | ].
  now destruct (String.eqb n expert_name).
Qed.

(** After any history of calls, the counter of a worker's breaker is the
    number of failures recorded for it, and the breaker is closed exactly
    while that number is below three. *)
Lemma breaker_invariant (history : list Event) (expert_name : string) :
  let b := breaker_of (after history) expert_name in
  failures b = recorded_failures expert_name history
  /\ (state b = closed <-> (failures b < 3)%nat).
Proof.
  cbv zeta. induction history as [ | ev history IH] using rev_ind.
  - unfold after, breaker_of. simpl. rewrite lookup_empty. simpl.
    split; [reflexivity | ]. split; [lia | reflexivity].
  - destruct IH as [IHf IHs].
    unfold after in *. rewrite fold_left_app. simpl.
    set (cb := fold_left step history ∅) in *.
    rewrite recorded_failures_snoc.
    destruct ev as [n t | n t]; simpl.
    + rewrite Nat.add_0_r.
      destruct (String.eqb_spec n expert_name) as [-> | Hne].
      * destruct (check_breaker t expert_name cb) as (Hf & _ & Hst).
        rewrite Hf. split; [exact IHf | ].
        destruct Hst as [-> | (Hopen & Hhalf & _)]; [exact IHs | ].
        rewrite Hhalf. rewrite Hopen in IHs.
        split; [discriminate | ]. intros H. apply IHs in H. discriminate.
      * rewrite check_other by exact Hne. split; assumption.
    + unfold record_failure.
      destruct (String.eqb_spec n expert_name) as [-> | Hne].
      * rewrite breaker_of_insert. cbn [failures state]. split; [lia | ].
        destruct (Nat.leb_spec 3 (S (failures (breaker_of cb expert_name))))
          as [Hge | Hlt].
        -- split; [discriminate | lia].
        -- split; [lia | ]. intros _. apply IHs. lia.
      * rewrite breaker_of_insert_ne by exact Hne.
        rewrite Nat.add_0_r. split; assumption.
Qed.







(** Three failures in a row at second 0, then checks 60.5 and 61 seconds
    later. *)
Definition three_failures : list Event :=
  [Failure "react-expert" 0; Failure "react-expert" 0;
   Failure "react-expert" 0].

(** The counter is never reset: failures separated by permitted calls
    open the breaker as well. *)
Example breaker_open_after_separated_failures :
  let history :=
    [Failure "react-expert" 0; Check "react-expert" 1000000;
     Failure "react-expert" 2000000; Check "react-expert" 3000000;
     Failure "react-expert" 4000000] in
  snd (check_circuit_breaker 1000000 "react-expert"
         (after (firstn 1 history))) = true
  /\ snd (check_circuit_breaker 3000000 "react-expert"
            (after (firstn 3 history))) = true
  /\ state (breaker_of (after history) "react-expert") = open.
Proof. cbv zeta. repeat split; vm_compute; reflexivity. Qed.

Example breaker_closed_after_two :
  state (breaker_of (after (firstn 2 three_failures)) "react-expert") = closed.
Proof. reflexivity. Qed.

Example breaker_open_after_three :
  state (breaker_of (after three_failures) "react-expert") = open.
Proof. reflexivity. Qed.

Example breaker_still_open_at_60500ms :
  check_circuit_breaker 60500000 "react-expert" (after three_failures)
  = (after three_failures, false).
Proof. vm_compute. reflexivity. Qed.

Example breaker_half_open_at_61s :
  snd (check_circuit_breaker 61000000 "react-expert" (after three_failures))
  = true
  /\ state
       (breaker_of
          (fst (check_circuit_breaker 61000000 "react-expert"
                  (after three_failures))) "react-expert") = half_open.
Proof. split; reflexivity. Qed.

End ResilienceProofs.

(** ** WorkerSelector *)

Module SelectorProofs.

Import Float Selector FloatFacts ListFacts.
Local Open Scope float_scope.

(** Every worker of the library has at least one keyword and at least one
    capability tag. *)
Definition library_wf (library : Library) : Prop :=
  Forall (fun entry => keywords (snd entry) <> []
                       /\ capabilities (snd entry) <> []) library.

(** No stored performance record yields an infinite or undefined modifier.
    The records the orchestrator writes yield modifiers between 0.4877 and
    0.5092. *)
Definition finite_modifiers (self : MetaOrchestrator) : Prop :=
  forall (expert_name : string) (perf : ExpertPerformance),
    expert_performance self !! expert_name = Some perf ->
    number (performance_modifier perf) = true.

(** [x] stands before [y] in [l]. *)
Definition Before {A : Type} (l : list A) (x y : A) : Prop :=
  exists l1 l2 l3, l = (l1 ++ x :: l2 ++ y :: l3)%list.

(** The order of the selection over the scored library [scores]: a higher
    score first, and for equal scores the worker registered first. *)
Definition ranks (scores : list (string * float)) (p q : string * float)
  : Prop :=
  flt (snd q) (snd p) \/ (feq (snd p) (snd q) /\ Before scores p q).

(** The four terms of the relevance score. *)
Definition keyword_ratio (request : string) (d : ExpertData) : float :=
  of_nat (keyword_matches (Text.lower request) d)
  / of_nat (List.length (keywords d)).

Definition capability_ratio (request : string) (d : ExpertData) : float :=
  of_nat (capability_matches (Text.lower request) d)
  / of_nat (List.length (capabilities d)).

Definition context_bonus (d : ExpertData) (ctx : SessionContext) : float :=
  match preferred_experts ctx with
  | Some preferred => if name_in (name d) preferred then one else zero
  | None => zero
  end.

Definition recent_bonus (d : ExpertData) (ctx : SessionContext) : float :=
  match recent_experts ctx with
  | Some recent => if name_in (name d) (last_three recent) then one else zero
  | None => zero
  end.

(** The sum as the program accumulates it, from 0.0 on, each term rounded
    and each partial sum rounded. *)
Definition weighted_sum (request : string) (d : ExpertData)
  (ctx : SessionContext) : float :=
  zero + keyword_ratio request d * lit 4 10
  + capability_ratio request d * lit 3 10
  + context_bonus d ctx * lit 2 10 + recent_bonus d ctx * lit 1 10.

Lemma count_if_le {A : Type} (p : A -> bool) (xs : list A) :
  (count_if p xs <= List.length xs)%nat.
Proof. apply List.filter_length_le. Qed.

Lemma length_pos {A : Type} (xs : list A) :
  xs <> [] -> (0 < List.length xs)%nat.
Proof. destruct xs; [congruence | simpl; lia]. Qed.

Lemma bonus_plus (b : bool) (weight : float) :
  positive_number weight = true ->
  plus ((if b then one else zero) * weight) = true.
Proof. intros H. apply mul_plus; [now destruct b | exact H]. Qed.

(** The relevance score of a worker with keywords and capabilities: the
    weighted sum, cut at 1, and never negative. *)
Lemma expert_score_spec (request : string) (d : ExpertData)
  (ctx : SessionContext) :
  keywords d <> [] -> capabilities d <> [] ->
  exists raw,
    _calculate_expert_score request d ctx = Ok raw
    /\ raw = min (weighted_sum request d ctx) one
    /\ fle zero raw /\ fle raw one /\ number raw = true.
Proof.
  intros Hk Hc. apply length_pos in Hk, Hc.
  unfold _calculate_expert_score, true_div.
  destruct (Nat.eqb_spec (List.length (keywords d)) 0) as [E | _]; [lia | ].
  destruct (Nat.eqb_spec (List.length (capabilities d)) 0) as [E | _];
    [lia | ].
  cbn [bind]. eexists. split; [reflexivity | ].
  fold (keyword_ratio request d). fold (capability_ratio request d).
  pose proof (div_of_nat_plus (keyword_matches (Text.lower request) d) _ Hk)
    as Hkr.
  pose proof (div_of_nat_plus (capability_matches (Text.lower request) d) _
                Hc) as Hcr.
  fold (keyword_ratio request d) in Hkr.
  fold (capability_ratio request d) in Hcr.
  set (kr := keyword_ratio request d) in *.
  set (cr := capability_ratio request d) in *.
  set (base := zero + kr * lit 4 10 + cr * lit 3 10).
  assert (Hbase : plus base = true).
  { subst base. repeat apply add_plus; try reflexivity;
      apply mul_plus; (assumption || reflexivity). }
  set (with_context :=
         match preferred_experts ctx with
         | Some preferred =>
             base + (if name_in (name d) preferred then one else zero)
                    * lit 2 10
         | None => base
         end).
  assert (Hctx : with_context = base + context_bonus d ctx * lit 2 10
                 /\ plus with_context = true).
  { subst with_context. unfold context_bonus.
    destruct (preferred_experts ctx) as [preferred | ].
    - split; [reflexivity | ].
      apply add_plus; [exact Hbase | now apply bonus_plus].
    - split; [ | exact Hbase].
      change (zero * lit 2 10) with zero. now rewrite add_zero_r. }
  destruct Hctx as [Ectx Hctx].
  set (with_recent :=
         match recent_experts ctx with
         | Some recent =>
             with_context
             + (if name_in (name d) (last_three recent) then one else zero)
               * lit 1 10
         | None => with_context
         end).
  assert (Hrec : with_recent = weighted_sum request d ctx
                 /\ plus with_recent = true).
  { subst with_recent. unfold weighted_sum, recent_bonus.
    fold kr cr. fold base. rewrite <- Ectx.
    destruct (recent_experts ctx) as [recent | ].
    - split; [reflexivity | ].
      apply add_plus; [exact Hctx | now apply bonus_plus].
    - split; [ | exact Hctx].
      change (zero * lit 1 10) with zero. now rewrite add_zero_r. }
  destruct Hrec as [Erec Hrec].
  rewrite Erec in *.
  split; [reflexivity | ].
  destruct (min_one _ Hrec) as (H0 & H1 & _ & Hn).
  repeat split; assumption.
Qed.

(** *** The stable descending sort *)

Section Ranking.

Variable scores : list (string * float).

(** No score is NaN. *)
Hypothesis scores_defined :
  Forall (fun item => is_nan (snd item) = false) scores.

Lemma score_defined (x : string * float) :
  In x scores -> is_nan (snd x) = false.
Proof.
  intros H. rewrite List.Forall_forall in scores_defined.
  now apply scores_defined.
Qed.

Lemma insert_desc_In (x : string * float) (l : list (string * float))
  (z : string * float) :
  In z (insert_desc x l) -> z = x \/ In z l.
Proof.
  induction l as [ | y l IH]; simpl.
  - intros [<- | []]. now left.
  - destruct (ltb (snd x) (snd y)); simpl.
    + intros [<- | H]; [right; now left | ].
      destruct (IH H) as [-> | H']; [now left | right; now right].
    + intros [<- | H]; [now left | now right].
Qed.

Lemma insert_desc_sorted (x : string * float) (l : list (string * float)) :
  StronglySorted (ranks scores) l ->
  In x scores -> incl l scores ->
  (forall y, In y l -> Before scores x y) ->
  StronglySorted (ranks scores) (insert_desc x l).
Proof.
  induction 1 as [ | y l Hsorted IH Hall]; intros Hx Hl Hbefore; simpl.
  - constructor; constructor.
  - pose proof (score_defined x Hx) as Dx.
    pose proof (score_defined y (Hl y (or_introl eq_refl))) as Dy.
    destruct (ltb (snd x) (snd y)) eqn:Hlt.
    + constructor.
      * apply IH; [exact Hx | | ].
        -- intros z Hz. apply Hl. now right.
        -- intros z Hz. apply Hbefore. now right.
      * apply List.Forall_forall. intros z Hz.
        destruct (insert_desc_In _ _ _ Hz) as [-> | Hz'].
        -- now left.
        -- rewrite List.Forall_forall in Hall. now apply Hall.
    + apply (ltb_false_fle _ _ Dx Dy) in Hlt. constructor.
      * now constructor.
      * apply List.Forall_forall. intros z Hz.
        pose proof (score_defined z (Hl z Hz)) as Dz.
        assert (Hzy : fle (snd z) (snd y)).
        { destruct Hz as [<- | Hz]; [now apply fle_refl | ].
          rewrite List.Forall_forall in Hall.
          destruct (Hall z Hz) as [H | [H _]];
            [apply flt_fle | apply feq_fle, feq_sym]; assumption. }
        destruct (ltb (snd z) (snd x)) eqn:Hzx; [now left | ].
        apply (ltb_false_fle _ _ Dz Dx) in Hzx.
        right. split; [ | now apply Hbefore].
        apply fle_antisym; [assumption .. | ].
        apply fle_trans with (snd y); assumption.
Qed.

Lemma sorted_desc_In (l : list (string * float)) (z : string * float) :
  In z (sorted_desc l) -> In z l.
Proof.
  induction l as [ | x l IH]; simpl; [tauto | ].
  intros H. destruct (insert_desc_In _ _ _ H) as [-> | H'];
    [now left | right; now apply IH].
Qed.

Lemma sorted_desc_suffix (l pre : list (string * float)) :
  scores = (pre ++ l)%list -> StronglySorted (ranks scores) (sorted_desc l).
Proof.
  revert pre. induction l as [ | x l IH]; intros pre Hsplit; simpl.
  - constructor.
  - apply insert_desc_sorted.
    + apply (IH (pre ++ [x])%list). now rewrite <- app_assoc.
    + rewrite Hsplit. apply in_or_app. right. now left.
    + intros y Hy. apply sorted_desc_In in Hy. rewrite Hsplit.
      apply in_or_app. right. now right.
    + intros y Hy. apply sorted_desc_In, in_split in Hy.
      destruct Hy as (a & b & ->). now exists pre, a, b.
Qed.

Lemma sorted_desc_sorted :
  StronglySorted (ranks scores) (sorted_desc scores).
Proof. now apply (sorted_desc_suffix scores []). Qed.

End Ranking.

Lemma StronglySorted_filter {A : Type} (R : A -> A -> Prop) (f : A -> bool)
  (l : list A) :
  StronglySorted R l -> StronglySorted R (List.filter f l).
Proof.
  induction 1 as [ | x l Hs IH Hall]; simpl; [constructor | ].
  destruct (f x); [ | exact IH]. constructor; [exact IH | ].
  rewrite List.Forall_forall in *. intros y Hy.
  apply List.filter_In in Hy. now apply Hall.
Qed.

Lemma StronglySorted_firstn {A : Type} (R : A -> A -> Prop) (n : nat)
  (l : list A) :
  StronglySorted R l -> StronglySorted R (firstn n l).
Proof.
  intros Hs. revert n. induction Hs as [ | x l Hs IH Hall]; intros n.
  - rewrite firstn_nil. constructor.
  - destruct n; simpl; constructor; [apply IH | ].
    rewrite List.Forall_forall in *. intros y Hy.
    apply Hall. eapply firstn_In. exact Hy.
Qed.

(** How an entry of the library and its item of [expert_scores] relate. *)
Definition scored (self : MetaOrchestrator) (request : string)
  (ctx : SessionContext) (entry : string * ExpertData)
  (item : string * float) : Prop :=
  fst item = fst entry
  /\ exists raw,
       _calculate_expert_score request (snd entry) ctx = Ok raw
       /\ raw = min (weighted_sum request (snd entry) ctx) one
       /\ fle zero raw /\ fle raw one
       /\ snd item
          = match expert_performance self !! fst entry with
            | Some perf => raw * performance_modifier perf
            | None => raw
            end.

Lemma adjusted_scores_spec (self : MetaOrchestrator) (request : string)
  (session_id : option string) :
  library_wf (expert_library self) ->
  exists scores,
    adjusted_scores self request session_id = Ok scores
    /\ Forall2 (scored self request (session_context_of self session_id))
         (expert_library self) scores
    /\ (finite_modifiers self ->
        Forall (fun item => is_nan (snd item) = false) scores).
Proof.
  unfold adjusted_scores, library_wf.
  set (ctx := session_context_of self session_id).
  generalize (expert_library self) as library.
  induction library as [ | [n d] library IH]; intros Hwf.
  - exists []. split; [reflexivity | ]. split; constructor.
  - apply List.Forall_cons_iff in Hwf. destruct Hwf as [[Hk Hc] Hwf].
    destruct (IH Hwf) as (scores & Hscores & Hall & Hdef).
    destruct (expert_score_spec request d ctx Hk Hc)
      as (raw & Hraw & Heq & H0 & H1 & Hnum).
    simpl. simpl in Hraw. rewrite Hraw. cbn [bind].
    destruct (Decomposer.mapM _ library) as [items | e];
      [ | discriminate].
    cbn [bind] in *. injection Hscores as <-.
    eexists. split; [reflexivity | ].
    simpl. split.
    + constructor; [ | exact Hall].
      split; [now destruct (expert_performance self !! n) | ].
      exists raw. simpl. repeat split; try assumption.
      now destruct (expert_performance self !! n).
    + intros Hfin. constructor; [ | now apply Hdef].
      destruct (expert_performance self !! n) as [perf | ] eqn:E; simpl.
      * apply mul_not_nan; [exact Hnum | now apply (Hfin n)].
      * now apply number_not_nan.
Qed.

(** A worker without keywords or without capabilities makes the scoring
    loop divide by zero. *)
Lemma adjusted_scores_raise (self : MetaOrchestrator) (request : string)
  (session_id : option string) :
  ~ library_wf (expert_library self) ->
  adjusted_scores self request session_id = Raise ZeroDivisionError.
Proof.
  unfold adjusted_scores, library_wf.
  set (ctx := session_context_of self session_id).
  generalize (expert_library self) as library.
  induction library as [ | [n d] library IH]; intros Hwf.
  - contradiction Hwf. constructor.
  - simpl. unfold _calculate_expert_score at 1, true_div.
    destruct (keywords d) as [ | k ks] eqn:Ek; [reflexivity | ].
    destruct (capabilities d) as [ | c cs] eqn:Ec; [reflexivity | ].
    simpl. cbn [bind].
    assert (Hrest :
      ~ Forall (fun entry => keywords (snd entry) <> []
                             /\ capabilities (snd entry) <> []) library).
    { intros H. apply Hwf. constructor; [ | exact H].
      simpl. rewrite Ek, Ec. split; discriminate. }
    specialize (IH Hrest).
    destruct (Decomposer.mapM _ library) as [items | e]; cbn [bind] in *;
      [discriminate | exact IH].
Qed.

(** C3.  For every state of the orchestrator, request and session:
    - if some worker of the library has no keyword or no capability tag,
      [select_experts] raises [ZeroDivisionError];
    - otherwise it returns at most 5 workers, each of them a worker of the
      library whose performance-adjusted score is strictly greater than
      0.3.  The adjusted score of a worker is its raw score when it has no
      performance record and the raw score times the performance modifier
      otherwise; the raw score is 0.4 * keyword ratio + 0.3 * capability
      ratio + 0.2 * context bonus + 0.1 * recent-usage bonus, accumulated
      in binary64, cut at 1, and lies in [0,1].  When no stored modifier
      is infinite or NaN, the returned workers come in non-increasing
      score order, and of two with equal scores the one registered first
      comes first. *)
Theorem select_experts_spec (self : MetaOrchestrator) (request : string)
  (session_id : option string) :
  (~ library_wf (expert_library self) ->
   select_experts self request session_id = Raise ZeroDivisionError)
  /\ (library_wf (expert_library self) ->
      exists (scores ranked : list (string * float)),
        adjusted_scores self request session_id = Ok scores
        /\ Forall2 (scored self request (session_context_of self session_id))
             (expert_library self) scores
        /\ select_experts self request session_id = Ok (map fst ranked)
        /\ (List.length ranked <= 5)%nat
        /\ incl ranked scores
        /\ Forall (fun item => flt threshold (snd item)) ranked
        /\ (finite_modifiers self -> StronglySorted (ranks scores) ranked)).
Proof.
  split.
  { intros Hwf. unfold select_experts.
    now rewrite (adjusted_scores_raise self request session_id Hwf). }
  intros Hwf.
  destruct (adjusted_scores_spec self request session_id Hwf)
    as (scores & Hscores & Hall & Hdef).
  exists scores,
    (firstn 5
       (List.filter (fun item => ltb threshold (snd item))
          (sorted_desc scores))).
  split; [exact Hscores | ]. split; [exact Hall | ].
  split.
  { unfold select_experts. rewrite Hscores. cbn [bind].
    now rewrite firstn_map. }
  split; [apply firstn_le_length | ].
  split.
  { intros item Hin. apply firstn_In, List.filter_In in Hin.
    now apply sorted_desc_In. }
  split.
  { apply List.Forall_forall. intros item Hin.
    apply firstn_In, List.filter_In in Hin. apply Hin. }
  intros Hfin.
  apply StronglySorted_firstn, StronglySorted_filter, sorted_desc_sorted.
  now apply Hdef.
Qed.

(** An orchestrator with the built-in library, no session, and the record
    that [_update_performance_metrics] creates for a worker's first task. *)
Definition first_task_record : ExpertPerformance :=
  {| response_quality := lit 45 10; task_completion_rate := lit 95 1;
     user_satisfaction := lit 44 10; collaboration_score := lit 46 10;
     switching_efficiency := lit 90 1; total_tasks := 1 |}.

Definition sample_orchestrator : MetaOrchestrator :=
  {| active_sessions := ∅;
     expert_performance := {[ "docker-expert" := first_task_record ]};
     expert_library := _load_expert_library |}.

Definition vue_and_angular : string :=
  "vue v-model vuex vue router angular modules services decorators dependency".

(** Two workers with the same score 0.7 come out in registry order. *)
Example select_experts_tie :
  select_experts sample_orchestrator vue_and_angular None
  = Ok ["vue-expert"; "angular-expert"].
Proof. vm_compute. reflexivity. Qed.

(** Rounding decides at the threshold: three keywords of four give
    [0.75 * 0.4 = 0.30000000000000004], which is above [0.3]. *)
Example select_experts_at_threshold :
  select_experts sample_orchestrator "postgres psql" None
  = Ok ["postgres-expert"].
Proof. vm_compute. reflexivity. Qed.

(** Rounding decides the order: the later worker's score is one unit in
    the last place above the earlier worker's. *)
Example select_experts_order_by_rounding :
  select_experts sample_orchestrator
    "decorators django angular python services fastapi modules" None
  = Ok ["python-expert"; "angular-expert"].
Proof. vm_compute. reflexivity. Qed.

Lemma sample_orchestrator_wf : library_wf (expert_library sample_orchestrator).
Proof.
  unfold library_wf. simpl.
  repeat (apply List.Forall_cons; [split; discriminate | ]).
  apply List.Forall_nil.
Qed.

Lemma sample_orchestrator_finite : finite_modifiers sample_orchestrator.
Proof.
  intros n perf H. unfold sample_orchestrator in H. simpl in H.
  apply lookup_singleton_Some in H. destruct H as [_ <-].
  vm_compute. reflexivity.
Qed.

Lemma select_experts_spec_witness :
  library_wf (expert_library sample_orchestrator)
  /\ finite_modifiers sample_orchestrator
  /\ exists scores ranked : list (string * float),
       select_experts sample_orchestrator vue_and_angular None
       = Ok (map fst ranked)
       /\ (List.length ranked <= 5)%nat
       /\ Forall (fun item => flt threshold (snd item)) ranked
       /\ StronglySorted (ranks scores) ranked.
Proof.
  split; [exact sample_orchestrator_wf | ].
  split; [exact sample_orchestrator_finite | ].
  destruct (select_experts_spec sample_orchestrator vue_and_angular None)
    as [_ H].
  destruct (H sample_orchestrator_wf)
    as (scores & ranked & _ & _ & Hsel & Hlen & _ & Hthr & Hsorted).
  exists scores, ranked. repeat split; try assumption.
  apply Hsorted. exact sample_orchestrator_finite.
Defined.

End SelectorProofs.

(** ** Rate limiter *)

Module RateLimitProofs.

Import RateLimit.
Local Open Scope Z_scope.

Lemma requests_of_insert (rl : gmap string (list Z)) (client : string)
  (l : list Z) :
  requests_of (<[client := l]> rl) client = l.
Proof. unfold requests_of. now rewrite lookup_insert_eq. Qed.

Lemma requests_of_insert_ne (rl : gmap string (list Z))
  (client other : string) (l : list Z) :
  client <> other ->
  requests_of (<[client := l]> rl) other = requests_of rl other.
Proof. intros H. unfold requests_of. now rewrite lookup_insert_ne. Qed.

(** One check leaves at most 100 timestamps where there were at most 100. *)
Lemma check_rate_limit_bound (now : Z) (client other : string)
  (rl : gmap string (list Z)) :
  (List.length (requests_of rl other) <= 100)%nat ->
  (List.length (requests_of (fst (check_rate_limit now client rl)) other)
   <= 100)%nat.
Proof.
  intros Hbound. unfold check_rate_limit.
  set (kept := List.filter _ (requests_of rl client)).
  destruct (String.eqb_spec client other) as [<- | Hne].
  - assert (Hkept : (List.length kept <= 100)%nat).
    { etransitivity; [apply List.filter_length_le | exact Hbound]. }
    destruct (Nat.leb_spec 100 (List.length kept)); simpl;
      rewrite requests_of_insert; [exact Hkept | ].
    rewrite length_app. simpl. lia.
  - destruct (100 <=? List.length kept)%nat; simpl;
      now rewrite requests_of_insert_ne.
Qed.

(** X3.  Whatever checks have been made, for whatever clients and at
    whatever times, no client has more than 100 timestamps stored. *)
Theorem rate_limit_never_stores_more_than_100 (calls : list (string * Z))
  (client : string) :
  (List.length (requests_of (after_checks calls) client) <= 100)%nat.
Proof.
  unfold after_checks.
  induction calls as [ | call calls IH] using rev_ind.
  - unfold requests_of. simpl. rewrite lookup_empty. simpl. lia.
  - rewrite fold_left_app. simpl. now apply check_rate_limit_bound.
Qed.

(** Within a minute of a stored timestamp the seconds field is below 60. *)
Lemma within_window (now t : Z) :
  t <= now -> now - t < 60000000 ->
  (Resilience.timedelta_seconds now t <? 60) = true.
Proof.
  intros Hle Hlt. apply Z.ltb_lt. unfold Resilience.timedelta_seconds.
  assert (H0 : 0 <= (now - t) / 1000000) by (apply Z.div_pos; lia).
  assert (H1 : (now - t) / 1000000 < 60)
    by (apply Z.div_lt_upper_bound; lia).
  rewrite Z.mod_small; lia.
Qed.

Lemma filter_all {A : Type} (f : A -> bool) (l : list A) :
  (forall x, In x l -> f x = true) -> List.filter f l = l.
Proof.
  induction l as [ | x l IH]; intros H; simpl; [reflexivity | ].
  rewrite (H x (or_introl eq_refl)). f_equal. apply IH.
  intros y Hy. apply H. now right.
Qed.

Lemma sorted_before (done rest : list Z) (now t : Z) :
  StronglySorted Z.le (done ++ now :: rest) -> In t done -> t <= now.
Proof.
  induction done as [ | d done IH]; intros Hsorted Ht; [destruct Ht | ].
  simpl in Hsorted. apply StronglySorted_inv in Hsorted.
  destruct Hsorted as [Hs Hall]. destruct Ht as [<- | Ht].
  - rewrite List.Forall_forall in Hall. apply Hall.
    apply in_or_app. right. now left.
  - now apply IH.
Qed.

(** The answers to a run of checks whose clock readings are in order and
    span less than a minute, when [done] have been answered already. *)
Lemma answers_in_window (client : string) (t0 : Z) (rest : list Z) :
  forall (done : list Z) (rl : gmap string (list Z)),
    requests_of rl client = firstn 100 done ->
    StronglySorted Z.le (done ++ rest) ->
    (forall t, In t (done ++ rest) -> t0 <= t < t0 + 60000000) ->
    answers client rest rl
    = map (fun i => (i <? 100)%nat)
        (seq (List.length done) (List.length rest)).
Proof.
  induction rest as [ | now rest IH]; intros done rl Hreq Hsorted Hwin.
  - reflexivity.
  - simpl. unfold check_rate_limit. rewrite Hreq.
    assert (Hkeep :
      List.filter (fun req_time => Resilience.timedelta_seconds now req_time <? 60)
        (firstn 100 done) = firstn 100 done).
    { apply filter_all. intros t Ht. apply ListFacts.firstn_In in Ht.
      assert (Hnow : t0 <= now < t0 + 60000000)
        by (apply Hwin, in_or_app; right; now left).
      assert (Ht0 : t0 <= t < t0 + 60000000)
        by (apply Hwin, in_or_app; now left).
      apply within_window; [ | lia].
      now apply (sorted_before done rest). }
    rewrite Hkeep.
    assert (Hnext : StronglySorted Z.le ((done ++ [now]) ++ rest))
      by (now rewrite <- app_assoc).
    assert (Hwin' : forall t, In t ((done ++ [now]) ++ rest) ->
                              t0 <= t < t0 + 60000000)
      by (intros t Ht; apply Hwin; now rewrite <- app_assoc in Ht).
    rewrite length_firstn.
    destruct (Nat.leb_spec 100 (Nat.min 100 (List.length done)))
      as [Hfull | Hroom]; simpl.
    + destruct (Nat.ltb_spec (List.length done) 100) as [H | H]; [lia | ].
      f_equal. rewrite (IH (done ++ [now])%list); try assumption.
      * rewrite length_app. simpl. now rewrite Nat.add_1_r.
      * rewrite requests_of_insert, firstn_app.
        replace (100 - List.length done)%nat with 0%nat by lia.
        simpl. now rewrite app_nil_r.
    + destruct (Nat.ltb_spec (List.length done) 100) as [H | H]; [ | lia].
      f_equal. rewrite (IH (done ++ [now])%list); try assumption.
      * rewrite length_app. simpl. now rewrite Nat.add_1_r.
      * rewrite requests_of_insert.
        rewrite !firstn_all2; [reflexivity | | lia].
        rewrite length_app. simpl. lia.
Qed.

(** X4.  For a client without stored requests, and checks whose clock
    readings are in order and all lie within one window of 60 seconds: the
    first 100 checks are accepted and every later one is rejected. *)
Theorem rate_limit_accepts_first_100 (client : string) (t0 : Z)
  (times : list Z) (rl : gmap string (list Z)) :
  rl !! client = None ->
  StronglySorted Z.le times ->
  (forall t, In t times -> t0 <= t < t0 + 60000000) ->
  answers client times rl
  = map (fun i => (i <? 100)%nat) (seq 0 (List.length times)).
Proof.
  intros Hnone Hsorted Hwin.
  apply (answers_in_window client t0 times [] rl); try assumption.
  unfold requests_of. now rewrite Hnone.
Qed.

Lemma rate_limit_accepts_first_100_witness :
  answers "client-1" [0; 1000000; 59000000] ∅ = [true; true; true].
Proof.
  refine (rate_limit_accepts_first_100 "client-1" 0 [0; 1000000; 59000000]
            ∅ _ _ _).
  - apply lookup_empty.
  - repeat constructor; lia.
  - intros t Ht. simpl in Ht.
    destruct Ht as [<- | [<- | [<- | []]]]; lia.
Defined.

End RateLimitProofs.

(** ** Circuit breaker: recovery and independence *)

Module BreakerHistoryProofs.

Import Resilience ResilienceProofs.
Local Open Scope Z_scope.

Lemma recorded_failures_app (expert_name : string)
  (history more : list Event) :
  recorded_failures expert_name (history ++ more)
  = (recorded_failures expert_name history
     + recorded_failures expert_name more)%nat.
Proof. unfold recorded_failures. now rewrite List.filter_app, length_app. Qed.

(** X5.  A breaker that has left the closed state never returns to it:
    no call of either method closes it again, nor lowers its failure
    counter, however long the worker then behaves. *)
Theorem breaker_never_closes_again (history more : list Event)
  (expert_name : string) :
  state (breaker_of (after history) expert_name) <> closed ->
  state (breaker_of (after (history ++ more)) expert_name) <> closed
  /\ (failures (breaker_of (after history) expert_name)
      <= failures (breaker_of (after (history ++ more)) expert_name))%nat.
Proof.
  intros Hopen.
  destruct (breaker_invariant history expert_name) as [Hf Hs].
  destruct (breaker_invariant (history ++ more) expert_name) as [Hf' Hs'].
  rewrite recorded_failures_app in Hf'.
  split; [ | lia].
  intros Hclosed. apply Hs' in Hclosed. apply Hopen, Hs. lia.
Qed.

Lemma breaker_never_closes_again_witness :
  state
    (breaker_of
       (after (three_failures ++ [Check "react-expert" 61000000;
                                  Check "react-expert" 900000000]))
       "react-expert") <> closed.
Proof.
  refine (proj1 (breaker_never_closes_again three_failures
                   [Check "react-expert" 61000000;
                    Check "react-expert" 900000000] "react-expert" _)).
  vm_compute. discriminate.
Defined.

Definition concerns (expert_name : string) (ev : Event) : bool :=
  match ev with
  | Check n _ => String.eqb n expert_name
  | Failure n _ => String.eqb n expert_name
  end.

(** A call changes the breaker of its worker as a function of that breaker
    alone. *)
Lemma step_own (cb1 cb2 : gmap string Breaker) (ev : Event)
  (expert_name : string) :
  concerns expert_name ev = true ->
  breaker_of cb1 expert_name = breaker_of cb2 expert_name ->
  breaker_of (step cb1 ev) expert_name = breaker_of (step cb2 ev) expert_name.
Proof.
  intros Hc Heq. destruct ev as [n t | n t]; simpl in Hc;
    apply String.eqb_eq in Hc; subst n; simpl.
  - unfold check_circuit_breaker. rewrite Heq.
    destruct (state (breaker_of cb2 expert_name)); simpl;
      rewrite ?breaker_of_insert; try reflexivity.
    destruct (last_failure (breaker_of cb2 expert_name)); simpl;
      rewrite ?breaker_of_insert; try reflexivity.
    destruct (60 <? timedelta_seconds t z); simpl;
      now rewrite !breaker_of_insert.
  - unfold record_failure. now rewrite !breaker_of_insert, Heq.
Qed.

Lemma step_other (cb : gmap string Breaker) (ev : Event)
  (expert_name : string) :
  concerns expert_name ev = false ->
  breaker_of (step cb ev) expert_name = breaker_of cb expert_name.
Proof.
  intros Hc. destruct ev as [n t | n t]; simpl in Hc;
    apply String.eqb_neq in Hc; simpl.
  - now apply check_other.
  - unfold record_failure. now apply breaker_of_insert_ne.
Qed.

(** X6.  The breaker of a worker depends on the calls made for that worker
    only: the calls made for other workers can be dropped from the history
    without changing it. *)
Theorem breaker_independent_of_other_workers (history : list Event)
  (expert_name : string) :
  breaker_of (after history) expert_name
  = breaker_of (after (List.filter (concerns expert_name) history))
      expert_name.
Proof.
  unfold after. induction history as [ | ev history IH] using rev_ind.
  - reflexivity.
  - rewrite List.filter_app, !fold_left_app. simpl.
    destruct (concerns expert_name ev) eqn:Hc; simpl.
    + now apply step_own.
    + rewrite step_other by exact Hc. exact IH.
Qed.

End BreakerHistoryProofs.

(** ** Performance records *)

Module PerformanceProofs.

Import Float Selector Orchestration FloatFacts.

(** The record of a worker after its first task and [k] further ones. *)
Definition record_after (k : nat) : ExpertPerformance :=
  Nat.iter k improve initial_record.

(** The numbers of a record that change or enter the modifier. *)
Definition numbers (perf : ExpertPerformance)
  : float * float * float * float :=
  (response_quality perf, task_completion_rate perf,
   collaboration_score perf, switching_efficiency perf).

(** The bounds stated for a record, as a test. *)
Definition in_bounds (n : float * float * float * float) : bool :=
  let '(quality, completion, collaboration, switching) := n in
  let modifier :=
    performance_modifier
      {| response_quality := quality; task_completion_rate := completion;
         user_satisfaction := zero; collaboration_score := collaboration;
         switching_efficiency := switching; total_tasks := 0 |} in
  leb (lit 45 10) quality && leb quality (lit 5 1)
  && leb (lit 90 1) switching && leb switching (lit 100 1)
  && leb (lit 4877 10000) modifier && leb modifier (lit 5092 10000)
  && number modifier.

Lemma numbers_improve (p q : ExpertPerformance) :
  numbers p = numbers q -> numbers (improve p) = numbers (improve q).
Proof.
  unfold numbers. simpl. intros [= -> -> -> ->]. reflexivity.
Qed.

(** After 60 further tasks both capped numbers have reached their caps. *)
Lemma numbers_settled :
  numbers (record_after 61) = numbers (record_after 60).
Proof. vm_compute. reflexivity. Qed.

Lemma numbers_after (k : nat) :
  numbers (record_after k) = numbers (record_after (Nat.min k 60)).
Proof.
  induction k as [ | k IH]; [reflexivity | ].
  destruct (Nat.le_gt_cases 60 k) as [Hge | Hlt].
  - rewrite Nat.min_r in * by lia.
    change (record_after (S k)) with (improve (record_after k)).
    rewrite (numbers_improve _ _ IH). exact numbers_settled.
  - rewrite Nat.min_l by lia. reflexivity.
Qed.

Lemma in_bounds_first_61 :
  forallb (fun k => in_bounds (numbers (record_after k))) (seq 0 61) = true.
Proof. vm_compute. reflexivity. Qed.

Lemma in_bounds_after (k : nat) : in_bounds (numbers (record_after k)) = true.
Proof.
  rewrite numbers_after.
  pose proof in_bounds_first_61 as H. rewrite forallb_forall in H.
  apply H. apply in_seq. lia.
Qed.

Lemma total_tasks_after (k : nat) : total_tasks (record_after k) = S k.
Proof. induction k as [ | k IH]; [reflexivity | ]. simpl. now rewrite IH. Qed.

Lemma update_snoc (experts : list string) (expert : string)
  (performance : gmap string ExpertPerformance) :
  _update_performance_metrics (experts ++ [expert]) performance
  = let updated := _update_performance_metrics experts performance in
    match updated !! expert with
    | None => <[expert := initial_record]> updated
    | Some perf => <[expert := improve perf]> updated
    end.
Proof. unfold _update_performance_metrics. now rewrite fold_left_app. Qed.

(** The records after the updates for a list of worker names, started
    without records: a worker named [n + 1] times has the record of its
    first task improved [n] times. *)
Lemma update_records (experts : list string) (e : string) :
  _update_performance_metrics experts ∅ !! e
  = match count_occ string_dec experts e with
    | O => None
    | S n => Some (record_after n)
    end.
Proof.
  induction experts as [ | x experts IH] using rev_ind.
  - unfold _update_performance_metrics. simpl. now rewrite lookup_empty.
  - rewrite update_snoc. cbv zeta. rewrite count_occ_app. simpl.
    set (updated := _update_performance_metrics experts ∅) in *.
    destruct (string_dec x e) as [-> | Hne].
    + rewrite IH. rewrite Nat.add_1_r.
      destruct (count_occ string_dec experts e) as [ | n];
        now rewrite lookup_insert_eq.
    + rewrite Nat.add_0_r.
      destruct (updated !! x); now rewrite lookup_insert_ne.
Qed.

(** X7.  Starting without records, after the updates for any list of
    worker names: a worker has a record exactly if it is named in the
    list, the record's task count is the number of times it is named, its
    response quality stays within [4.5, 5] and its switching efficiency
    within [90, 100]; and the modifier the selector derives from such a
    record is a number between 0.4877 and 0.5092. *)
Theorem performance_records_after_updates (experts : list string)
  (e : string) :
  let performance := _update_performance_metrics experts ∅ in
  (performance !! e = None <-> ~ In e experts)
  /\ forall perf,
       performance !! e = Some perf ->
       total_tasks perf = count_occ string_dec experts e
       /\ fle (lit 45 10) (response_quality perf)
       /\ fle (response_quality perf) (lit 5 1)
       /\ fle (lit 90 1) (switching_efficiency perf)
       /\ fle (switching_efficiency perf) (lit 100 1)
       /\ fle (lit 4877 10000) (performance_modifier perf)
       /\ fle (performance_modifier perf) (lit 5092 10000)
       /\ number (performance_modifier perf) = true.
Proof.
  cbv zeta. rewrite update_records.
  destruct (count_occ string_dec experts e) as [ | n] eqn:E.
  - split; [ | discriminate].
    split; [ | reflexivity]. intros _.
    now apply (count_occ_not_In string_dec).
  - split.
    + split; [discriminate | ]. intros Hnot. exfalso.
      apply (count_occ_not_In string_dec) in Hnot. lia.
    + intros perf [= <-]. split; [apply total_tasks_after | ].
      pose proof (in_bounds_after n) as H.
      unfold in_bounds, numbers in H.
      change (performance_modifier _)
        with (performance_modifier (record_after n)) in H.
      repeat (apply andb_prop in H; destruct H as [H ?]).
      unfold fle. repeat split; assumption.
Qed.

(** Every record the orchestrator writes yields a modifier that is a
    number: the records are written by [_update_performance_metrics] alone,
    from an empty dictionary on. *)
Lemma finite_modifiers_after_updates (experts : list string)
  (sessions : gmap string ExpertMemory) (library : Library) :
  SelectorProofs.finite_modifiers
    {| active_sessions := sessions;
       expert_performance := _update_performance_metrics experts ∅;
       expert_library := library |}.
Proof.
  intros e perf. cbn [expert_performance]. rewrite update_records.
  destruct (count_occ string_dec experts e) as [ | n]; [discriminate | ].
  intros [= <-].
  pose proof (in_bounds_after n) as H.
  unfold in_bounds, numbers in H.
  change (performance_modifier _)
    with (performance_modifier (record_after n)) in H.
  now apply andb_prop in H.
Qed.

(** The first record's modifier is the number Python prints as 0.4877. *)
Example first_modifier :
  performance_modifier initial_record = lit 4877 10000.
Proof. vm_compute. reflexivity. Qed.

End PerformanceProofs.

(** ** Answering a request *)

Module OrchestrationProofs.

Import Selector Orchestration QFacts.
Local Open Scope Q_scope.

(** The session a request is booked on. *)
Definition session_key (fresh_id : string) (session_id : option string)
  : string :=
  match session_id with
  | Some s => if String.eqb s "" then fresh_id else s
  | None => fresh_id
  end.

(** The number of requests counted for a session so far. *)
Definition interactions (self : Orchestrator) (sid : string) : nat :=
  match active_sessions (core self) !! sid with
  | Some s => interaction_count s
  | None => 0
  end.

(** The state once the session has been created, if new, and the request
    counted. *)
Definition opened (sid : string) (self : Orchestrator) : Orchestrator :=
  with_sessions
    (alter count_interaction sid
       match active_sessions (core self) !! sid with
       | Some _ => active_sessions (core self)
       | None => <[sid := new_session]> (active_sessions (core self))
       end) self.

Lemma opened_session (sid : string) (self : Orchestrator) :
  exists s,
    active_sessions (core (opened sid self)) !! sid = Some s
    /\ interaction_count s = S (interactions self sid)
    /\ expertise_cache s
       = match active_sessions (core self) !! sid with
         | Some s0 => expertise_cache s0
         | None => empty_context
         end.
Proof.
  unfold opened, interactions. simpl. rewrite lookup_alter_eq.
  destruct (active_sessions (core self) !! sid) as [s0 | ] eqn:E.
  - rewrite E. simpl. eauto.
  - rewrite lookup_insert_eq. simpl. eauto.
Qed.

Lemma Qlt_bool_one (score : Q) : 1 < score -> Qlt_bool 1.0 score = true.
Proof.
  intros H. unfold Qlt_bool.
  destruct (Qle_bool score 1.0) eqn:E; [ | reflexivity].
  apply Qle_bool_iff in E. lra.
Qed.

Lemma Qlt_bool_not_one (score : Q) : score <= 1 -> Qlt_bool 1.0 score = false.
Proof.
  intros H. unfold Qlt_bool.
  destruct (Qle_bool score 1.0) eqn:E; [reflexivity | ].
  apply Qle_bool_false in E. lra.
Qed.

Section AnyReport.

Variable report :
  Orchestrator -> string -> list string -> Q -> OrchestrationPattern ->
  string -> option Decomposer.TaskDecomposition -> string.

(** X8.  For a request whose complexity score exceeds 1 and whose
    decomposition raises: [orchestrate_response] raises the same exception;
    by then the session has been created and the request counted, and
    nothing else has changed (no task queued, no performance record
    touched). *)
Theorem orchestrate_response_decomposition_error (fresh_id request : string)
  (verbose : bool) (session_id : option string) (self : Orchestrator)
  (e : Exception) :
  let score := fst (Complexity.analyze_complexity request) in
  let pattern := snd (Complexity.analyze_complexity request) in
  let sid := session_key fresh_id session_id in
  1 < score ->
  Decomposer.decompose_task (expert_library (core self)) request pattern
  = Raise e ->
  orchestrate_response report fresh_id request verbose session_id self
  = (Raise e, opened sid self)
  /\ interactions (opened sid self) sid = S (interactions self sid)
  /\ task_queue (opened sid self) = task_queue self
  /\ expert_performance (core (opened sid self))
     = expert_performance (core self).
Proof.
  cbv zeta. intros Hscore Hraise.
  split; [ | split; [ | split; reflexivity]].
  - unfold orchestrate_response.
    fold (session_key fresh_id session_id).
    fold (opened (session_key fresh_id session_id) self).
    destruct (Complexity.analyze_complexity request) as [score pattern].
    simpl in Hscore, Hraise. unfold plan_or_select.
    rewrite (Qlt_bool_one _ Hscore). simpl. now rewrite Hraise.
  - destruct (opened_session (session_key fresh_id session_id) self)
      as (s & Hs & Hcount & _).
    unfold interactions at 1. now rewrite Hs.
Qed.

(** X9.  For a request whose complexity score exceeds 1 and whose
    decomposition is built: [orchestrate_response] returns, the experts of
    the answer are the decomposition's required experts, and the
    decomposition has been appended to the task queue twice. *)
Theorem orchestrate_response_queues_twice (fresh_id request : string)
  (verbose : bool) (session_id : option string) (self : Orchestrator)
  (td : Decomposer.TaskDecomposition) :
  let score := fst (Complexity.analyze_complexity request) in
  let pattern := snd (Complexity.analyze_complexity request) in
  1 < score ->
  Decomposer.decompose_task (expert_library (core self)) request pattern
  = Ok td ->
  exists (answer : Answer) (self' : Orchestrator),
    orchestrate_response report fresh_id request verbose session_id self
    = (Ok answer, self')
    /\ task_queue self' = (task_queue self ++ [td; td])%list
    /\ selected_experts answer = Decomposer.required_experts td
    /\ task_decomposition answer = Some td
    /\ answer_pattern answer = pattern_value pattern.
Proof.
  cbv zeta. intros Hscore Hbuilt.
  unfold orchestrate_response.
  fold (session_key fresh_id session_id).
  fold (opened (session_key fresh_id session_id) self).
  destruct (Complexity.analyze_complexity request) as [score pattern].
  simpl in Hscore, Hbuilt. unfold plan_or_select.
  rewrite (Qlt_bool_one _ Hscore). simpl. rewrite Hbuilt. simpl.
  rewrite Hbuilt.
  eexists _, _. split; [reflexivity | ]. simpl.
  rewrite <- app_assoc. repeat split; reflexivity.
Qed.

Lemma select_experts_opened (sid request : string) (self : Orchestrator) :
  select_experts (core (opened sid self)) request (Some sid)
  = select_experts (core self) request (Some sid).
Proof.
  assert (Hctx : session_context_of (core (opened sid self)) (Some sid)
                 = session_context_of (core self) (Some sid)).
  { unfold session_context_of.
    destruct (String.eqb sid ""); [reflexivity | ].
    destruct (opened_session sid self) as (s & -> & _ & ->).
    reflexivity. }
  unfold select_experts, adjusted_scores. now rewrite Hctx.
Qed.

(** X10.  For a request whose complexity score is at most 1, on a library
    whose workers all have keywords and capabilities:
    [orchestrate_response] returns the experts chosen by [select_experts]
    for the session, reports no task decomposition and queues nothing.
    This includes the score 1.0 itself, for which the pattern reported is
    the sequential one. *)
Theorem orchestrate_response_simple_request (fresh_id request : string)
  (verbose : bool) (session_id : option string) (self : Orchestrator) :
  let score := fst (Complexity.analyze_complexity request) in
  let sid := session_key fresh_id session_id in
  score <= 1 ->
  SelectorProofs.library_wf (expert_library (core self)) ->
  exists (selected : list string) (answer : Answer) (self' : Orchestrator),
    select_experts (core self) request (Some sid) = Ok selected
    /\ orchestrate_response report fresh_id request verbose session_id self
       = (Ok answer, self')
    /\ selected_experts answer = selected
    /\ task_decomposition answer = None
    /\ task_queue self' = task_queue self
    /\ (score == 1 -> answer_pattern answer = "sequential").
Proof.
  cbv zeta. intros Hscore Hwf.
  set (sid := session_key fresh_id session_id).
  destruct (SelectorProofs.adjusted_scores_spec (core self) request
              (Some sid) Hwf) as (scores & Hscores & _).
  assert (Hsel : exists selected,
            select_experts (core self) request (Some sid) = Ok selected).
  { unfold select_experts. rewrite Hscores. simpl. eauto. }
  destruct Hsel as [selected Hsel]. exists selected.
  unfold orchestrate_response.
  fold (session_key fresh_id session_id). fold sid. fold (opened sid self).
  pose proof (ComplexityProofs.score_of_nonneg
                (Complexity.complexity_indicators request)) as Hnonneg.
  unfold Complexity.analyze_complexity in *.
  fold (Complexity.complexity_score request) in Hnonneg.
  set (score := Complexity.complexity_score request) in *.
  assert (H3 : Qle_bool 3 score = false).
  { destruct (Qle_bool 3 score) eqn:E; [ | reflexivity].
    apply Qle_bool_iff in E.
    destruct (Qle_bool 2 score), (Qle_bool 1 score); simpl in Hscore; lra. }
  assert (H2 : Qle_bool 2 score = false).
  { destruct (Qle_bool 2 score) eqn:E; [ | reflexivity].
    apply Qle_bool_iff in E. rewrite H3 in Hscore.
    destruct (Qle_bool 1 score); simpl in Hscore; lra. }
  rewrite H3, H2 in *.
  assert (Hle : score <= 1)
    by (destruct (Qle_bool 1 score); simpl in Hscore; exact Hscore).
  assert (Hplan : forall pattern st,
            core st = core (opened sid self) ->
            plan_or_select request sid score pattern st
            = (Ok (None, selected), st)).
  { intros pattern st Hcore. unfold plan_or_select.
    rewrite (Qlt_bool_not_one _ Hle), Hcore, select_experts_opened, Hsel.
    reflexivity. }
  destruct (Qle_bool 1 score) eqn:E1.
  - rewrite !Hplan by reflexivity. rewrite (Qlt_bool_not_one _ Hle).
    eexists _, _. repeat split; try reflexivity. exact Hsel.
  - rewrite !Hplan by reflexivity. rewrite (Qlt_bool_not_one _ Hle).
    eexists _, _. repeat split; try reflexivity; [exact Hsel | ].
    intros H1. apply Qle_bool_false in E1. exfalso.
    rewrite H1 in E1. now apply (Qlt_irrefl 1).
Qed.

Lemma plan_or_select_core (request sid : string) (score : Q)
  (pattern : OrchestrationPattern) (self self' : Orchestrator)
  (outcome : PyResult (option Decomposer.TaskDecomposition * list string)) :
  plan_or_select request sid score pattern self = (outcome, self') ->
  core self' = core self /\ last_expert self' = last_expert self.
Proof.
  unfold plan_or_select.
  destruct (Qlt_bool 1.0 score).
  - destruct (Decomposer.decompose_task _ request pattern);
      intros [= _ <-]; split; reflexivity.
  - destruct (select_experts (core self) request (Some sid));
      intros [= _ <-]; split; reflexivity.
Qed.

Lemma last_five_length {A : Type} (xs : list A) :
  (List.length (last_five xs) <= 5)%nat.
Proof. unfold last_five. rewrite length_skipn. lia. Qed.

Lemma update_keeps_records (experts : list string)
  (performance : gmap string ExpertPerformance) (e : string) :
  is_Some (performance !! e) ->
  is_Some (_update_performance_metrics experts performance !! e).
Proof.
  revert performance. induction experts as [ | x experts IH];
    intros performance H; [exact H | ].
  unfold _update_performance_metrics. simpl. apply IH.
  destruct (performance !! x) eqn:E;
    (destruct (string_dec x e) as [-> | Hne];
     [rewrite lookup_insert_eq; eauto | now rewrite lookup_insert_ne]).
Qed.

Lemma update_records_selected (experts : list string)
  (performance : gmap string ExpertPerformance) (e : string) :
  In e experts ->
  is_Some (_update_performance_metrics experts performance !! e).
Proof.
  revert performance. induction experts as [ | x experts IH];
    intros performance Hin; [destruct Hin | ].
  destruct Hin as [-> | H].
  - unfold _update_performance_metrics. simpl. apply update_keeps_records.
    destruct (performance !! e); rewrite lookup_insert_eq; eauto.
  - unfold _update_performance_metrics. simpl. now apply IH.
Qed.

(** X11.  Whenever [orchestrate_response] returns an answer: the session of
    the answer exists, its interaction count is one more than before, its
    list of recent experts holds at most 5 names, its last expert is the
    first selected expert, or ["frontend-design"] when none was selected,
    and every selected expert has a performance record. *)
Theorem orchestrate_response_bookkeeping (fresh_id request : string)
  (verbose : bool) (session_id : option string) (self self' : Orchestrator)
  (answer : Answer) :
  orchestrate_response report fresh_id request verbose session_id self
  = (Ok answer, self') ->
  let sid := answer_session_id answer in
  sid = session_key fresh_id session_id
  /\ (exists (s : ExpertMemory) (recent : list string),
        active_sessions (core self') !! sid = Some s
        /\ interaction_count s = S (interactions self sid)
        /\ recent_experts (expertise_cache s) = Some recent
        /\ (List.length recent <= 5)%nat)
  /\ last_expert self' !! sid
     = Some (primary_expert (selected_experts answer))
  /\ forall e, In e (selected_experts answer) ->
               is_Some (expert_performance (core self') !! e).
Proof.
  unfold orchestrate_response.
  fold (session_key fresh_id session_id).
  set (sid := session_key fresh_id session_id).
  fold (opened sid self).
  destruct (Complexity.analyze_complexity request) as [score pattern].
  destruct (plan_or_select request sid score pattern (opened sid self))
    as [[planned | e] st1] eqn:H1; [ | discriminate].
  destruct (plan_or_select request sid score pattern st1)
    as [[[td selected] | e] st2] eqn:H2; [ | discriminate].
  apply plan_or_select_core in H1, H2.
  destruct H1 as [Hc1 Hl1], H2 as [Hc2 Hl2].
  intros [= <- <-]. cbv zeta. simpl.
  split; [reflexivity | ].
  split; [ | split].
  - rewrite lookup_alter_eq, Hc2, Hc1.
    destruct (opened_session sid self) as (s & -> & Hcount & _).
    simpl. eexists _, _. split; [reflexivity | ].
    split; [exact Hcount | ]. split; [reflexivity | ].
    apply last_five_length.
  - now rewrite lookup_insert_eq.
  - intros e He. now apply update_records_selected.
Qed.

End AnyReport.

(** A report that says nothing, to run the method. *)
Definition silent_report (self : Orchestrator) (request : string)
  (selected : list string) (score : Q) (pattern : OrchestrationPattern)
  (sid : string) (td : option Decomposer.TaskDecomposition) : string := "".

Definition dashboard_request : string :=
  "Build a React dashboard with a Python backend, a Postgres database, and deploy via Docker".

Definition small_system_request : string :=
  "build a react api system application".

Lemma orchestrate_response_decomposition_error_witness :
  orchestrate_response silent_report "session-1" dashboard_request false None
    new_orchestrator
  = (Raise (KeyError "id"), opened "session-1" new_orchestrator).
Proof.
  refine
    (proj1
       (orchestrate_response_decomposition_error silent_report "session-1"
          dashboard_request false None new_orchestrator (KeyError "id") _ _)).
  - vm_compute. reflexivity.
  - vm_compute. reflexivity.
Defined.

Lemma orchestrate_response_queues_twice_witness :
  exists (answer : Answer) (self' : Orchestrator),
    orchestrate_response silent_report "session-1" small_system_request
      false None new_orchestrator = (Ok answer, self')
    /\ List.length (task_queue self') = 2%nat
    /\ selected_experts answer = ["react-expert"].
Proof.
  destruct (Decomposer.decompose_task _load_expert_library
              small_system_request SEQUENTIAL) as [td | e] eqn:Htd;
    [ | vm_compute in Htd; discriminate].
  destruct (orchestrate_response_queues_twice silent_report "session-1"
              small_system_request false None new_orchestrator td)
    as (answer & self' & Hrun & Hqueue & Hsel & _).
  - vm_compute. reflexivity.
  - exact Htd.
  - exists answer, self'. split; [exact Hrun | ].
    split; [now rewrite Hqueue | ].
    rewrite Hsel. vm_compute in Htd. now injection Htd as <-.
Defined.

Lemma orchestrate_response_simple_request_witness :
  exists (answer : Answer) (self' : Orchestrator),
    orchestrate_response silent_report "session-1" "build a react system api"
      false None new_orchestrator = (Ok answer, self')
    /\ task_decomposition answer = None
    /\ answer_pattern answer = "sequential".
Proof.
  destruct (orchestrate_response_simple_request silent_report "session-1"
              "build a react system api" false None new_orchestrator)
    as (selected & answer & self' & _ & Hrun & _ & Hnone & _ & Hpat).
  - vm_compute. discriminate.
  - unfold SelectorProofs.library_wf. simpl.
    repeat (apply List.Forall_cons; [split; discriminate | ]).
    apply List.Forall_nil.
  - exists answer, self'. split; [exact Hrun | ]. split; [exact Hnone | ].
    apply Hpat. vm_compute. reflexivity.
Defined.

Lemma orchestrate_response_bookkeeping_witness :
  exists (answer : Answer) (self' : Orchestrator),
    orchestrate_response silent_report "session-1" "hello" false None
      new_orchestrator = (Ok answer, self')
    /\ last_expert self' !! answer_session_id answer = Some "frontend-design".
Proof.
  destruct (orchestrate_response silent_report "session-1" "hello" false None
              new_orchestrator) as [[answer | e] self'] eqn:Hrun;
    [ | vm_compute in Hrun; discriminate].
  exists answer, self'. split; [reflexivity | ].
  destruct (orchestrate_response_bookkeeping silent_report "session-1"
              "hello" false None new_orchestrator self' answer Hrun)
    as (_ & _ & Hlast & _).
  rewrite Hlast. vm_compute in Hrun. now injection Hrun as <- _.
Defined.

End OrchestrationProofs.

(** ** Custom workers *)

Module CustomExpertProofs.

Import Selector Orchestration.
Local Open Scope Q_scope.

Lemma dict_set_In {V : Type} (key : string) (v : V)
  (d : list (string * V)) :
  In (key, v) (dict_set key v d).
Proof.
  induction d as [ | [k x] d IH]; simpl; [now left | ].
  destruct (String.eqb_spec k key) as [-> | _]; [now left | now right].
Qed.

Lemma dict_set_Forall {V : Type} (P : string * V -> Prop) (key : string)
  (v : V) (d : list (string * V)) :
  Forall P d -> P (key, v) -> Forall P (dict_set key v d).
Proof.
  intros Hd Hv. induction Hd as [ | [k x] d Hx Hd IH]; simpl.
  - constructor; [exact Hv | constructor].
  - destruct (String.eqb_spec k key) as [-> | _]; constructor;
      assumption.
Qed.

(** A new key goes to the end of the dictionary and leaves the entries
    before it as they were. *)
Lemma dict_set_fresh {V : Type} (key : string) (v : V)
  (d : list (string * V)) :
  ~ In key (map fst d) -> dict_set key v d = (d ++ [(key, v)])%list.
Proof.
  induction d as [ | [k x] d IH]; simpl; intros H; [reflexivity | ].
  destruct (String.eqb_spec k key) as [-> | _]; [tauto | ].
  f_equal. apply IH. tauto.
Qed.

(** The relevance score raises nothing but [ZeroDivisionError], and raises
    it for a worker without keywords or without capabilities. *)
Lemma expert_score_outcome (request : string) (d : ExpertData)
  (ctx : SessionContext) :
  (exists raw, _calculate_expert_score request d ctx = Ok raw)
  \/ _calculate_expert_score request d ctx = Raise ZeroDivisionError.
Proof.
  unfold _calculate_expert_score, true_div.
  destruct (Nat.eqb (List.length (keywords d)) 0); [now right | ].
  destruct (Nat.eqb (List.length (capabilities d)) 0); [now right | ].
  left. simpl. eauto.
Qed.

Lemma expert_score_empty (request : string) (d : ExpertData)
  (ctx : SessionContext) :
  keywords d = [] \/ capabilities d = [] ->
  _calculate_expert_score request d ctx = Raise ZeroDivisionError.
Proof.
  unfold _calculate_expert_score, true_div. intros [-> | H]; [reflexivity | ].
  destruct (Nat.eqb (List.length (keywords d)) 0); [reflexivity | ].
  now rewrite H.
Qed.

(** X12.  If some worker of the library has no keyword or no capability,
    [select_experts] raises [ZeroDivisionError] for every request and every
    session. *)
Theorem select_experts_division_by_zero (self : MetaOrchestrator)
  (request : string) (session_id : option string)
  (entry : string * ExpertData) :
  In entry (expert_library self) ->
  keywords (snd entry) = [] \/ capabilities (snd entry) = [] ->
  select_experts self request session_id = Raise ZeroDivisionError.
Proof.
  intros Hin Hempty.
  assert (Hscores :
    adjusted_scores self request session_id = Raise ZeroDivisionError).
  { unfold adjusted_scores.
    set (ctx := session_context_of self session_id).
    induction (expert_library self) as [ | [n d] library IH];
      [destruct Hin | ].
    simpl.
    destruct Hin as [<- | Hin].
    - simpl in Hempty. now rewrite (expert_score_empty request d ctx Hempty).
    - destruct (expert_score_outcome request d ctx) as [[raw ->] | ->];
        [ | reflexivity].
      simpl.
      destruct (Decomposer.mapM _ library) as [items | e]; simpl in *.
      + specialize (IH Hin). discriminate.
      + specialize (IH Hin). now injection IH as ->. }
  unfold select_experts. now rewrite Hscores.
Qed.

Definition no_skills : ExpertConfig :=
  {| cfg_name := "Helper"; cfg_skills := []; cfg_tools := ["wiki"];
     cfg_personality := "calm" |}.

Definition rust_config : ExpertConfig :=
  {| cfg_name := "Rustacean"; cfg_skills := ["rust"; "cargo"];
     cfg_tools := ["clippy"]; cfg_personality := "strict" |}.

Lemma select_experts_division_by_zero_witness :
  select_experts
    (core (snd (create_custom_expert "0a1b2c3d" no_skills new_orchestrator)))
    "build a react app" None
  = Raise ZeroDivisionError.
Proof.
  refine
    (select_experts_division_by_zero _ "build a react app" None
       ("custom_0a1b2c3d",
        {| name := Some "Helper"; domain := CUSTOM; keywords := [];
           capabilities := ["wiki"]; performance_baseline := 4.0 |}) _ _).
  - simpl. do 7 right. now left.
  - now left.
Defined.

(** X13.  [create_custom_expert] returns the id ["custom_" + hex] and
    stores the worker under it in the library and among the custom
    workers, with the skills as keywords and the tools as capabilities; a
    new id goes to the end of the library and leaves the registration order
    of the other workers as it was.  Selection stays defined exactly when
    it may: if skills and tools are not empty, a library whose workers all
    have keywords and capabilities stays so; if either is empty,
    [select_experts] raises [ZeroDivisionError] from then on. *)
Theorem create_custom_expert_spec (hex : string) (config : ExpertConfig)
  (self : Orchestrator) :
  let expert_id := fst (create_custom_expert hex config self) in
  let self' := snd (create_custom_expert hex config self) in
  let worker :=
    {| name := Some (cfg_name config); domain := CUSTOM;
       keywords := cfg_skills config; capabilities := cfg_tools config;
       performance_baseline := 4.0 |} in
  expert_id = "custom_" ++ hex
  /\ In (expert_id, worker) (expert_library (core self'))
  /\ In (expert_id, worker) (custom_experts self')
  /\ (~ In expert_id (map fst (expert_library (core self))) ->
      expert_library (core self')
      = (expert_library (core self) ++ [(expert_id, worker)])%list)
  /\ (cfg_skills config <> [] -> cfg_tools config <> [] ->
      SelectorProofs.library_wf (expert_library (core self)) ->
      SelectorProofs.library_wf (expert_library (core self')))
  /\ (cfg_skills config = [] \/ cfg_tools config = [] ->
      forall request session_id,
        select_experts (core self') request session_id
        = Raise ZeroDivisionError).
Proof.
  cbv zeta. unfold create_custom_expert. simpl.
  split; [reflexivity | ].
  split; [apply dict_set_In | ].
  split; [apply dict_set_In | ].
  split; [apply dict_set_fresh | ].
  split.
  - intros Hs Ht Hwf. apply dict_set_Forall; [exact Hwf | ].
    simpl. split; assumption.
  - intros Hempty request session_id.
    unfold select_experts, adjusted_scores. simpl.
    set (ctx := session_context_of _ session_id).
    set (worker :=
      {| name := Some (cfg_name config); domain := CUSTOM;
         keywords := cfg_skills config; capabilities := cfg_tools config;
         performance_baseline := 4.0 |}).
    pose proof (dict_set_In ("custom_" ++ hex) worker
                  (expert_library (core self))) as Hin.
    induction (dict_set ("custom_" ++ hex) worker
                 (expert_library (core self))) as [ | [n d] library IH];
      [destruct Hin | ].
    simpl. destruct Hin as [[= -> ->] | Hin].
    + now rewrite (expert_score_empty request worker ctx Hempty).
    + destruct (expert_score_outcome request d ctx) as [[raw ->] | ->];
        [ | reflexivity].
      simpl. specialize (IH Hin).
      destruct (Decomposer.mapM _ library) as [items | e]; simpl in *.
      * discriminate.
      * injection IH as ->. reflexivity.
Qed.

End CustomExpertProofs.

(** ** What a conversation leaves in the engine *)

Module EngineBookkeepingProofs.

Import Conversation StartConversationProofs.
Local Open Scope Q_scope.

Section AnyStrategies.

Variables sequential concurrent debate review : Strategy.

Local Abbreviation body :=
  (conversation_body sequential concurrent debate review).
Local Abbreviation start :=
  (start_conversation sequential concurrent debate review).

(** What the [try] block does to the history and to the other threads. *)
Lemma conversation_body_effects (thread : ConversationThread)
  (engine engine' : Engine) (outcome : PyResult ConversationResult) :
  body thread engine = (outcome, engine') ->
  is_Some (active_threads engine !! id thread) ->
  conversation_history engine'
  = match outcome with
    | Ok r => (conversation_history engine ++ [r])%list
    | Raise _ => conversation_history engine
    end
  /\ forall key, key <> id thread ->
                 active_threads engine' !! key = active_threads engine !! key.
Proof.
  unfold conversation_body, ebind. intros Hrun Hin.
  assert (Hstrategy : forall strategy,
    match run_strategy strategy (id thread) thread engine with
    | (Ok result, e') =>
        match append_history result e' with
        | (Ok _, e'') =>
            match set_active_status (id thread) "completed" e'' with
            | (Ok _, e3) => eret result e3
            | (Raise x, e3) => (Raise x, e3)
            end
        | (Raise x, e'') => (Raise x, e'')
        end
    | (Raise x, e') => (Raise x, e')
    end = (outcome, engine') ->
    conversation_history engine'
    = match outcome with
      | Ok r => (conversation_history engine ++ [r])%list
      | Raise _ => conversation_history engine
      end
    /\ forall key, key <> id thread ->
                   active_threads engine' !! key
                   = active_threads engine !! key).
  { intros strategy. unfold run_strategy.
    destruct (strategy thread (workers engine)) as [[result | x] [ms w]];
      simpl.
    - unfold set_active_status. simpl. rewrite lookup_insert_eq. simpl.
      intros [= <- <-]. simpl. split; [reflexivity | ].
      intros key Hne. now rewrite !lookup_insert_ne by congruence.
    - intros [= <- <-]. simpl. split; [reflexivity | ].
      intros key Hne. now rewrite lookup_insert_ne by congruence. }
  revert Hrun.
  destruct (pattern thread); try (exact (Hstrategy _));
    simpl; intros [= <- <-]; split; reflexivity.
Qed.

(** The thread with its status set to ["failed"] by the handler. *)
Definition mark_failed (key : string) (e : Engine) : Engine :=
  {| active_threads := alter (set_status "failed") key (active_threads e);
     conversation_history := conversation_history e;
     workers := workers e |}.

Lemma start_conversation_cases (fresh_id request : string)
  (requested : ConversationPattern) (selected_experts : list string)
  (engine : Engine) :
  let thread := new_thread fresh_id request requested selected_experts in
  let registered := snd (store_thread fresh_id thread engine) in
  start fresh_id request requested selected_experts engine
  = match body thread registered with
    | (Ok r, engine2) => (Ok r, engine2)
    | (Raise e, engine2) =>
        (Ok (error_result thread selected_experts e),
         mark_failed fresh_id engine2)
    end.
Proof. reflexivity. Qed.

(** X14.  Whatever the strategies do, [start_conversation] appends a
    result to [conversation_history] exactly when the [try] block returns
    one; when the block raises, the error result is returned to the caller
    with [success = false] but the history stays as it was. *)
Theorem conversation_history_records_completed_only
  (fresh_id request : string) (requested : ConversationPattern)
  (selected_experts : list string) (engine : Engine) :
  let thread := new_thread fresh_id request requested selected_experts in
  let registered := snd (store_thread fresh_id thread engine) in
  let outcome := fst (body thread registered) in
  let engine' :=
    snd (start fresh_id request requested selected_experts engine) in
  conversation_history engine'
  = match outcome with
    | Ok r => (conversation_history engine ++ [r])%list
    | Raise _ => conversation_history engine
    end
  /\ (forall e, outcome = Raise e ->
        exists r,
          fst (start fresh_id request requested selected_experts engine)
          = Ok r
          /\ success r = false
          /\ ~ In r (skipn (List.length (conversation_history engine))
                       (conversation_history engine'))).
Proof.
  cbv zeta. rewrite start_conversation_cases. cbv zeta.
  set (thread := new_thread fresh_id request requested selected_experts).
  set (registered := snd (store_thread fresh_id thread engine)).
  assert (Hreg : is_Some (active_threads registered !! id thread)).
  { subst registered. simpl. rewrite lookup_insert_eq. eauto. }
  destruct (body thread registered) as [outcome engine2] eqn:Hbody.
  destruct (conversation_body_effects thread registered engine2 outcome
              Hbody Hreg) as [Hhist _].
  change (conversation_history registered)
    with (conversation_history engine) in Hhist.
  destruct outcome as [r | e]; cbn [fst snd].
  - split; [exact Hhist | intros e H; discriminate].
  - split; [exact Hhist | ].
    intros e' _. eexists. split; [reflexivity | ].
    split; [reflexivity | ].
    cbn [mark_failed conversation_history]. rewrite Hhist.
    rewrite skipn_all. tauto.
Qed.

(** X15.  [start_conversation] keeps every thread: the new thread is in
    [active_threads] after the call, completed or failed, and every thread
    stored under another id is as it was.  No call removes a thread. *)
Theorem start_conversation_keeps_threads (fresh_id request : string)
  (requested : ConversationPattern) (selected_experts : list string)
  (engine : Engine) :
  let engine' :=
    snd (start fresh_id request requested selected_experts engine) in
  (exists t,
     active_threads engine' !! fresh_id = Some t
     /\ id t = fresh_id
     /\ (status t = "completed" \/ status t = "failed"))
  /\ forall key, key <> fresh_id ->
                 active_threads engine' !! key = active_threads engine !! key.
Proof.
  cbv zeta. rewrite start_conversation_cases. cbv zeta.
  set (thread := new_thread fresh_id request requested selected_experts).
  set (registered := snd (store_thread fresh_id thread engine)).
  assert (Hreg : is_Some (active_threads registered !! id thread)).
  { subst registered. simpl. rewrite lookup_insert_eq. eauto. }
  destruct (body thread registered) as [outcome engine2] eqn:Hbody.
  destruct (conversation_body_effects thread registered engine2 outcome
              Hbody Hreg) as [_ Hothers].
  assert (Hothers' : forall key, key <> fresh_id ->
            active_threads engine2 !! key = active_threads engine !! key).
  { intros key Hne. rewrite Hothers by exact Hne.
    subst registered. simpl. now rewrite lookup_insert_ne by congruence. }
  (* the thread under its own id, as the block leaves it *)
  assert (Hown : exists t,
            active_threads engine2 !! fresh_id = Some t /\ id t = fresh_id
            /\ (outcome = Ok (match outcome with Ok r => r | _ =>
                      error_result thread selected_experts IndexError end) ->
                status t = "completed")).
  { revert Hbody. unfold conversation_body, ebind.
    assert (Hstrategy : forall strategy,
      match run_strategy strategy (id thread) thread registered with
      | (Ok result, e') =>
          match append_history result e' with
          | (Ok _, e'') =>
              match set_active_status (id thread) "completed" e'' with
              | (Ok _, e3) => eret result e3
              | (Raise x, e3) => (Raise x, e3)
              end
          | (Raise x, e'') => (Raise x, e'')
          end
      | (Raise x, e') => (Raise x, e')
      end = (outcome, engine2) ->
      exists t,
        active_threads engine2 !! fresh_id = Some t /\ id t = fresh_id
        /\ (outcome = Ok (match outcome with Ok r => r | _ =>
                  error_result thread selected_experts IndexError end) ->
            status t = "completed")).
    { intros strategy. unfold run_strategy.
      destruct (strategy thread (workers registered)) as [[result | x] [ms w]];
        simpl.
      - unfold set_active_status. simpl.
        change (id thread) with fresh_id.
        rewrite lookup_insert_eq. simpl.
        intros [= <- <-]. simpl. rewrite lookup_insert_eq.
        eexists. split; [reflexivity | ]. split; reflexivity.
      - change (id thread) with fresh_id.
        intros [= <- <-]. simpl. rewrite lookup_insert_eq.
        eexists. split; [reflexivity | ].
        split; [reflexivity | discriminate]. }
    destruct (pattern thread); try (exact (Hstrategy _));
      simpl; intros [= <- <-]; simpl; rewrite lookup_insert_eq;
      (eexists; split; [reflexivity | ];
       split; [reflexivity | discriminate]). }
  destruct Hown as (t & Ht & Hid & Hdone).
  destruct outcome as [r | e]; cbn [fst snd mark_failed active_threads].
  - split; [ | exact Hothers'].
    exists t. split; [exact Ht | ]. split; [exact Hid | ].
    left. now apply Hdone.
  - split.
    + rewrite lookup_alter_eq, Ht. simpl. eexists.
      split; [reflexivity | ]. split; [exact Hid | now right].
    + intros key Hne. rewrite lookup_alter_ne by congruence.
      now apply Hothers'.
Qed.

End AnyStrategies.

End EngineBookkeepingProofs.

(** ** Sequential chain and group debate *)

Module StrategiesProofs.

Import Conversation Strategies.
Local Open Scope Q_scope.

Lemma is_free_touch (e x : string) (w : Workers) :
  is_free (touch_availability e w) x = is_free w x.
Proof.
  unfold touch_availability, is_free.
  destruct (expert_availability w !! e) eqn:E; [reflexivity | ]. simpl.
  destruct (String.eqb_spec e x) as [<- | Hne].
  - now rewrite lookup_insert_eq, E.
  - now rewrite lookup_insert_ne.
Qed.

Lemma load_of_touch (e x : string) (w : Workers) :
  load_of (touch_availability e w) x = load_of w x.
Proof.
  unfold touch_availability, load_of.
  now destruct (expert_availability w !! e).
Qed.

Lemma is_free_mark (e x : string) (b : bool) (d : Z) (w : Workers) :
  is_free (mark e b d w) x = if String.eqb e x then b else is_free w x.
Proof.
  unfold mark, is_free. simpl.
  destruct (String.eqb_spec e x) as [<- | Hne].
  - now rewrite lookup_insert_eq.
  - now rewrite lookup_insert_ne.
Qed.

Lemma load_of_mark (e x : string) (b : bool) (d : Z) (w : Workers) :
  load_of (mark e b d w) x
  = if String.eqb e x then (load_of w e + d)%Z else load_of w x.
Proof.
  unfold mark. unfold load_of at 1. simpl.
  destruct (String.eqb_spec e x) as [<- | Hne].
  - now rewrite lookup_insert_eq.
  - now rewrite lookup_insert_ne.
Qed.

Section WithDraws.

Variable draws : nat -> Q.

(** One pass of the chain: a free worker adds one message and is released
    with its load restored; a busy worker is passed over. *)
Lemma chain_step_spec (thread_topic : string) (i : nat) (e : string)
  (st : Chain) :
  let st' := chain_step draws thread_topic i e st in
  (forall x, is_free (chain_workers st') x = is_free (chain_workers st) x)
  /\ (forall x, load_of (chain_workers st') x = load_of (chain_workers st) x)
  /\ map msg_expert_name (chain_messages st')
     = (map msg_expert_name (chain_messages st)
        ++ if is_free (chain_workers st) e then [e] else [])%list
  /\ map expert (chain_responses st')
     = (map expert (chain_responses st)
        ++ if is_free (chain_workers st) e then [e] else [])%list.
Proof.
  cbv zeta. unfold chain_step. rewrite is_free_touch.
  destruct (is_free (chain_workers st) e) eqn:Hfree;
    cbn [negb chain_workers chain_messages chain_responses].
  - split; [ | split; [ | split]].
    + intros x. rewrite !is_free_mark, is_free_touch.
      destruct (String.eqb_spec e x) as [<- | _]; congruence.
    + intros x. rewrite !load_of_mark, String.eqb_refl, load_of_touch.
      destruct (String.eqb_spec e x) as [<- | _];
        [lia | apply load_of_touch].
    + now rewrite map_app.
    + now rewrite map_app.
  - split; [ | split; [ | split]]; try (now rewrite app_nil_r).
    + intros x. apply is_free_touch.
    + intros x. apply load_of_touch.
Qed.

Lemma chain_loop_spec (thread_topic : string) (participants : list string) :
  forall (i : nat) (st : Chain),
    let st' := chain_loop draws thread_topic i participants st in
    (forall x, is_free (chain_workers st') x = is_free (chain_workers st) x)
    /\ (forall x, load_of (chain_workers st') x
                  = load_of (chain_workers st) x)
    /\ map msg_expert_name (chain_messages st')
       = (map msg_expert_name (chain_messages st)
          ++ List.filter (is_free (chain_workers st)) participants)%list
    /\ map expert (chain_responses st')
       = (map expert (chain_responses st)
          ++ List.filter (is_free (chain_workers st)) participants)%list.
Proof.
  induction participants as [ | e rest IH]; intros i st; cbv zeta; simpl.
  - rewrite !app_nil_r. repeat split; reflexivity.
  - destruct (chain_step_spec thread_topic i e st)
      as (Hfree & Hload & Hmsg & Hresp).
    destruct (IH (S i) (chain_step draws thread_topic i e st))
      as (Hfree' & Hload' & Hmsg' & Hresp').
    cbv zeta in *.
    assert (Hfilter :
      List.filter
        (is_free (chain_workers (chain_step draws thread_topic i e st))) rest
      = List.filter (is_free (chain_workers st)) rest)
      by (apply filter_ext; exact Hfree).
    split; [intros x; now rewrite Hfree', Hfree | ].
    split; [intros x; now rewrite Hload', Hload | ].
    rewrite Hmsg', Hresp', Hmsg, Hresp, Hfilter, <- !app_assoc.
    destruct (is_free (chain_workers st) e); split; reflexivity.
Qed.

(** X16.  The sequential chain always returns a successful result.  It
    adds to the thread one message per participant that is free, in
    participant order, and none for a busy one; the message count of the
    result is the number of messages of the thread.  Afterwards every
    worker is as free or busy as before and has the load it had: the busy
    mark set for a call is gone when the call is over. *)
Theorem sequential_chain_spec (duration : Q) (thread : ConversationThread)
  (w : Workers) :
  let finished := _sequential_chain_conversation draws duration thread w in
  exists r,
    fst finished = Ok r
    /\ success r = true
    /\ map msg_expert_name (fst (snd finished))
       = (map msg_expert_name (messages thread)
          ++ List.filter (is_free w) (participants thread))%list
    /\ message_count r = List.length (fst (snd finished))
    /\ (forall x, is_free (snd (snd finished)) x = is_free w x)
    /\ (forall x, load_of (snd (snd finished)) x = load_of w x).
Proof.
  cbv zeta. unfold _sequential_chain_conversation. cbn [fst snd].
  destruct (chain_loop_spec (thread_topic thread) (participants thread) 0
              {| chain_responses := []; chain_messages := messages thread;
                 chain_workers := w |}) as (Hfree & Hload & Hmsg & _).
  cbv zeta in *. simpl in Hfree, Hload, Hmsg.
  eexists. split; [reflexivity | ]. cbn [success message_count].
  repeat split; assumption.
Qed.

(** *** Group debate *)

(** The number of messages of a discussion that are not the
    facilitator's. *)
Definition outsiders (facilitator : string) (ms : list ConversationMessage)
  : nat :=
  List.length
    (List.filter
       (fun m => negb (String.eqb (msg_expert_name m) facilitator)) ms).

Lemma outsiders_app (f : string) (ms ms' : list ConversationMessage) :
  outsiders f (ms ++ ms') = (outsiders f ms + outsiders f ms')%nat.
Proof. unfold outsiders. now rewrite List.filter_app, length_app. Qed.

(** The inner loop of a round: every free contributor adds a response and
    a message, in order; nobody's availability changes. *)
Lemma contributions_spec (thread_topic : string) (contributors : list string) :
  forall (st : Debate) (round_messages : list Response),
    let '(st', round_messages') :=
      contributions draws thread_topic contributors st round_messages in
    (forall x, is_free (debate_workers st') x = is_free (debate_workers st) x)
    /\ exists new,
         round_messages' = (round_messages ++ new)%list
         /\ discussion st'
            = (discussion st ++ map message_of new)%list
         /\ map expert new
            = List.filter (is_free (debate_workers st)) contributors.
Proof.
  induction contributors as [ | c rest IH]; intros st rm; simpl.
  - split; [reflexivity | ]. exists []. now rewrite !app_nil_r.
  - rewrite is_free_touch.
    destruct (is_free (debate_workers st) c) eqn:Hfree; simpl.
    + match goal with
      | |- context [contributions draws thread_topic rest ?s ?m] =>
          specialize (IH s m);
          destruct (contributions draws thread_topic rest s m) as [st' rm']
      end.
      destruct IH as (Hf & new & -> & Hd & Hn). simpl in *.
      split; [intros x; now rewrite Hf, is_free_touch | ].
      eexists (_ :: new). rewrite <- app_assoc. split; [reflexivity | ].
      split; [rewrite Hd, <- app_assoc; reflexivity | ].
      simpl. f_equal. rewrite Hn. apply filter_ext. intros x.
      apply is_free_touch.
    + match goal with
      | |- context [contributions draws thread_topic rest ?s ?m] =>
          specialize (IH s m);
          destruct (contributions draws thread_topic rest s m) as [st' rm']
      end.
      destruct IH as (Hf & new & -> & Hd & Hn). simpl in *.
      split; [intros x; now rewrite Hf, is_free_touch | ].
      exists new. split; [reflexivity | ]. split; [exact Hd | ].
      rewrite Hn. apply filter_ext. intros x. apply is_free_touch.
Qed.

Lemma outsiders_messages (f : string) (new : list Response) :
  (forall c, In c (map expert new) -> c <> f) ->
  outsiders f (map message_of new) = List.length new.
Proof.
  unfold outsiders. induction new as [ | r new IH]; intros H; simpl;
    [reflexivity | ].
  destruct (String.eqb_spec (expert r) f) as [E | _].
  - exfalso. apply (H (expert r)); [now left | exact E].
  - simpl. f_equal. apply IH. intros c Hc. apply H. now right.
Qed.

(** One round among contributors none of whom is the facilitator. *)
Lemma round_spec (thread_topic f : string) (contributors : list string)
  (st : Debate) :
  (forall c, In c contributors -> c <> f) ->
  let '(st', round_messages) :=
    contributions draws thread_topic contributors st [] in
  (forall x, is_free (debate_workers st') x = is_free (debate_workers st) x)
  /\ List.length round_messages
     = List.length (List.filter (is_free (debate_workers st)) contributors)
  /\ outsiders f (discussion st')
     = (outsiders f (discussion st) + List.length round_messages)%nat
  /\ List.length (discussion st')
     = (List.length (discussion st) + List.length round_messages)%nat.
Proof.
  intros Hne.
  pose proof (contributions_spec thread_topic contributors st []) as H.
  destruct (contributions draws thread_topic contributors st [])
    as [st' rm].
  destruct H as (Hf & new & -> & Hd & Hn). simpl.
  split; [exact Hf | ].
  split; [now rewrite <- Hn, length_map | ].
  rewrite Hd, outsiders_app, length_app, length_map.
  split; [ | reflexivity]. f_equal.
  apply outsiders_messages. intros c Hc. apply Hne.
  rewrite Hn in Hc. now apply List.filter_In in Hc.
Qed.

(** Case analysis on the test that ends a round. *)
Local Ltac stop_or_go :=
  match goal with
  | |- context [if ?c then _ else _] => destruct c
  end.

(** The debate among pairwise distinct participants, of which at least one
    besides the facilitator is free, raises when it computes the final
    consensus level. *)
Lemma debate_strategy_raises (duration : Q) (thread : ConversationThread)
  (w : Workers) (facilitator : string) (contributors : list string) :
  participants thread = facilitator :: contributors ->
  List.NoDup (facilitator :: contributors) ->
  (exists c, In c contributors /\ is_free w c = true) ->
  fst (_group_chat_debate_conversation draws duration thread w)
  = Raise
      (AttributeError "'ConversationMessage' object has no attribute 'get'").
Proof.
  intros Hp Hnd (c & Hc & Hfree).
  assert (Hne : forall x, In x contributors -> x <> facilitator).
  { intros x Hx ->. apply List.NoDup_cons_iff in Hnd. tauto. }
  assert (Hk : forall w', (forall x, is_free w' x = is_free w x) ->
            (1 <= List.length (List.filter (is_free w') contributors))%nat).
  { intros w' Hsame.
    assert (Hin : In c (List.filter (is_free w') contributors))
      by (apply List.filter_In; split; [exact Hc | now rewrite Hsame]).
    destruct (List.filter (is_free w') contributors); [destruct Hin | ].
    simpl. lia. }
  unfold _group_chat_debate_conversation. rewrite Hp.
  assert (Hcs : (if (1 <? List.length (facilitator :: contributors))%nat
                 then tl (facilitator :: contributors) else [])
                = contributors).
  { destruct contributors; [destruct Hc | reflexivity]. }
  rewrite Hcs.
  set (topic := thread_topic thread).
  set (st0 := {| drawn := 0; debate_workers := w; discussion := _ |}).
  assert (Hcount : forall st b,
            debate_rounds draws topic contributors 3 st0 = (st, b) ->
            (2 <= outsiders facilitator (discussion st))%nat).
  { intros st b. cbn [debate_rounds].
    pose proof (round_spec topic facilitator contributors st0 Hne) as H1.
    destruct (contributions draws topic contributors st0 [])
      as [st1 rm1].
    destruct H1 as (Hf1 & Hl1 & Ho1 & _).
    pose proof (Hk (debate_workers st0) (fun x => eq_refl)) as Hk1.
    destruct (Nat.leb_spec 2 (List.length rm1)) as [H2 | H2]; simpl.
    - stop_or_go; [intros [= <- _]; lia | ].
      pose proof (round_spec topic facilitator contributors st1 Hne) as H.
      destruct (contributions draws topic contributors st1 [])
        as [st2 rm2].
      destruct H as (Hf2 & Hl2 & Ho2 & _).
      stop_or_go; [intros [= <- _]; lia | ].
      pose proof (round_spec topic facilitator contributors st2 Hne) as H.
      destruct (contributions draws topic contributors st2 [])
        as [st3 rm3].
      destruct H as (Hf3 & Hl3 & Ho3 & _).
      stop_or_go; intros [= <- _]; lia.
    - pose proof (round_spec topic facilitator contributors st1 Hne) as H.
      destruct (contributions draws topic contributors st1 [])
        as [st2 rm2].
      destruct H as (Hf2 & Hl2 & Ho2 & _).
      assert (Hk2 : (1 <= List.length rm2)%nat).
      { rewrite Hl2. apply Hk. intros x. now rewrite Hf1. }
      stop_or_go; [intros [= <- _]; lia | ].
      pose proof (round_spec topic facilitator contributors st2 Hne) as H.
      destruct (contributions draws topic contributors st2 [])
        as [st3 rm3].
      destruct H as (Hf3 & Hl3 & Ho3 & _).
      stop_or_go; intros [= <- _]; lia. }
  destruct (debate_rounds draws topic contributors 3 st0) as [st b] eqn:Hrun.
  specialize (Hcount st b eq_refl). unfold outsiders in Hcount.
  cbn [fst]. unfold consensus_of_messages.
  destruct (Nat.ltb_spec
              (List.length
                 (List.filter
                    (fun m => negb (String.eqb (msg_expert_name m) facilitator))
                    (discussion st))) 2); [lia | reflexivity].
Qed.

Definition no_get : Exception :=
  AttributeError "'ConversationMessage' object has no attribute 'get'".

(** X17.  A group debate started among pairwise distinct participants, of
    which at least one besides the facilitator is free, always fails,
    whatever the workers answer: after the rounds, the final consensus
    level is computed on message objects, which raises [AttributeError].
    [start_conversation] returns the error result, with [success = false]
    and the final response ["Conversation failed: 'ConversationMessage'
    object has no attribute 'get'"]; the thread ends in the status
    ["failed"] and nothing is added to the history. *)
Theorem group_debate_conversation_fails
  (sequential concurrent review : Strategy) (duration : Q)
  (fresh_id request facilitator : string) (contributors : list string)
  (engine : Engine) :
  List.NoDup (facilitator :: contributors) ->
  (exists c, In c contributors /\ is_free (workers engine) c = true) ->
  let finished :=
    start_conversation sequential concurrent
      (_group_chat_debate_conversation draws duration) review
      fresh_id request GROUP_CHAT_DEBATE (facilitator :: contributors)
      engine in
  fst finished
  = Ok (error_result
          (StartConversationProofs.new_thread fresh_id request
             GROUP_CHAT_DEBATE (facilitator :: contributors))
          (facilitator :: contributors) no_get)
  /\ StartConversationProofs.thread_status (snd finished) fresh_id
     = Some "failed"
  /\ conversation_history (snd finished) = conversation_history engine.
Proof.
  intros Hnd Hfree. cbv zeta.
  rewrite EngineBookkeepingProofs.start_conversation_cases. cbv zeta.
  set (thread := StartConversationProofs.new_thread fresh_id request
                   GROUP_CHAT_DEBATE (facilitator :: contributors)).
  pose proof (debate_strategy_raises duration thread (workers engine)
                facilitator contributors eq_refl Hnd Hfree) as Hraise.
  unfold conversation_body, ebind.
  change (pattern thread) with GROUP_CHAT_DEBATE. cbv beta iota.
  unfold run_strategy, store_thread. cbn [fst snd workers].
  destruct (_group_chat_debate_conversation draws duration thread
              (workers engine)) as [outcome [ms w']].
  cbn [fst] in Hraise. subst outcome. cbn [fst snd].
  split; [reflexivity | ]. split; [ | reflexivity].
  unfold StartConversationProofs.thread_status,
    EngineBookkeepingProofs.mark_failed.
  cbn [active_threads]. change (id thread) with fresh_id.
  now rewrite lookup_alter_eq, lookup_insert_eq.
Qed.

(** X18.  A group debate in which nobody besides the facilitator is free
    (in particular one with a single participant, or with none) returns a
    successful result with the consensus level 1.0 and a message count of
    1, the facilitator's opening message. *)
Theorem group_debate_alone (duration : Q) (thread : ConversationThread)
  (w : Workers) :
  (forall c, In c (tl (participants thread)) -> is_free w c = false) ->
  exists r,
    fst (_group_chat_debate_conversation draws duration thread w) = Ok r
    /\ success r = true
    /\ consensus_level r == 1
    /\ message_count r = 1%nat.
Proof.
  intros Hbusy. unfold _group_chat_debate_conversation.
  set (f := match participants thread with
            | first :: _ => first
            | [] => "backend-architect"
            end).
  set (cs := if (1 <? List.length (participants thread))%nat
             then tl (participants thread) else []).
  assert (Hcs : forall c, In c cs -> is_free w c = false).
  { subst cs. destruct (1 <? List.length (participants thread))%nat;
      [exact Hbusy | intros c []]. }
  set (topic := thread_topic thread).
  set (st0 := {| drawn := 0; debate_workers := w; discussion := _ |}).
  assert (Hround : forall st,
            (forall x, is_free (debate_workers st) x = is_free w x) ->
            exists st',
              contributions draws topic cs st [] = (st', [])
              /\ discussion st' = discussion st
              /\ forall x, is_free (debate_workers st') x = is_free w x).
  { intros st Hsame.
    pose proof (contributions_spec topic cs st []) as H.
    destruct (contributions draws topic cs st []) as [st' rm].
    destruct H as (Hf & new & -> & Hd & Hn).
    assert (Hnil : List.filter (is_free (debate_workers st)) cs = []).
    { clear -Hcs Hsame. induction cs as [ | c cs IH]; [reflexivity | ].
      simpl. rewrite Hsame, (Hcs c (or_introl eq_refl)).
      apply IH. intros x Hx. apply Hcs. now right. }
    rewrite Hnil in Hn. apply map_eq_nil in Hn. subst new.
    exists st'. simpl in *. rewrite app_nil_r in Hd.
    split; [reflexivity | ]. split; [exact Hd | ].
    intros x. now rewrite Hf. }
  cbn [debate_rounds].
  destruct (Hround st0 (fun x => eq_refl)) as (st1 & -> & Hd1 & Hf1).
  simpl.
  destruct (Hround st1 Hf1) as (st2 & -> & Hd2 & Hf2). simpl.
  destruct (Hround st2 Hf2) as (st3 & -> & Hd3 & Hf3). simpl.
  rewrite Hd3, Hd2, Hd1. subst st0. simpl.
  rewrite String.eqb_refl. simpl.
  eexists. split; [reflexivity | ]. simpl.
  split; [reflexivity | ]. split; reflexivity.
Qed.

End WithDraws.

(** Workers that always report the confidence 0.8. *)
Definition steady (n : nat) : Q := 0.8.

Lemma group_debate_conversation_fails_witness :
  fst (start_conversation
         (_sequential_chain_conversation steady 1)
         (_sequential_chain_conversation steady 1)
         (_group_chat_debate_conversation steady 1)
         (maker_checker_strategy steady 1)
         "thread-3" "Which database?" GROUP_CHAT_DEBATE
         ["backend-architect"; "postgres-expert"] new_engine)
  = Ok (error_result
          (StartConversationProofs.new_thread "thread-3" "Which database?"
             GROUP_CHAT_DEBATE ["backend-architect"; "postgres-expert"])
          ["backend-architect"; "postgres-expert"] no_get).
Proof.
  refine
    (proj1
       (group_debate_conversation_fails steady
          (_sequential_chain_conversation steady 1)
          (_sequential_chain_conversation steady 1)
          (maker_checker_strategy steady 1) 1 "thread-3" "Which database?"
          "backend-architect" ["postgres-expert"] new_engine _ _)).
  - repeat constructor; simpl; intuition discriminate.
  - exists "postgres-expert". split; [now left | reflexivity].
Defined.

Lemma group_debate_alone_witness :
  exists r,
    fst (_group_chat_debate_conversation steady 1
           {| id := "thread-4"; thread_topic := "Which database?";
              pattern := GROUP_CHAT_DEBATE;
              participants := ["backend-architect"];
              messages := []; status := "active" |} (workers new_engine))
    = Ok r
    /\ message_count r = 1%nat.
Proof.
  destruct (group_debate_alone steady 1
              {| id := "thread-4"; thread_topic := "Which database?";
                 pattern := GROUP_CHAT_DEBATE;
                 participants := ["backend-architect"];
                 messages := []; status := "active" |} (workers new_engine))
    as (r & Hr & _ & _ & Hcount).
  - intros c [].
  - exists r. split; assumption.
Defined.

End StrategiesProofs.

(** ** Hierarchical plans *)

Module HierarchicalProofs.

Import Decomposer.

Definition planners : list string := ["backend-architect"; "architect"; "pm"].
Definition developers : list string :=
  ["react-expert"; "python-expert"; "nodejs-expert"].
Definition testers : list string := ["jest-expert"; "cypress-expert"].

(** Some worker of [group] was selected. *)
Definition selected_any (group experts : list string) : bool :=
  existsb (fun expert => mem expert experts) group.

(** Some selected worker is a development worker. *)
Definition develops (experts : list string) : bool :=
  existsb (fun expert => mem expert developers) experts.

Definition development_subtask (expert : string) : Subtask :=
  {| st_level := 2; st_type := "development"; st_expert := expert;
     st_description := "Core development using " ++ expert;
     st_dependencies := []; st_estimated_time := 30; st_id := None |}.

Section Loop.

(** The body of the development loop. *)
Let body (subtasks : list Subtask) (expert : string)
  : PyResult (list Subtask) :=
  if mem expert ["react-expert"; "python-expert"; "nodejs-expert"]
  then
    do deps <- ids_at_level 1 subtasks ;;
    Ok (subtasks ++
          [ {| st_level := 2; st_type := "development";
               st_expert := expert;
               st_description := "Core development using " ++ expert;
               st_dependencies := deps; st_estimated_time := 30;
               st_id := None |} ])%list
  else Ok subtasks.

(** With a planning subtask in the list, the first development worker
    makes the loop raise. *)
Lemma loop_after_planning (p : Subtask) (experts : list string) :
  st_level p = 1 -> st_id p = None ->
  for_each body experts [p]
  = if develops experts then Raise (KeyError "id") else Ok [p].
Proof.
  intros Hl Hi. induction experts as [ | e experts IH]; [reflexivity | ].
  unfold develops in *. cbn [for_each existsb]. unfold body at 1.
  fold developers.
  destruct (mem e developers) eqn:E; cbn [orb bind].
  - unfold ids_at_level. cbn [List.filter]. rewrite Hl.
    cbn [Nat.eqb mapM]. unfold get_id. now rewrite Hi.
  - exact IH.
Qed.

(** Without one, every development worker gets its subtask, free of
    dependencies. *)
Lemma loop_without_planning (experts : list string) :
  forall acc : list Subtask,
    Forall (fun s => st_level s = 2) acc ->
    for_each body experts acc
    = Ok (acc ++ map development_subtask
                   (List.filter (fun e => mem e developers) experts))%list.
Proof.
  induction experts as [ | e experts IH]; intros acc Hacc;
    cbn [for_each List.filter].
  - cbn [map]. now rewrite app_nil_r.
  - unfold body at 1. fold developers.
    destruct (mem e developers) eqn:E; cbn [bind map].
    + assert (Hnone : ids_at_level 1 acc = Ok []).
      { unfold ids_at_level.
        replace (List.filter (fun s => Nat.eqb (st_level s) 1) acc)
          with (@nil Subtask); [reflexivity | ].
        symmetry. clear -Hacc. induction Hacc as [ | s acc Hs _ IHa];
          [reflexivity | ]. simpl. now rewrite Hs. }
      rewrite Hnone. cbn [bind]. rewrite IH.
      * now rewrite <- app_assoc.
      * apply List.Forall_app. split; [exact Hacc | ].
        constructor; [reflexivity | constructor].
    + now apply IH.
Qed.

Lemma ids_of_developed (experts : list string) :
  ids_at_level 2
    (map development_subtask
       (List.filter (fun e => mem e developers) experts))
  = if develops experts then Raise (KeyError "id") else Ok [].
Proof.
  unfold develops, ids_at_level.
  induction experts as [ | e experts IH]; [reflexivity | ].
  cbn [List.filter existsb].
  destruct (mem e developers); [reflexivity | exact IH].
Qed.

(** X19.  The hierarchical plan raises [KeyError] exactly when a
    development worker is selected together with a planning worker or a
    testing worker; in every other case it is built. *)
Theorem hierarchical_subtasks_raise (request : string)
  (experts : list string) :
  let doomed :=
    develops experts
    && (selected_any planners experts || selected_any testers experts) in
  (doomed = true ->
   _create_hierarchical_subtasks request experts = Raise (KeyError "id"))
  /\ (doomed = false ->
      exists subtasks,
        _create_hierarchical_subtasks request experts = Ok subtasks).
Proof.
  cbv zeta. unfold _create_hierarchical_subtasks.
  fold planners testers. fold (selected_any planners experts).
  fold (selected_any testers experts).
  change (for_each _ experts) with (for_each body experts).
  destruct (selected_any planners experts) eqn:Hplan.
  - rewrite loop_after_planning by reflexivity.
    destruct (develops experts); cbn [andb orb bind].
    + split; [reflexivity | discriminate].
    + split; [discriminate | ]. intros _.
      destruct (selected_any testers experts); cbn [bind]; eauto.
  - rewrite loop_without_planning by constructor. cbn [app bind orb].
    destruct (selected_any testers experts) eqn:Htest.
    + rewrite ids_of_developed.
      destruct (develops experts); cbn [andb bind].
      * split; [reflexivity | discriminate].
      * split; [discriminate | eauto].
    + rewrite andb_false_r. cbn [bind]. split; [discriminate | eauto].
Qed.

End Loop.

End HierarchicalProofs.

(** ** Quality metrics and the course of a review *)

Module ReviewProofs.

Import Conversation Strategies QFacts.
Local Open Scope Q_scope.

Lemma Qsum_nonneg (xs : list Q) : Forall (fun x => 0 <= x) xs -> 0 <= Qsum xs.
Proof.
  induction 1 as [ | x xs Hx _ IH]; simpl; [apply Qle_refl | lra].
Qed.

Lemma count_distinct_bounds (xs : list string) :
  xs <> [] -> (1 <= count_distinct xs <= List.length xs)%nat.
Proof.
  intros Hne. unfold count_distinct. split.
  - destruct xs as [ | x xs]; [congruence | ].
    assert (Hin : In x (nodup string_dec (x :: xs)))
      by (apply nodup_In; now left).
    destruct (nodup string_dec (x :: xs)); [destruct Hin | simpl; lia].
  - apply NoDup_incl_length; [apply NoDup_nodup | ].
    intros y Hy. now apply nodup_In in Hy.
Qed.

(** X20.  For a non-empty list of responses with confidences in [0,1],
    the quality metrics are four entries: the average confidence, in
    [0,1]; the number of distinct experts, at least 1 and at most the
    number of responses; the completeness score, in [0,1]; and the
    constant 4.2. *)
Theorem quality_metrics_bounds (responses : list Response) :
  responses <> [] ->
  Forall (fun r => 0 <= confidence_of r <= 1) responses ->
  exists (average : Q) (distinct : nat) (completeness : Q),
    _calculate_quality_metrics responses
    = [ ("average_confidence", average);
        ("response_diversity", inject_Z (Z.of_nat distinct));
        ("completeness_score", completeness);
        ("expert_satisfaction", 4.2) ]
    /\ 0 <= average <= 1
    /\ (1 <= distinct <= List.length responses)%nat
    /\ 0 <= completeness <= 1.
Proof.
  intros Hne Hconf. unfold _calculate_quality_metrics.
  destruct responses as [ | r rest] eqn:E; [congruence | ]. rewrite <- E in *.
  eexists _, _, _. split; [reflexivity | ].
  assert (Hlen : 0 < Qlen responses)
    by (apply inject_nat_pos; subst; simpl; lia).
  split; [ | split].
  - rewrite ConsensusProofs.Qlen_map.
    assert (Hsum : 0 <= Qsum (map confidence_of responses) <= Qlen responses).
    { rewrite <- (ConsensusProofs.Qlen_map confidence_of).
      apply ConsensusProofs.Qsum_bounds. now apply Forall_map. }
    split.
    + apply Qle_shift_div_l; [exact Hlen | lra].
    + apply Qle_shift_div_r; [exact Hlen | lra].
  - rewrite <- (length_map expert). apply count_distinct_bounds.
    subst. discriminate.
  - split.
    + apply Q.min_glb; [ | lra]. apply Qle_shift_div_l; [lra | ].
      rewrite Qmult_0_l. apply Qsum_nonneg.
      apply List.Forall_forall. intros x Hx. apply in_map_iff in Hx.
      destruct Hx as (r' & <- & _). apply inject_nat_nonneg.
    + apply Qle_trans with 1.0; [apply Q.le_min_r | lra].
Qed.

Lemma quality_metrics_bounds_witness :
  exists (average : Q) (distinct : nat) (completeness : Q),
    _calculate_quality_metrics ConsensusProofs.two_confident_responses
    = [ ("average_confidence", average);
        ("response_diversity", inject_Z (Z.of_nat distinct));
        ("completeness_score", completeness);
        ("expert_satisfaction", 4.2) ]
    /\ 0 <= average <= 1.
Proof.
  destruct (quality_metrics_bounds ConsensusProofs.two_confident_responses)
    as (a & d & c & H & Ha & _).
  - discriminate.
  - unfold ConsensusProofs.two_confident_responses.
    repeat (apply List.Forall_cons; [unfold confidence_of; simpl; lra | ]).
    apply List.Forall_nil.
  - exists a, d, c. split; assumption.
Defined.

(** The approval score of a review of [maker]'s solution by [checker]. *)
Definition review_score (thread_topic maker checker : string) : Q :=
  _extract_approval_score
    (_generate_expert_specific_response checker
       ("Please review this solution: "
          ++ _generate_expert_specific_response maker thread_topic
               (unread_context thread_topic))
       (unread_context thread_topic)).

(** The text of a review is the same in every pass. *)
Lemma review_score_constant (draws : nat -> Q)
  (thread_topic maker checker : string) (iteration_count : nat)
  (feedback_history : list Feedback) :
  approval_score
    (review_iteration draws thread_topic maker checker iteration_count
       feedback_history)
  = review_score thread_topic maker checker.
Proof. reflexivity. Qed.

(** X21.  The checker's review text is the same in every pass, since the
    templates read neither the pass number nor the earlier feedback; so
    the approval score never changes.  The maker-checker loop therefore
    ends after one pass, approved, or after all three, not approved, never
    after two; the consensus level is that one score, and the improvement
    rate reported is 0. *)
Theorem maker_checker_one_or_three_passes (draws : nat -> Q) (duration : Q)
  (thread : ConversationThread) :
  let maker := fst (assign_roles (participants thread)) in
  let checker := snd (assign_roles (participants thread)) in
  let score := review_score (thread_topic thread) maker checker in
  exists (result : ConversationResult) (rate : Q),
    _maker_checker_loop_conversation draws duration thread = Ok result
    /\ consensus_level result = score
    /\ ((message_count result = 2%nat /\ 0.8 <= score)
        \/ (message_count result = 6%nat /\ score < 0.8))
    /\ nth_error (quality_metrics result) 2 = Some ("improvement_rate", rate)
    /\ rate == 0.
Proof.
  cbv zeta. unfold _maker_checker_loop_conversation.
  destruct (assign_roles (participants thread)) as [maker checker].
  cbn [fst snd]. unfold max_iterations. cbn [Nat.sub review_loop].
  set (score := review_score (thread_topic thread) maker checker).
  set (fb1 := review_iteration draws (thread_topic thread) maker checker 1 []).
  assert (H1 : approval_score fb1 = score) by apply review_score_constant.
  clearbody fb1. rewrite H1.
  destruct (Qle_bool 0.8 score) eqn:E.
  - simpl. rewrite H1, E. eexists _, _. split; [reflexivity | ]. simpl.
    split; [reflexivity | ].
    split; [left; split; [reflexivity | now apply Qle_bool_iff] | ].
    split; reflexivity.
  - set (fb2 := review_iteration draws (thread_topic thread) maker checker 2
                  ([] ++ [fb1])).
    assert (H2 : approval_score fb2 = score) by apply review_score_constant.
    clearbody fb2. rewrite H2, E.
    set (fb3 := review_iteration draws (thread_topic thread) maker checker 3
                  (([] ++ [fb1]) ++ [fb2])).
    assert (H3 : approval_score fb3 = score) by apply review_score_constant.
    clearbody fb3. rewrite H3, E.
    simpl. rewrite H1, H3, E. eexists _, _. split; [reflexivity | ]. simpl.
    split; [reflexivity | ].
    split; [right; split; [reflexivity | now apply Qle_bool_false] | ].
    split; [reflexivity | ]. apply Q.max_l. lra.
Qed.

End ReviewProofs.

(** ** A decomposition that is returned *)

Module PlanProofs.
Import Decomposer DecomposerProofs.

(** The sequential plan of a request that selects two workers is
    returned, and its dependencies point backwards. *)
Lemma decompose_task_built_witness :
  exists t : TaskDecomposition,
    decompose_task _load_expert_library
      "build a react api with python and test it" SEQUENTIAL = Ok t
    /\ no_forward_references (subtasks t).
Proof.
  eexists. split.
  - vm_compute. reflexivity.
  - apply (decompose_task_built _load_expert_library
             "build a react api with python and test it" SEQUENTIAL).
    vm_compute. reflexivity.
Defined.

End PlanProofs.
